(** * Usage metering and overage billing (stylora-railway)

    A shallow embedding of the email metering and overage billing code:

    - [server/emailLimits.ts]          ([getUsage], [trackEmailSend], [getAllTenantsUsage]),
    - [server/emailOverageBilling.ts]  ([generateMonthlyInvoice], [handleStripeWebhook]),
    - [server/stripeWebhook.ts]        ([handleInvoicePaymentSucceeded],
                                        [handleInvoicePaymentFailed], [handleStripeWebhook]).

    JavaScript numbers are IEEE binary64 values; they are modelled by Rocq's
    primitive floats, so that [Math.round], [toFixed(2)] and [parseFloat] are
    evaluated on exactly the doubles the program computes.  Every [await]ed
    database statement is one atomic step of a procedure: a procedure is a
    finite tree of such steps, which is run either alone (module [Run]) or
    interleaved with other requests (module [Pool]). *)

From Stdlib Require Import ZArith Lia List String Ascii Bool Floats DecimalString.
Import ListNotations.

Local Open Scope string_scope.
Local Open Scope Z_scope.

(* ------------------------------------------------------------------ *)
(** ** JavaScript numbers, strings and dates *)

Module JS.

(** An integer read as a JS number: the nearest double. *)
Definition Number_ofZ (z : Z) : float :=
  SF2Prim (binary_normalize prec emax z 0 false).

(** [Math.round(x)]: the integer nearest to the exact value of [x], a tie
    going towards +infinity, that is [floor (x + 1/2)] computed without
    rounding.  Only finite arguments occur (a quotient of two counters with
    a positive divisor); NaN and the infinities are sent to 0. *)
Definition Math_round (x : float) : Z :=
  match Prim2SF x with
  | S754_finite s m e =>
      let n := if s then Z.neg m else Z.pos m in
      if 0 <=? e then n * 2 ^ e
      else (2 * n + 2 ^ (- e)) / 2 ^ (1 - e)
  | _ => 0
  end.

(** [x.toFixed(2)], as the number of hundredths that the resulting string
    denotes: the integer [n] for which [n / 100 - |x|] is closest to zero,
    the larger one on a tie (ECMA-262, Number.prototype.toFixed), with the
    sign of [x].  Only finite arguments occur; NaN and the infinities,
    which do not print as a decimal, are sent to 0. *)
Definition toFixed2 (x : float) : Z :=
  match Prim2SF x with
  | S754_finite s m e =>
      let a := if 0 <=? e then 100 * Z.pos m * 2 ^ e
               else (200 * Z.pos m + 2 ^ (- e)) / 2 ^ (1 - e) in
      if s then - a else a
  | _ => 0
  end.

(** [parseFloat] of a two-decimal string ["d.cc"], the string being held as
    its number [c] of hundredths: the double nearest to [c / 100].  (IEEE
    division is correctly rounded, and both operands are exact as long as
    [c] is below 2^53 in absolute value.) *)
Definition parseFloat2 (c : Z) : float :=
  (Number_ofZ c / 100)%float.

(** [Math.max] on two integers. *)
Definition Math_max (a b : Z) : Z := Z.max a b.

(** [`${n}`] for an integer [n]. *)
Definition Number_toString (n : Z) : string :=
  NilZero.string_of_int (Z.to_int n).

(** [s.padStart(2, '0')]. *)
Definition padStart2 (s : string) : string :=
  match String.length s with
  | O => "00"
  | S O => ("0" ++ s)%string
  | _ => s
  end.

(** A [Date], read through its local calendar fields: [getFullYear()],
    [getMonth()] (0 to 11), [getDate()], and the milliseconds elapsed since
    local midnight. *)
Record Date : Type := mkDate
  { getFullYear : Z;
    getMonth : Z;
    getDate : Z;
    timeOfDay : Z }.

(** [new Date(year, month, 1)] as used by the code, with [month] in 0..11. *)
Definition Date_firstOfMonth (now : Date) : Date :=
  mkDate (getFullYear now) (getMonth now) 1 0.

(** [a || b] on a nullable string: null and the empty string are falsy. *)
Definition or_string (a : option string) (b : string) : string :=
  match a with
  | Some s => if String.eqb s "" then b else s
  | None => b
  end.

(** [a || b] on a nullable integer: null and 0 are falsy. *)
Definition or_int (a : option Z) (b : Z) : Z :=
  match a with
  | Some n => if n =? 0 then b else n
  | None => b
  end.

(** [a || b] on a nullable decimal column: the driver returns such a column
    as a string ["d.cc"], which is never empty, so only null is falsy (in
    particular ["0.00"] is truthy). *)
Definition or_decimal (a : option Z) (b : Z) : Z :=
  match a with
  | Some c => c
  | None => b
  end.

End JS.


(* ------------------------------------------------------------------ *)
(** ** The tables

    The drizzle schema of [tenants], [emailOverageInvoices],
    [smsOverageInvoices] and [emailUsageLogs] is read off the columns the code
    uses.  A nullable column is an [option].  A DECIMAL column (rates, charges
    and amounts, all written by the code with [toFixed(2)]) has two fraction
    digits; the driver hands it over as a string ["d.cc"], and it is held
    here as its number of hundredths.  A table is the list of its rows, in
    the order in which [findFirst] and [limit(1)] meet them. *)

Record Tenant : Type := mkTenant
  { tenant_id : string;
    tenant_name : string;
    subscriptionPlan : option string;
    emailMonthlyLimit : option Z;
    emailsSentThisMonth : option Z;
    emailOverageRate : option Z;
    emailOverageCharge : option Z;
    currentMonthStart : option JS.Date;
    tenant_vatRate : option Z;
    tenant_currency : option string }.

Inductive InvoiceStatus : Type := pending | paid | failed | cancelled.

Record Invoice : Type := mkInvoice
  { invoice_id : Z;
    invoice_tenantId : string;
    invoiceNumber : string;
    billingPeriodStart : string;
    billingPeriodEnd : string;
    emailsOverLimit : Z;
    overageRate : Z;
    subtotal : Z;
    vatRate : Z;
    vatAmount : Z;
    totalAmount : Z;
    currency : string;
    status : InvoiceStatus;
    dueDate : string;
    stripeInvoiceId : option string;
    stripePaymentIntentId : option string;
    paidAt : option JS.Date }.

Record SmsInvoice : Type := mkSmsInvoice
  { sms_id : Z;
    sms_invoiceNumber : string;
    sms_stripeInvoiceId : option string;
    sms_status : InvoiceStatus;
    sms_paidAt : option JS.Date }.

Record EmailUsageLog : Type := mkEmailUsageLog
  { log_tenantId : string;
    log_emailType : string;
    log_recipientEmail : string;
    log_subject : string;
    log_status : string;
    log_isOverage : bool;
    log_overageCost : Z }.

Inductive ConsoleLevel : Type := console_log | console_warn | console_error.

(** The database the handle of [getDb()] gives access to, and the console. *)
Record World : Type := mkWorld
  { database_available : bool;
    tenants : list Tenant;
    emailOverageInvoices : list Invoice;
    emailOverageInvoices_nextId : Z;
    smsOverageInvoices : list SmsInvoice;
    emailUsageLogs : list EmailUsageLog;
    console : list (ConsoleLevel * string) }.

Inductive TRPCCode : Type :=
  INTERNAL_SERVER_ERROR | NOT_FOUND | CONFLICT | BAD_REQUEST.

(** What a procedure throws. *)
Inductive Error : Type :=
| TRPCError (code : TRPCCode) (message : string)
| JsError (message : string).

(** [eq(column, v)] on a nullable column: NULL equals nothing. *)
Definition eq_nullable (col : option string) (v : string) : bool :=
  match col with
  | Some s => String.eqb s v
  | None => false
  end.

(* ------------------------------------------------------------------ *)
(** ** Procedures: finite trees of awaited statements

    A request handler is an [async] function: it runs without interruption
    up to its next [await], where the statement it awaits is executed on the
    shared database, and other requests may run before it continues.
    [Await stmt k] is such a point: [stmt] is the awaited statement, [k] the
    rest of the handler, given what the statement returns. *)

Inductive Proc (A : Type) : Type :=
| Return (a : A)
| Throw (e : Error)
| Await {X : Type} (stmt : World -> X * World) (k : X -> Proc A).

Arguments Return {A} a.
Arguments Throw {A} e.
Arguments Await {A X} stmt k.

Fixpoint bind {A B : Type} (p : Proc A) (f : A -> Proc B) : Proc B :=
  match p with
  | Return a => f a
  | Throw e => Throw e
  | Await stmt k => Await stmt (fun x => bind (k x) f)
  end.

Definition await {X : Type} (stmt : World -> X * World) : Proc X :=
  Await stmt Return.

(** [try { p } catch (error) { handler error }] *)
Fixpoint try_catch {A : Type} (p : Proc A) (handler : Error -> Proc A) : Proc A :=
  match p with
  | Return a => Return a
  | Throw e => handler e
  | Await stmt k => Await stmt (fun x => try_catch (k x) handler)
  end.

Notation "x <- c ;; k" := (bind c (fun x => k))
  (at level 61, c at next level, right associativity).
Notation "c ;;; k" := (bind c (fun _ => k))
  (at level 61, right associativity).

(** Running one request alone, from start to end. *)
Module Run.

Fixpoint run {A : Type} (p : Proc A) (w : World) : (Error + A) * World :=
  match p with
  | Return a => (inr a, w)
  | Throw e => (inl e, w)
  | Await stmt k => let (x, w') := stmt w in run (k x) w'
  end.

Definition result {A : Type} (p : Proc A) (w : World) : Error + A := fst (run p w).
Definition after {A : Type} (p : Proc A) (w : World) : World := snd (run p w).

End Run.

(** Requests served together: a step runs the next statement of one of them. *)
Module Pool.

Definition step1 {A : Type} (p : Proc A) (w : World) : Proc A * World :=
  match p with
  | Await stmt k => let (x, w') := stmt w in (k x, w')
  | _ => (p, w)
  end.

Definition finished {A : Type} (p : Proc A) : bool :=
  match p with
  | Await _ _ => false
  | _ => true
  end.

Fixpoint step_at {A : Type} (i : nat) (ps : list (Proc A)) (w : World)
  : list (Proc A) * World :=
  match ps with
  | [] => ([], w)
  | p :: ps' =>
      match i with
      | O => let (p', w') := step1 p w in (p' :: ps', w')
      | S i' => let (ps'', w') := step_at i' ps' w in (p :: ps'', w')
      end
  end.

(** A schedule names, step after step, the request that moves. *)
Fixpoint exec {A : Type} (schedule : list nat) (ps : list (Proc A)) (w : World)
  : list (Proc A) * World :=
  match schedule with
  | [] => (ps, w)
  | i :: rest => let (ps', w') := step_at i ps w in exec rest ps' w'
  end.

Definition all_finished {A : Type} (ps : list (Proc A)) : bool :=
  forallb finished ps.

End Pool.

(* ------------------------------------------------------------------ *)
(** ** The statements *)

Module Db.

Definition set_tenants (w : World) (ts : list Tenant) : World :=
  mkWorld (database_available w) ts (emailOverageInvoices w)
          (emailOverageInvoices_nextId w) (smsOverageInvoices w)
          (emailUsageLogs w) (console w).

Definition set_emailOverageInvoices (w : World) (l : list Invoice) (next : Z) : World :=
  mkWorld (database_available w) (tenants w) l next (smsOverageInvoices w)
          (emailUsageLogs w) (console w).

Definition set_smsOverageInvoices (w : World) (l : list SmsInvoice) : World :=
  mkWorld (database_available w) (tenants w) (emailOverageInvoices w)
          (emailOverageInvoices_nextId w) l (emailUsageLogs w) (console w).

Definition set_emailUsageLogs (w : World) (l : list EmailUsageLog) : World :=
  mkWorld (database_available w) (tenants w) (emailOverageInvoices w)
          (emailOverageInvoices_nextId w) (smsOverageInvoices w) l (console w).

Definition set_console (w : World) (l : list (ConsoleLevel * string)) : World :=
  mkWorld (database_available w) (tenants w) (emailOverageInvoices w)
          (emailOverageInvoices_nextId w) (smsOverageInvoices w)
          (emailUsageLogs w) l.

(** [UPDATE ... SET ... WHERE cond]: every row that satisfies [cond]. *)
Definition update_where {R : Type} (cond : R -> bool) (set : R -> R) (rows : list R)
  : list R :=
  map (fun r => if cond r then set r else r) rows.

(** [getDb()]: the handle, or null when no database is configured. *)
Definition getDb : Proc bool :=
  await (fun w => (database_available w, w)).

(** [console.log], [console.warn], [console.error]: a line on the console.
    (The code does not await it; it is a step of its own here, which touches
    nothing but the console.) *)
Definition console_write (level : ConsoleLevel) (message : string) : Proc unit :=
  await (fun w => (tt, set_console w (console w ++ [(level, message)]))).

(** [query.tenants.findFirst({ where: eq(tenants.id, id) })] *)
Definition tenants_findFirst (id : string) : Proc (option Tenant) :=
  await (fun w => (find (fun t => String.eqb (tenant_id t) id) (tenants w), w)).

(** [update(tenants).set(...).where(eq(tenants.id, id))] *)
Definition tenants_update (id : string) (set : Tenant -> Tenant) : Proc unit :=
  await (fun w =>
    (tt, set_tenants w
           (update_where (fun t => String.eqb (tenant_id t) id) set (tenants w)))).

(** [query.emailOverageInvoices.findFirst({ where })], and
    [select().from(emailOverageInvoices).where(...).limit(1)] *)
Definition emailOverageInvoices_findFirst (where_ : Invoice -> bool)
  : Proc (option Invoice) :=
  await (fun w => (find where_ (emailOverageInvoices w), w)).

(** [update(emailOverageInvoices).set(...).where(eq(emailOverageInvoices.id, id))] *)
Definition emailOverageInvoices_update (id : Z) (set : Invoice -> Invoice) : Proc unit :=
  await (fun w =>
    (tt, set_emailOverageInvoices w
           (update_where (fun i => invoice_id i =? id) set (emailOverageInvoices w))
           (emailOverageInvoices_nextId w))).

(** [insert(emailOverageInvoices).values(...).$returningId()]: the row gets
    the next value of the auto-increment key. *)
Definition emailOverageInvoices_insert (values : Z -> Invoice) : Proc Z :=
  await (fun w =>
    let id := emailOverageInvoices_nextId w in
    (id, set_emailOverageInvoices w (emailOverageInvoices w ++ [values id]) (id + 1))).

Definition smsOverageInvoices_findFirst (where_ : SmsInvoice -> bool)
  : Proc (option SmsInvoice) :=
  await (fun w => (find where_ (smsOverageInvoices w), w)).

Definition smsOverageInvoices_update (id : Z) (set : SmsInvoice -> SmsInvoice)
  : Proc unit :=
  await (fun w =>
    (tt, set_smsOverageInvoices w
           (update_where (fun i => sms_id i =? id) set (smsOverageInvoices w)))).

(** [insert(emailUsageLogs).values(...)] *)
Definition emailUsageLogs_insert (row : EmailUsageLog) : Proc unit :=
  await (fun w => (tt, set_emailUsageLogs w (emailUsageLogs w ++ [row]))).

End Db.

(* ------------------------------------------------------------------ *)
(** ** server/emailLimits.ts *)

Module EmailLimits.

Record UsageView : Type := mkUsageView
  { view_limit : Z;
    view_used : Z;
    view_remaining : Z;
    view_overageCount : Z;
    view_overageCharge : float;
    view_overageRate : float;
    view_subscriptionPlan : string;
    view_percentUsed : Z }.

Definition monthsDiff (now currentMonthStart : JS.Date) : Z :=
  (JS.getFullYear now - JS.getFullYear currentMonthStart) * 12
  + (JS.getMonth now - JS.getMonth currentMonthStart).

Definition needsReset (now : JS.Date) (tenant : Tenant) : bool :=
  match currentMonthStart tenant with
  | None => true
  | Some start => 1 <=? monthsDiff now start
  end.

(** The [set] of the reset in [getUsage]. *)
Definition reset_month (now : JS.Date) (t : Tenant) : Tenant :=
  mkTenant (tenant_id t) (tenant_name t) (subscriptionPlan t) (emailMonthlyLimit t)
           (Some 0) (emailOverageRate t) (Some 0)
           (Some (JS.Date_firstOfMonth now)) (tenant_vatRate t) (tenant_currency t).

(** [limit > 0 ? Math.round((used / limit) * 100) : 0] *)
Definition percent (used limit : Z) : Z :=
  if 0 <? limit
  then JS.Math_round (JS.Number_ofZ used / JS.Number_ofZ limit * 100)%float
  else 0.

(** The view of a tenant whose counter is of the current month. *)
Definition usage_view (tenant : Tenant) : UsageView :=
  let used := JS.or_int (emailsSentThisMonth tenant) 0 in
  let limit := JS.or_int (emailMonthlyLimit tenant) 500 in
  let remaining := JS.Math_max 0 (limit - used) in
  let overageCount := JS.Math_max 0 (used - limit) in
  let overageCharge := JS.parseFloat2 (JS.or_decimal (emailOverageCharge tenant) 0) in
  let overageRate := JS.parseFloat2 (JS.or_decimal (emailOverageRate tenant) 10) in
  let percentUsed := percent used limit in
  mkUsageView limit used remaining overageCount overageCharge overageRate
              (JS.or_string (subscriptionPlan tenant) "basic") percentUsed.

(** The view returned right after a reset. *)
Definition reset_view (tenant : Tenant) : UsageView :=
  mkUsageView (JS.or_int (emailMonthlyLimit tenant) 500) 0
              (JS.or_int (emailMonthlyLimit tenant) 500) 0 0%float
              (JS.parseFloat2 (JS.or_decimal (emailOverageRate tenant) 10))
              (JS.or_string (subscriptionPlan tenant) "basic") 0.

(** [getUsage], for the signed-in user's tenant, at wall-clock time [now]. *)
Definition getUsage (now : JS.Date) (tenantId : string) : Proc UsageView :=
  dbInstance <- Db.getDb ;;
  if negb dbInstance
  then Throw (TRPCError INTERNAL_SERVER_ERROR "Database not available")
  else
    tenant <- Db.tenants_findFirst tenantId ;;
    match tenant with
    | None => Throw (TRPCError NOT_FOUND "Tenant not found")
    | Some tenant =>
        if needsReset now tenant
        then
          Db.tenants_update tenantId (reset_month now) ;;;
          Return (reset_view tenant)
        else Return (usage_view tenant)
    end.

Record TrackInput : Type := mkTrackInput
  { emailType : string;
    recipientEmail : string;
    subject : option string }.

Record TrackResult : Type := mkTrackResult
  { track_success : bool;
    track_isOverage : bool;
    track_overageCost : float;
    track_totalUsed : Z;
    track_remaining : Z }.

(** What [trackEmailSend] computes from the row it has read. *)
Definition track_used (tenant : Tenant) : Z :=
  JS.or_int (emailsSentThisMonth tenant) 0 + 1.

Definition track_limit (tenant : Tenant) : Z :=
  JS.or_int (emailMonthlyLimit tenant) 500.

Definition track_isOverage_of (tenant : Tenant) : bool :=
  track_limit tenant <? track_used tenant.

Definition track_overageCost_of (tenant : Tenant) : float :=
  if track_isOverage_of tenant
  then JS.parseFloat2 (JS.or_decimal (emailOverageRate tenant) 10)
  else 0%float.

Definition track_totalOverageCharge (tenant : Tenant) : float :=
  (JS.parseFloat2 (JS.or_decimal (emailOverageCharge tenant) 0)
   + track_overageCost_of tenant)%float.

(** The [set] of the counter update: the values computed from the row that
    was read, whatever the row holds by now. *)
Definition track_set (tenant : Tenant) (t : Tenant) : Tenant :=
  mkTenant (tenant_id t) (tenant_name t) (subscriptionPlan t) (emailMonthlyLimit t)
           (Some (track_used tenant)) (emailOverageRate t)
           (Some (JS.toFixed2 (track_totalOverageCharge tenant)))
           (currentMonthStart t) (tenant_vatRate t) (tenant_currency t).

Definition track_log (tenantId : string) (input : TrackInput) (tenant : Tenant)
  : EmailUsageLog :=
  mkEmailUsageLog tenantId (emailType input) (recipientEmail input)
                  (JS.or_string (subject input) "") "sent"
                  (track_isOverage_of tenant)
                  (JS.toFixed2 (track_overageCost_of tenant)).

Definition track_result (tenant : Tenant) : TrackResult :=
  mkTrackResult true (track_isOverage_of tenant) (track_overageCost_of tenant)
                (track_used tenant)
                (JS.Math_max 0 (track_limit tenant - track_used tenant)).

Section Schema.

(** zod's test behind [z.string().email()], a function of the library:
    [None] for a string that passes, and for one that fails the message of
    the [ZodError] that reports it. *)
Variable z_email : string -> option string.

(** The schema of [trackEmailSend]:
    [z.object({ emailType: z.string(), recipientEmail: z.string().email(),
                subject: z.string().optional() })].
    Every [TrackInput] has the three fields at their types; what is left to
    test is the address. *)
Definition input_issue (input : TrackInput) : option string :=
  z_email (recipientEmail input).

Definition input_accepted (input : TrackInput) : bool :=
  match input_issue input with
  | None => true
  | Some _ => false
  end.

(** [trackEmailSend], for the signed-in user's tenant.  The input is parsed
    by the schema before the handler runs; an input that fails is answered
    with BAD_REQUEST, the message being that of the [ZodError]. *)
Definition trackEmailSend (tenantId : string) (input : TrackInput) : Proc TrackResult :=
  match input_issue input with
  | Some message => Throw (TRPCError BAD_REQUEST message)
  | None =>
      dbInstance <- Db.getDb ;;
      if negb dbInstance
      then Throw (TRPCError INTERNAL_SERVER_ERROR "Database not available")
      else
        tenant <- Db.tenants_findFirst tenantId ;;
        match tenant with
        | None => Throw (TRPCError NOT_FOUND "Tenant not found")
        | Some tenant =>
            Db.tenants_update tenantId (track_set tenant) ;;;
            Db.emailUsageLogs_insert (track_log tenantId input tenant) ;;;
            Return (track_result tenant)
        end
  end.

End Schema.

(** One row of [getAllTenantsUsage]: the columns that [findMany] selects,
    with the charge parsed and [percentUsed] added. *)
Record TenantUsageRow : Type := mkTenantUsageRow
  { row_id : string;
    row_name : string;
    row_subscriptionPlan : option string;
    row_emailMonthlyLimit : option Z;
    row_emailsSentThisMonth : option Z;
    row_emailOverageCharge : float;
    row_currentMonthStart : option JS.Date;
    row_percentUsed : Z }.

Definition tenant_usage_row (tenant : Tenant) : TenantUsageRow :=
  mkTenantUsageRow
    (tenant_id tenant) (tenant_name tenant) (subscriptionPlan tenant)
    (emailMonthlyLimit tenant) (emailsSentThisMonth tenant)
    (JS.parseFloat2 (JS.or_decimal (emailOverageCharge tenant) 0))
    (currentMonthStart tenant)
    (match emailMonthlyLimit tenant with
     | Some limit =>
         if limit =? 0 then 0
         else JS.Math_round
                (JS.Number_ofZ (JS.or_int (emailsSentThisMonth tenant) 0)
                 / JS.Number_ofZ limit * 100)%float
     | None => 0
     end).

Definition getAllTenantsUsage : Proc (list TenantUsageRow) :=
  dbInstance <- Db.getDb ;;
  if negb dbInstance
  then Throw (TRPCError INTERNAL_SERVER_ERROR "Database not available")
  else
    allTenants <- await (fun w => (tenants w, w)) ;;
    Return (map tenant_usage_row allTenants).

End EmailLimits.

(* ------------------------------------------------------------------ *)
(** ** server/emailOverageBilling.ts *)

Module EmailOverageBilling.

Section Host.

(** The host's [Date] and string functions the code calls. *)
Variable Date_parse : string -> JS.Date.            (* new Date(isoString) *)
Variable Date_plusDays : JS.Date -> Z -> JS.Date.   (* d.setDate(d.getDate() + n) *)
(** [d.toISOString().split('T')[0]]; [toISOString] throws a RangeError on an
    invalid date, which is [None] here. *)
Variable Date_toISODate : JS.Date -> option string.
Variable toUpperCase : string -> string.

Definition generateInvoiceNumber (tenantId : string) (date : JS.Date) : string :=
  let year := JS.Number_toString (JS.getFullYear date) in
  let month := JS.padStart2 (JS.Number_toString (JS.getMonth date + 1)) in
  let shortId := toUpperCase (String.substring 0 8 tenantId) in
  ("INV-" ++ year ++ month ++ "-" ++ shortId)%string.

Record GenerateInput : Type := mkGenerateInput
  { in_tenantId : string;
    in_billingPeriodStart : string;
    in_billingPeriodEnd : string }.

Record GenerateResult : Type := mkGenerateResult
  { gen_success : bool;
    gen_invoiceId : Z;
    gen_invoiceNumber : string;
    gen_totalAmount : Z }.

(** The [where] of the look-up of an invoice of the same period. *)
Definition same_period (input : GenerateInput) (i : Invoice) : bool :=
  String.eqb (invoice_tenantId i) (in_tenantId input)
  && String.eqb (billingPeriodStart i) (in_billingPeriodStart input)
  && String.eqb (billingPeriodEnd i) (in_billingPeriodEnd input).

Definition emailsOverLimit_of (tenant : Tenant) : Z :=
  JS.Math_max 0 (JS.or_int (emailsSentThisMonth tenant) 0
                 - JS.or_int (emailMonthlyLimit tenant) 500).

(** The amounts of the invoice, as doubles. *)
Definition overageRate_of (tenant : Tenant) : float :=
  JS.parseFloat2 (JS.or_decimal (emailOverageRate tenant) 10).

Definition subtotal_of (tenant : Tenant) : float :=
  (JS.Number_ofZ (emailsOverLimit_of tenant) * overageRate_of tenant)%float.

Definition vatRate_of (tenant : Tenant) : float :=
  JS.parseFloat2 (JS.or_decimal (tenant_vatRate tenant) 2500).

Definition vatAmount_of (tenant : Tenant) : float :=
  ((subtotal_of tenant * vatRate_of tenant) / 100)%float.

Definition totalAmount_of (tenant : Tenant) : float :=
  (subtotal_of tenant + vatAmount_of tenant)%float.

(** The row that [generateMonthlyInvoice] inserts. *)
Definition new_invoice (input : GenerateInput) (tenant : Tenant) (dueDate : string)
           (id : Z) : Invoice :=
  mkInvoice id (in_tenantId input)
    (generateInvoiceNumber (in_tenantId input) (Date_parse (in_billingPeriodEnd input)))
    (in_billingPeriodStart input) (in_billingPeriodEnd input)
    (emailsOverLimit_of tenant)
    (JS.toFixed2 (overageRate_of tenant))
    (JS.toFixed2 (subtotal_of tenant))
    (JS.toFixed2 (vatRate_of tenant))
    (JS.toFixed2 (vatAmount_of tenant))
    (JS.toFixed2 (totalAmount_of tenant))
    (JS.or_string (tenant_currency tenant) "NOK")
    pending
    dueDate
    None None None.

Definition generateMonthlyInvoice (input : GenerateInput) : Proc GenerateResult :=
  dbInstance <- Db.getDb ;;
  if negb dbInstance
  then Throw (TRPCError INTERNAL_SERVER_ERROR "Database not available")
  else
    tenant <- Db.tenants_findFirst (in_tenantId input) ;;
    match tenant with
    | None => Throw (TRPCError NOT_FOUND "Tenant not found")
    | Some tenant =>
        existingInvoice <- Db.emailOverageInvoices_findFirst (same_period input) ;;
        match existingInvoice with
        | Some _ => Throw (TRPCError CONFLICT "Invoice already exists for this period")
        | None =>
            if emailsOverLimit_of tenant =? 0
            then Throw (TRPCError BAD_REQUEST "No overage to bill")
            else
              match Date_toISODate
                      (Date_plusDays (Date_parse (in_billingPeriodEnd input)) 30) with
              | None => Throw (JsError "RangeError: Invalid time value")
              | Some dueDate =>
                  id <- Db.emailOverageInvoices_insert
                          (new_invoice input tenant dueDate) ;;
                  Return (mkGenerateResult true id
                            (generateInvoiceNumber (in_tenantId input)
                               (Date_parse (in_billingPeriodEnd input)))
                            (JS.toFixed2 (totalAmount_of tenant)))
              end
        end
    end.

(** The input of the [handleStripeWebhook] procedure:
    [status: z.enum(["paid", "failed"])], [paidAt: z.string().optional()]. *)
Inductive WebhookStatus : Type := status_paid | status_failed.

Definition to_status (s : WebhookStatus) : InvoiceStatus :=
  match s with
  | status_paid => paid
  | status_failed => failed
  end.

Record WebhookInput : Type := mkWebhookInput
  { in_stripeInvoiceId : string;
    in_status : WebhookStatus;
    in_paidAt : option string }.

(** [input.paidAt ? new Date(input.paidAt) : null] *)
Definition paidAt_of (input : WebhookInput) : option JS.Date :=
  match in_paidAt input with
  | Some s => if String.eqb s "" then None else Some (Date_parse s)
  | None => None
  end.

Definition set_status (input : WebhookInput) (i : Invoice) : Invoice :=
  mkInvoice (invoice_id i) (invoice_tenantId i) (invoiceNumber i)
    (billingPeriodStart i) (billingPeriodEnd i) (emailsOverLimit i) (overageRate i)
    (subtotal i) (vatRate i) (vatAmount i) (totalAmount i) (currency i)
    (to_status (in_status input)) (dueDate i) (stripeInvoiceId i)
    (stripePaymentIntentId i) (paidAt_of input).

Definition reset_overage_charge (t : Tenant) : Tenant :=
  mkTenant (tenant_id t) (tenant_name t) (subscriptionPlan t) (emailMonthlyLimit t)
           (emailsSentThisMonth t) (emailOverageRate t) (Some 0)
           (currentMonthStart t) (tenant_vatRate t) (tenant_currency t).

Definition handleStripeWebhook (input : WebhookInput) : Proc bool :=
  dbInstance <- Db.getDb ;;
  if negb dbInstance
  then Throw (TRPCError INTERNAL_SERVER_ERROR "Database not available")
  else
    invoice <- Db.emailOverageInvoices_findFirst
                 (fun i => eq_nullable (stripeInvoiceId i) (in_stripeInvoiceId input)) ;;
    match invoice with
    | None => Throw (TRPCError NOT_FOUND "Invoice not found")
    | Some invoice =>
        Db.emailOverageInvoices_update (invoice_id invoice) (set_status input) ;;;
        (match in_status input with
         | status_paid =>
             Db.tenants_update (invoice_tenantId invoice) reset_overage_charge
         | status_failed => Return tt
         end) ;;;
        Return true
    end.

End Host.

End EmailOverageBilling.

(* ------------------------------------------------------------------ *)
(** ** server/stripeWebhook.ts *)

Module StripeWebhook.

Section Host.

Variable Date_ofEpochMs : Z -> JS.Date.   (* new Date(ms) *)

(** The object behind [invoice.status_transition], when the invoice has
    one: its [paid_at], seconds since the epoch or [null]. *)
Record StatusTransition : Type := mkStatusTransition
  { paid_at : option Z }.

(** The properties of the event's [data.object] that the handlers read: [id],
    [status_transition] and [payment_intent], as the code names them.  The
    object is what the event carries, cast to [Stripe.Invoice] unchecked; a
    property it does not have reads as [undefined], which is [None] here.
    Stripe names the transitions of an invoice [status_transitions], so the
    invoices Stripe sends have no [status_transition]. *)
Record StripeInvoice : Type := mkStripeInvoice
  { stripe_id : string;
    status_transition : option StatusTransition;
    payment_intent : option string }.

(** A [Stripe.Event]: its [type] and its [data.object]. *)
Record StripeEvent : Type := mkStripeEvent
  { event_type : string;
    event_object : StripeInvoice }.

(** What a handler returns, [null] being [None]. *)
Inductive Handled : Type :=
| handled_invoice (type invoiceNumber : string)
| handled_subscription (event : string).

(** [invoice.status_transition.paid_at]: reading a property of [undefined]
    throws. *)
Definition TypeError_paid_at : Error :=
  JsError "TypeError: Cannot read properties of undefined (reading 'paid_at')".

(** [new Date(transition.paid_at! * 1000)], for the object [transition] that
    [invoice.status_transition] gave; [null * 1000] is 0. *)
Definition paidAt_of (transition : StatusTransition) : JS.Date :=
  Date_ofEpochMs (match paid_at transition with Some s => s * 1000 | None => 0 end).

(** [invoice.payment_intent as string || null] *)
Definition paymentIntent_of (invoice : StripeInvoice) : option string :=
  match payment_intent invoice with
  | Some s => if String.eqb s "" then None else Some s
  | None => None
  end.

Definition set_email_paid (invoice : StripeInvoice) (paidAt_ : JS.Date) (i : Invoice)
  : Invoice :=
  mkInvoice (invoice_id i) (invoice_tenantId i) (invoiceNumber i)
    (billingPeriodStart i) (billingPeriodEnd i) (emailsOverLimit i) (overageRate i)
    (subtotal i) (vatRate i) (vatAmount i) (totalAmount i) (currency i)
    paid (dueDate i) (stripeInvoiceId i)
    (paymentIntent_of invoice) (Some paidAt_).

Definition set_email_failed (i : Invoice) : Invoice :=
  mkInvoice (invoice_id i) (invoice_tenantId i) (invoiceNumber i)
    (billingPeriodStart i) (billingPeriodEnd i) (emailsOverLimit i) (overageRate i)
    (subtotal i) (vatRate i) (vatAmount i) (totalAmount i) (currency i)
    failed (dueDate i) (stripeInvoiceId i)
    (stripePaymentIntentId i) (paidAt i).

Definition set_sms_paid (paidAt_ : JS.Date) (i : SmsInvoice) : SmsInvoice :=
  mkSmsInvoice (sms_id i) (sms_invoiceNumber i) (sms_stripeInvoiceId i)
               paid (Some paidAt_).

Definition set_sms_failed (i : SmsInvoice) : SmsInvoice :=
  mkSmsInvoice (sms_id i) (sms_invoiceNumber i) (sms_stripeInvoiceId i)
               failed (sms_paidAt i).

Definition handleInvoicePaymentSucceeded (invoice : StripeInvoice)
  : Proc (option Handled) :=
  dbInstance <- Db.getDb ;;
  if negb dbInstance
  then Throw (JsError "Database not available")
  else
    let stripeInvoiceId_ := stripe_id invoice in
    match status_transition invoice with
    | None => Throw TypeError_paid_at
    | Some transition =>
        let paidAt_ := paidAt_of transition in
        emailInvoice <- Db.emailOverageInvoices_findFirst
                          (fun i => eq_nullable (stripeInvoiceId i) stripeInvoiceId_) ;;
        match emailInvoice with
        | Some emailInvoice =>
            Db.emailOverageInvoices_update (invoice_id emailInvoice)
                                           (set_email_paid invoice paidAt_) ;;;
            Db.console_write console_log
              ("✅ Email overage invoice " ++ invoiceNumber emailInvoice
               ++ " marked as paid") ;;;
            Return (Some (handled_invoice "email" (invoiceNumber emailInvoice)))
        | None =>
            smsInvoice <- Db.smsOverageInvoices_findFirst
                            (fun i => eq_nullable (sms_stripeInvoiceId i)
                                                  stripeInvoiceId_) ;;
            match smsInvoice with
            | Some smsInvoice =>
                Db.smsOverageInvoices_update (sms_id smsInvoice)
                                             (set_sms_paid paidAt_) ;;;
                Db.console_write console_log
                  ("✅ SMS overage invoice " ++ sms_invoiceNumber smsInvoice
                   ++ " marked as paid") ;;;
                Return (Some (handled_invoice "sms" (sms_invoiceNumber smsInvoice)))
            | None =>
                Db.console_write console_warn
                  ("⚠️ No invoice found for Stripe invoice " ++ stripeInvoiceId_) ;;;
                Return None
            end
        end
    end.

Definition handleInvoicePaymentFailed (invoice : StripeInvoice)
  : Proc (option Handled) :=
  dbInstance <- Db.getDb ;;
  if negb dbInstance
  then Throw (JsError "Database not available")
  else
    let stripeInvoiceId_ := stripe_id invoice in
    emailInvoice <- Db.emailOverageInvoices_findFirst
                      (fun i => eq_nullable (stripeInvoiceId i) stripeInvoiceId_) ;;
    match emailInvoice with
    | Some emailInvoice =>
        Db.emailOverageInvoices_update (invoice_id emailInvoice) set_email_failed ;;;
        Db.console_write console_log
          ("❌ Email overage invoice " ++ invoiceNumber emailInvoice ++ " marked as failed") ;;;
        Return (Some (handled_invoice "email" (invoiceNumber emailInvoice)))
    | None =>
        smsInvoice <- Db.smsOverageInvoices_findFirst
                        (fun i => eq_nullable (sms_stripeInvoiceId i) stripeInvoiceId_) ;;
        match smsInvoice with
        | Some smsInvoice =>
            Db.smsOverageInvoices_update (sms_id smsInvoice) set_sms_failed ;;;
            Db.console_write console_log
              ("❌ SMS overage invoice " ++ sms_invoiceNumber smsInvoice ++ " marked as failed") ;;;
            Return (Some (handled_invoice "sms" (sms_invoiceNumber smsInvoice)))
        | None =>
            Db.console_write console_warn
              ("⚠️ No invoice found for Stripe invoice " ++ stripeInvoiceId_) ;;;
            Return None
        end
    end.

Definition handleStripeWebhook (event : StripeEvent) : Proc (option Handled) :=
  Db.console_write console_log ("📨 Received Stripe webhook: " ++ event_type event) ;;;
  try_catch
    (if String.eqb (event_type event) "invoice.payment_succeeded"
     then handleInvoicePaymentSucceeded (event_object event)
     else if String.eqb (event_type event) "invoice.payment_failed"
     then handleInvoicePaymentFailed (event_object event)
     else if String.eqb (event_type event) "customer.subscription.created"
             || String.eqb (event_type event) "customer.subscription.updated"
             || String.eqb (event_type event) "customer.subscription.deleted"
     then
       Db.console_write console_log
         ("ℹ️ Subscription event received: " ++ event_type event) ;;;
       Return (Some (handled_subscription (event_type event)))
     else
       Db.console_write console_log ("ℹ️ Unhandled event type: " ++ event_type event) ;;;
       Return None)
    (fun error =>
       Db.console_write console_error
         ("❌ Error handling webhook event " ++ event_type event ++ ":") ;;;
       Throw error).

End Host.

End StripeWebhook.

(* ------------------------------------------------------------------ *)
(** ** Vocabulary of the properties *)

(** The row that [findFirst] returns for a tenant id. *)
Definition find_tenant (id : string) (w : World) : option Tenant :=
  find (fun t => String.eqb (tenant_id t) id) (tenants w).

(** The invoice that a handler finds for a remote (Stripe) invoice id. *)
Definition find_invoice (remoteId : string) (w : World) : option Invoice :=
  find (fun i => eq_nullable (stripeInvoiceId i) remoteId) (emailOverageInvoices w).

Definition find_sms_invoice (remoteId : string) (w : World) : option SmsInvoice :=
  find (fun i => eq_nullable (sms_stripeInvoiceId i) remoteId) (smsOverageInvoices w).

(** The database without the console. *)
Definition tables (w : World) :=
  (database_available w, tenants w, emailOverageInvoices w,
   emailOverageInvoices_nextId w, smsOverageInvoices w, emailUsageLogs w).

(** The stored counter of a tenant, as [trackEmailSend] and [getUsage] read
    it: [tenant.emailsSentThisMonth || 0]. *)
Definition sent_of (t : Tenant) : Z := JS.or_int (emailsSentThisMonth t) 0.

(** What [generateMonthlyInvoice] throws on an invoice of the same period. *)
Definition conflict : Error :=
  TRPCError CONFLICT "Invoice already exists for this period".

(** What [handleStripeWebhook] of the billing router throws when no invoice
    has the remote id. *)
Definition invoice_not_found : Error := TRPCError NOT_FOUND "Invoice not found".

(** *** The billing period *)

(** [start] lies in a calendar month strictly before that of [now]. *)
Definition month_before (start now : JS.Date) : Prop :=
  JS.getFullYear start < JS.getFullYear now
  \/ (JS.getFullYear start = JS.getFullYear now /\ JS.getMonth start < JS.getMonth now).

Definition same_month (a b : JS.Date) : Prop :=
  JS.getFullYear a = JS.getFullYear b /\ JS.getMonth a = JS.getMonth b.

(** [getMonth()] is a month index. *)
Definition valid_month (d : JS.Date) : Prop := 0 <= JS.getMonth d <= 11.

(** The stored period start is absent or of an earlier month. *)
Definition stale (now : JS.Date) (tenant : Tenant) : Prop :=
  match currentMonthStart tenant with
  | None => True
  | Some start => valid_month start /\ month_before start now
  end.

(** *** The spec's arithmetic *)

(** The spec's [percentUsed]: [100 * used / limit] rounded half up to the
    nearest integer, in exact arithmetic, and 0 when the limit is 0. *)
Definition spec_percentUsed (used limit : Z) : Z :=
  if 0 <? limit then (200 * used + limit) / (2 * limit) else 0.

(** The spec's [taxAmount], in hundredths: [subtotal * taxRate / 100] rounded
    half up to two decimals, in exact arithmetic ([subtotal] and [taxRate]
    are given in hundredths). *)
Definition spec_taxAmount (subtotal taxRate : Z) : Z :=
  (2 * subtotal * taxRate + 10000) / 20000.

(** *** Defaults *)

(** A tenant row with its limit and rate written out: the configured value,
    or the default that the code substitutes for a falsy one. *)
Definition with_defaults (t : Tenant) : Tenant :=
  mkTenant (tenant_id t) (tenant_name t) (subscriptionPlan t)
           (Some (JS.or_int (emailMonthlyLimit t) 500))
           (emailsSentThisMonth t)
           (Some (JS.or_decimal (emailOverageRate t) 10))
           (emailOverageCharge t) (currentMonthStart t) (tenant_vatRate t)
           (tenant_currency t).

Definition explicit_defaults (w : World) : World :=
  mkWorld (database_available w) (map with_defaults (tenants w))
          (emailOverageInvoices w) (emailOverageInvoices_nextId w)
          (smsOverageInvoices w) (emailUsageLogs w) (console w).

(** Two stores that differ at most in how a limit of 500 and a rate of 0.10
    are configured: explicitly, or as null (or, for the limit, as 0). *)
Definition same_up_to_defaults (w w' : World) : Prop :=
  explicit_defaults w = explicit_defaults w'.

(** Running a procedure commutes with writing the defaults out. *)
Definition commutes_with_defaults {A : Type} (p : Proc A) : Prop :=
  forall w : World,
    Run.result p (explicit_defaults w) = Run.result p w
    /\ Run.after p (explicit_defaults w) = explicit_defaults (Run.after p w).

(** *** Payment-status events *)

(** The store after a Stripe webhook handler has found an email invoice,
    an SMS invoice, or none: the update and the line on the console. *)
Definition email_marked (set : Invoice -> Invoice) (line : string)
           (invoice : Invoice) (w : World) : World :=
  let w' := Db.set_emailOverageInvoices w
              (Db.update_where (fun i => invoice_id i =? invoice_id invoice) set
                               (emailOverageInvoices w))
              (emailOverageInvoices_nextId w) in
  Db.set_console w' (console w' ++ [(console_log, line)]).

Definition sms_marked (set : SmsInvoice -> SmsInvoice) (line : string)
           (invoice : SmsInvoice) (w : World) : World :=
  let w' := Db.set_smsOverageInvoices w
              (Db.update_where (fun i => sms_id i =? sms_id invoice) set
                               (smsOverageInvoices w)) in
  Db.set_console w' (console w' ++ [(console_log, line)]).

Definition none_found (remoteId : string) (w : World) : World :=
  Db.set_console w
    (console w
     ++ [(console_warn, "⚠️ No invoice found for Stripe invoice " ++ remoteId)]).

(** A payment-status event, delivered through the billing router's procedure
    or through the Stripe webhook handler. *)
Inductive Delivery : Type :=
| via_procedure (input : EmailOverageBilling.WebhookInput)
| via_webhook (event : StripeWebhook.StripeEvent).

Section Deliveries.

Variable Date_parse : string -> JS.Date.
Variable Date_ofEpochMs : Z -> JS.Date.

(** The store after the procedure has found [invoice]. *)
Definition procedure_effect (input : EmailOverageBilling.WebhookInput)
           (invoice : Invoice) (w : World) : World :=
  let w' := Db.set_emailOverageInvoices w
              (Db.update_where (fun i => invoice_id i =? invoice_id invoice)
                               (EmailOverageBilling.set_status Date_parse input)
                               (emailOverageInvoices w))
              (emailOverageInvoices_nextId w) in
  match EmailOverageBilling.in_status input with
  | EmailOverageBilling.status_paid =>
      Db.set_tenants w'
        (Db.update_where (fun t => String.eqb (tenant_id t) (invoice_tenantId invoice))
                         EmailOverageBilling.reset_overage_charge (tenants w'))
  | EmailOverageBilling.status_failed => w'
  end.

Definition deliver (d : Delivery) (w : World) : World :=
  match d with
  | via_procedure input =>
      Run.after (EmailOverageBilling.handleStripeWebhook Date_parse input) w
  | via_webhook event =>
      Run.after (StripeWebhook.handleStripeWebhook Date_ofEpochMs event) w
  end.

Fixpoint deliver_all (ds : list Delivery) (w : World) : World :=
  match ds with
  | [] => w
  | d :: rest => deliver_all rest (deliver d w)
  end.

End Deliveries.

(** What a payment-status event may do to an invoice row: the row keeps its
    key and its remote id, and its status stays or becomes paid or failed. *)
Definition status_step (before after_ : Invoice) : Prop :=
  invoice_id after_ = invoice_id before
  /\ stripeInvoiceId after_ = stripeInvoiceId before
  /\ (status after_ = status before \/ status after_ = paid \/ status after_ = failed).

(** A change of the invoice table that moves every row by a [status_step]. *)
Definition steps_invoices (w w' : World) : Prop :=
  exists f : Invoice -> Invoice,
    emailOverageInvoices w' = map f (emailOverageInvoices w)
    /\ forall r, status_step r (f r).

(** *** Requests served in turn, and together *)

(** Requests served one after the other, each to its end. *)
Definition serve_in_turn {A : Type} (ps : list (Proc A)) (w : World) : World :=
  fold_left (fun w p => Run.after p w) ps w.

(** Where a [trackEmailSend] request stands.

    Between two awaited statements a request is at one of these points; from
    [ph_read] on it holds the tenant row it has read. *)
Inductive Phase : Type :=
| ph_start
| ph_connected
| ph_read (snapshot : Tenant)
| ph_written (snapshot : Tenant)
| ph_done (snapshot : Tenant)
| ph_thrown (e : Error).

Section TrackPhases.

Variable z_email : string -> option string.
Variable tenantId : string.

Definition after_write (input : EmailLimits.TrackInput) (tenant : Tenant)
  : Proc EmailLimits.TrackResult :=
  Db.emailUsageLogs_insert (EmailLimits.track_log tenantId input tenant) ;;;
  Return (EmailLimits.track_result tenant).

Definition after_read (input : EmailLimits.TrackInput) (tenant : Tenant)
  : Proc EmailLimits.TrackResult :=
  Db.tenants_update tenantId (EmailLimits.track_set tenant) ;;;
  after_write input tenant.

Definition after_connect (input : EmailLimits.TrackInput)
  : Proc EmailLimits.TrackResult :=
  tenant <- Db.tenants_findFirst tenantId ;;
  match tenant with
  | None => Throw (TRPCError NOT_FOUND "Tenant not found")
  | Some tenant => after_read input tenant
  end.

(** The rest of the request at a phase. *)
Definition proc_at (request : EmailLimits.TrackInput * Phase)
  : Proc EmailLimits.TrackResult :=
  match snd request with
  | ph_start => EmailLimits.trackEmailSend z_email tenantId (fst request)
  | ph_connected => after_connect (fst request)
  | ph_read tenant => after_read (fst request) tenant
  | ph_written tenant => after_write (fst request) tenant
  | ph_done tenant => Return (EmailLimits.track_result tenant)
  | ph_thrown e => Throw e
  end.

(** One statement of the request, on phases. *)
Definition phase_step (request : EmailLimits.TrackInput * Phase) (w : World)
  : (EmailLimits.TrackInput * Phase) * World :=
  let input := fst request in
  match snd request with
  | ph_start =>
      match EmailLimits.input_issue z_email input with
      | Some message => ((input, ph_thrown (TRPCError BAD_REQUEST message)), w)
      | None =>
          if database_available w then ((input, ph_connected), w)
          else ((input,
                 ph_thrown (TRPCError INTERNAL_SERVER_ERROR "Database not available")),
                w)
      end
  | ph_connected =>
      match find_tenant tenantId w with
      | Some tenant => ((input, ph_read tenant), w)
      | None => ((input, ph_thrown (TRPCError NOT_FOUND "Tenant not found")), w)
      end
  | ph_read tenant =>
      ((input, ph_written tenant),
       Db.set_tenants w
         (Db.update_where (fun t => String.eqb (tenant_id t) tenantId)
                          (EmailLimits.track_set tenant) (tenants w)))
  | ph_written tenant =>
      ((input, ph_done tenant),
       Db.set_emailUsageLogs w
         (emailUsageLogs w ++ [EmailLimits.track_log tenantId input tenant]))
  | ph_done _ | ph_thrown _ => (request, w)
  end.

Fixpoint phase_step_at (i : nat) (requests : list (EmailLimits.TrackInput * Phase))
         (w : World) : list (EmailLimits.TrackInput * Phase) * World :=
  match requests with
  | [] => ([], w)
  | r :: rest =>
      match i with
      | O => let (r', w') := phase_step r w in (r' :: rest, w')
      | S i' => let (rest', w') := phase_step_at i' rest w in (r :: rest', w')
      end
  end.

Fixpoint phase_exec (schedule : list nat) (requests : list (EmailLimits.TrackInput * Phase))
         (w : World) : list (EmailLimits.TrackInput * Phase) * World :=
  match schedule with
  | [] => (requests, w)
  | i :: rest => let (requests', w') := phase_step_at i requests w in
                 phase_exec rest requests' w'
  end.

End TrackPhases.

(** The number of requests that have written the counter. *)
Definition has_written (ph : Phase) : Z :=
  match ph with
  | ph_written _ | ph_done _ => 1
  | _ => 0
  end.

Fixpoint writes (requests : list (EmailLimits.TrackInput * Phase)) : Z :=
  match requests with
  | [] => 0
  | r :: rest => has_written (snd r) + writes rest
  end.

(** The number of inputs that the schema of [trackEmailSend] accepts. *)
Definition accepted (z_email : string -> option string) (inputs : list EmailLimits.TrackInput)
  : Z :=
  Z.of_nat (List.length (filter (EmailLimits.input_accepted z_email) inputs)).

(** What holds of a request while [n] requests have written, the counter
    having been [prior] at the start: a request past its start has an input
    that the schema accepts, a row that was read holds a counter between
    [prior] and [prior + n], and the only thing thrown is the rejection of an
    input by the schema. *)
Definition phase_ok (z_email : string -> option string) (prior n : Z)
           (request : EmailLimits.TrackInput * Phase) : Prop :=
  match snd request with
  | ph_start => True
  | ph_read snapshot =>
      EmailLimits.input_accepted z_email (fst request) = true
      /\ prior <= sent_of snapshot <= prior + n
  | ph_thrown _ => EmailLimits.input_accepted z_email (fst request) = false
  | _ => EmailLimits.input_accepted z_email (fst request) = true
  end.

(** The invariant of a pool of [trackEmailSend] requests for one tenant. *)
Definition pool_inv (z_email : string -> option string) (tenantId : string) (prior : Z)
           (requests : list (EmailLimits.TrackInput * Phase)) (w : World) : Prop :=
  database_available w = true
  /\ (exists t, find_tenant tenantId w = Some t
                /\ prior <= sent_of t <= prior + writes requests
                /\ (1 <= writes requests -> prior + 1 <= sent_of t))
  /\ Forall (phase_ok z_email prior (writes requests)) requests.

(** *** Limits, overage and the usage ledger *)

(** The limit in force for a tenant: [tenant.emailMonthlyLimit || 500]. *)
Definition limit_of (t : Tenant) : Z := JS.or_int (emailMonthlyLimit t) 500.

(** The overage of a tenant as [getUsage] reports it:
    [Math.max(0, used - limit)]. *)
Definition overage_of (t : Tenant) : Z := Z.max 0 (sent_of t - limit_of t).

(** The rows of the usage ledger that were counted as overage. *)
Definition overage_rows (logs : list EmailUsageLog) : Z :=
  Z.of_nat (List.length (filter log_isOverage logs)).

(** The rows of the tenants other than [tenantId]. *)
Definition other_tenants (tenantId : string) (w : World) : list Tenant :=
  filter (fun t => negb (String.eqb (tenant_id t) tenantId)) (tenants w).

(** What a procedure for one tenant leaves alone: the rows of the other
    tenants, the keys of all, the invoice tables and the console. *)
Definition only_tenant_touched (tenantId : string) (w w' : World) : Prop :=
  database_available w' = database_available w
  /\ other_tenants tenantId w' = other_tenants tenantId w
  /\ map tenant_id (tenants w') = map tenant_id (tenants w)
  /\ emailOverageInvoices w' = emailOverageInvoices w
  /\ emailOverageInvoices_nextId w' = emailOverageInvoices_nextId w
  /\ smsOverageInvoices w' = smsOverageInvoices w
  /\ console w' = console w.

(* ------------------------------------------------------------------ *)
(** ** Sample data *)

Module Sample.

(** Stand-ins for the host's [toUpperCase] (on ASCII letters) and
    [new Date(...)]. *)
Definition upper_ascii (c : ascii) : ascii :=
  let n := nat_of_ascii c in
  if ((97 <=? n) && (n <=? 122))%nat then ascii_of_nat (n - 32) else c.

Fixpoint upper (s : string) : string :=
  match s with
  | EmptyString => EmptyString
  | String c rest => String (upper_ascii c) (upper rest)
  end.

Definition date_of_string (s : string) : JS.Date := JS.mkDate 2024 2 4 32400000.
Definition date_of_ms (ms : Z) : JS.Date := JS.mkDate 2024 2 4 (ms mod 86400000).

Definition first_of_february : JS.Date := JS.mkDate 2024 1 1 0.
Definition first_of_march : JS.Date := JS.mkDate 2024 2 1 0.
Definition mid_march : JS.Date := JS.mkDate 2024 2 15 36000000.
Definition late_march : JS.Date := JS.mkDate 2024 2 28 61200000.

(** A tenant on the default plan, 120 emails over its limit, whose counter
    is still that of February. *)
Definition salon : Tenant :=
  mkTenant "7f3c2a10-salon-nord" "Salon Nord" (Some "basic") (Some 500) (Some 620)
           (Some 10) (Some 1200) (Some first_of_february) (Some 2500) (Some "NOK").

Definition world : World :=
  mkWorld true [salon] [] 1 [] [] [].

(** The salon with a limit of 0 and no rate configured. *)
Definition salon_unconfigured : Tenant :=
  mkTenant "7f3c2a10-salon-nord" "Salon Nord" (Some "basic") (Some 0) (Some 620)
           None (Some 1200) (Some first_of_february) (Some 2500) (Some "NOK").

Definition world_unconfigured : World :=
  mkWorld true [salon_unconfigured] [] 1 [] [] [].

(** The salon with a limit of 0, everything else as configured. *)
Definition salon_limit_0 : Tenant :=
  mkTenant "7f3c2a10-salon-nord" "Salon Nord" (Some "basic") (Some 0) (Some 620)
           (Some 10) (Some 1200) (Some first_of_february) (Some 2500) (Some "NOK").

Definition world_limit_0 : World :=
  mkWorld true [salon_limit_0] [] 1 [] [] [].

(** A tenant on a plan of 1000 emails that has sent 145 this month. *)
Definition studio : Tenant :=
  mkTenant "a41d9e02-studio" "Studio Vest" (Some "pro") (Some 1000) (Some 145)
           (Some 10) (Some 0) (Some first_of_march) (Some 2500) (Some "NOK").

Definition world_studio : World :=
  mkWorld true [studio] [] 1 [] [] [].

(** A tenant 7 emails over the default limit, at 0.10 per email and 25% VAT. *)
Definition barber : Tenant :=
  mkTenant "c0ffee77-barber" "Barber Syd" (Some "basic") (Some 500) (Some 507)
           (Some 10) (Some 70) (Some first_of_march) (Some 2500) (Some "NOK").

Definition world_barber : World :=
  mkWorld true [barber] [] 1 [] [] [].

(** The February invoice of the salon and the March invoice of the barber
    are asked for. *)
Definition february_input : EmailOverageBilling.GenerateInput :=
  EmailOverageBilling.mkGenerateInput "7f3c2a10-salon-nord" "2024-02-01" "2024-02-29".

Definition generate_february : Proc EmailOverageBilling.GenerateResult :=
  EmailOverageBilling.generateMonthlyInvoice
    (fun _ => JS.mkDate 2024 1 29 0) (fun d _ => JS.mkDate 2024 2 30 0)
    (fun _ => Some "2024-03-30") upper february_input.

Definition world_invoiced : World := Run.after generate_february world.

Definition march_input : EmailOverageBilling.GenerateInput :=
  EmailOverageBilling.mkGenerateInput "c0ffee77-barber" "2024-03-01" "2024-03-31".

Definition generate_march : Proc EmailOverageBilling.GenerateResult :=
  EmailOverageBilling.generateMonthlyInvoice
    (fun _ => JS.mkDate 2024 2 31 0) (fun d _ => JS.mkDate 2024 3 30 0)
    (fun _ => Some "2024-04-30") upper march_input.

(** A stand-in for zod's test of an address: there is an [@] in it. *)
Fixpoint has_at (s : string) : bool :=
  match s with
  | EmptyString => false
  | String c rest => Ascii.eqb c "@" || has_at rest
  end.

Definition is_email (s : string) : option string :=
  if has_at s then None else Some "Invalid email".

(** Two sends for the salon, served together: both read the tenant row
    before either writes the counter. *)
Definition welcome : EmailLimits.TrackInput :=
  EmailLimits.mkTrackInput "welcome" "kari@example.no" (Some "Velkommen").

Definition reminder : EmailLimits.TrackInput :=
  EmailLimits.mkTrackInput "reminder" "ola@example.no" None.

Definition two_sends : list (Proc EmailLimits.TrackResult) :=
  [EmailLimits.trackEmailSend is_email "7f3c2a10-salon-nord" welcome;
   EmailLimits.trackEmailSend is_email "7f3c2a10-salon-nord" reminder].

Definition both_read_first : list nat := [0; 0; 1; 1; 0; 0; 1; 1]%nat.

(** The salon's February invoice, sent to Stripe and not yet paid. *)
Definition february_invoice : Invoice :=
  mkInvoice 1 "7f3c2a10-salon-nord" "INV-202402-7F3C2A10" "2024-02-01" "2024-02-29"
            120 10 1200 2500 300 1500 "NOK" pending "2024-03-30"
            (Some "in_1OqSalonNord") None None.

Definition world_billed : World :=
  mkWorld true [salon] [february_invoice] 2 [] [] [].

Definition paid_event : EmailOverageBilling.WebhookInput :=
  EmailOverageBilling.mkWebhookInput "in_1OqSalonNord" EmailOverageBilling.status_paid
                                     (Some "2024-03-04T09:00:00Z").

Definition failed_event : EmailOverageBilling.WebhookInput :=
  EmailOverageBilling.mkWebhookInput "in_1OqSalonNord" EmailOverageBilling.status_failed
                                     None.

Definition unknown_event : EmailOverageBilling.WebhookInput :=
  EmailOverageBilling.mkWebhookInput "in_unrelated" EmailOverageBilling.status_paid None.

(** The invoice objects of two events, as Stripe sends them: without a
    [status_transition]. *)
Definition stripe_invoice : StripeWebhook.StripeInvoice :=
  StripeWebhook.mkStripeInvoice "in_1OqSalonNord" None (Some "pi_3OqSalon").

Definition stripe_unknown : StripeWebhook.StripeInvoice :=
  StripeWebhook.mkStripeInvoice "in_unrelated" None None.

(** The invoice is paid; the salon then sends one more email over its
    limit; the same event is delivered once more. *)
Definition world_paid : World :=
  Run.after (EmailOverageBilling.handleStripeWebhook date_of_string paid_event)
            world_billed.

Definition world_paid_then_sent : World :=
  Run.after (EmailLimits.trackEmailSend is_email "7f3c2a10-salon-nord" welcome) world_paid.

Definition world_paid_again : World :=
  Run.after (EmailOverageBilling.handleStripeWebhook date_of_string paid_event)
            world_paid_then_sent.

(** The payment of the invoice fails. *)
Definition world_failed : World :=
  Run.after (EmailOverageBilling.handleStripeWebhook date_of_string failed_event)
            world_billed.

End Sample.

(* ================================================================== *)
(** * Properties *)

(** ** Running a procedure *)

Lemma run_bind {A B : Type} (p : Proc A) (f : A -> Proc B) (w : World) :
  Run.run (bind p f) w =
  match Run.run p w with
  | (inr a, w') => Run.run (f a) w'
  | (inl e, w') => (inl e, w')
  end.
Proof.
  revert w. induction p as [a | e | X stmt k IH]; intro w; simpl; try reflexivity.
  destruct (stmt w) as [x w']. apply IH.
Qed.

Lemma run_getDb (w : World) :
  Run.run Db.getDb w = (inr (database_available w), w).
Proof. reflexivity. Qed.

Lemma run_tenants_findFirst (id : string) (w : World) :
  Run.run (Db.tenants_findFirst id) w =
  (inr (find (fun t => String.eqb (tenant_id t) id) (tenants w)), w).
Proof. reflexivity. Qed.

Lemma run_tenants_update (id : string) (set : Tenant -> Tenant) (w : World) :
  Run.run (Db.tenants_update id set) w =
  (inr tt, Db.set_tenants w
             (Db.update_where (fun t => String.eqb (tenant_id t) id) set (tenants w))).
Proof. reflexivity. Qed.

Lemma run_invoices_findFirst (where_ : Invoice -> bool) (w : World) :
  Run.run (Db.emailOverageInvoices_findFirst where_) w =
  (inr (find where_ (emailOverageInvoices w)), w).
Proof. reflexivity. Qed.

Lemma run_invoices_update (id : Z) (set : Invoice -> Invoice) (w : World) :
  Run.run (Db.emailOverageInvoices_update id set) w =
  (inr tt, Db.set_emailOverageInvoices w
             (Db.update_where (fun i => invoice_id i =? id) set (emailOverageInvoices w))
             (emailOverageInvoices_nextId w)).
Proof. reflexivity. Qed.

(** ** Tables: look-up after an update *)

Lemma find_update_where {R : Type} (p c : R -> bool) (set : R -> R) (rows : list R) :
  (forall r, p (set r) = p r) ->
  find p (Db.update_where c set rows) =
  option_map (fun r => if c r then set r else r) (find p rows).
Proof.
  intro Hp. induction rows as [| r rows IH]; simpl; [reflexivity |].
  destruct (c r) eqn:Hc.
  - rewrite Hp. destruct (p r); [simpl; rewrite Hc; reflexivity | exact IH].
  - destruct (p r); [simpl; rewrite Hc; reflexivity | exact IH].
Qed.

Lemma update_where_idem {R : Type} (c : R -> bool) (set : R -> R) (rows : list R) :
  (forall r, c (set r) = c r) ->
  (forall r, set (set r) = set r) ->
  Db.update_where c set (Db.update_where c set rows) = Db.update_where c set rows.
Proof.
  intros Hc Hs. unfold Db.update_where. rewrite map_map. apply map_ext.
  intro r. destruct (c r) eqn:E.
  - rewrite Hc, E. apply Hs.
  - rewrite E. reflexivity.
Qed.

(** ** The period clock of [getUsage] *)

Lemma monthsDiff_month_before (now start : JS.Date) :
  valid_month now -> valid_month start ->
  (1 <= EmailLimits.monthsDiff now start <-> month_before start now).
Proof.
  unfold valid_month, month_before, EmailLimits.monthsDiff. intros Hn Hs. lia.
Qed.

Lemma stale_needsReset (now : JS.Date) (tenant : Tenant) :
  valid_month now -> stale now tenant -> EmailLimits.needsReset now tenant = true.
Proof.
  unfold stale, EmailLimits.needsReset. intros Hn Hst.
  destruct (currentMonthStart tenant) as [start |]; [| reflexivity].
  destruct Hst as [Hv Hb]. apply Z.leb_le.
  apply monthsDiff_month_before; assumption.
Qed.

Lemma needsReset_same_month (now now' : JS.Date) (tenant : Tenant) :
  same_month now' now ->
  EmailLimits.needsReset now' tenant = EmailLimits.needsReset now tenant.
Proof.
  unfold same_month, EmailLimits.needsReset, EmailLimits.monthsDiff.
  intros [Hy Hm]. destruct (currentMonthStart tenant); [| reflexivity].
  rewrite Hy, Hm. reflexivity.
Qed.

Lemma needsReset_current_month (now : JS.Date) (tenant : Tenant) (start : JS.Date) :
  currentMonthStart tenant = Some start ->
  same_month start now ->
  EmailLimits.needsReset now tenant = false.
Proof.
  unfold same_month, EmailLimits.needsReset, EmailLimits.monthsDiff.
  intros -> [Hy Hm]. apply Z.leb_gt. lia.
Qed.

Lemma needsReset_after_reset (now now' : JS.Date) (tenant : Tenant) :
  same_month now' now ->
  EmailLimits.needsReset now' (EmailLimits.reset_month now tenant) = false.
Proof.
  unfold same_month, EmailLimits.needsReset, EmailLimits.monthsDiff. simpl.
  intros [Hy Hm]. apply Z.leb_gt. lia.
Qed.

Lemma run_getUsage (now : JS.Date) (tenantId : string) (w : World) (tenant : Tenant) :
  database_available w = true ->
  find_tenant tenantId w = Some tenant ->
  Run.run (EmailLimits.getUsage now tenantId) w =
  if EmailLimits.needsReset now tenant
  then (inr (EmailLimits.reset_view tenant),
        Db.set_tenants w
          (Db.update_where (fun t => String.eqb (tenant_id t) tenantId)
                           (EmailLimits.reset_month now) (tenants w)))
  else (inr (EmailLimits.usage_view tenant), w).
Proof.
  intros Hdb Hfind. unfold find_tenant in Hfind. unfold EmailLimits.getUsage.
  rewrite run_bind, run_getDb, Hdb. simpl negb. cbv iota.
  rewrite run_bind, run_tenants_findFirst, Hfind.
  destruct (EmailLimits.needsReset now tenant).
  - rewrite run_bind, run_tenants_update. reflexivity.
  - reflexivity.
Qed.

Lemma find_tenant_after_update (id : string) (set : Tenant -> Tenant) (w : World) :
  (forall t, tenant_id (set t) = tenant_id t) ->
  find_tenant id
    (Db.set_tenants w
       (Db.update_where (fun t => String.eqb (tenant_id t) id) set (tenants w)))
  = option_map set (find_tenant id w).
Proof.
  intro Hid. unfold find_tenant. simpl.
  rewrite find_update_where by (intro r; rewrite Hid; reflexivity).
  destruct (find _ (tenants w)) as [t |] eqn:E; [| reflexivity].
  apply find_some in E. destruct E as [_ E]. simpl. rewrite E. reflexivity.
Qed.

(** C4.  When the tenant's stored period start is absent or lies in a
    calendar month strictly before the current one, [getUsage] stores the
    reset in the tenant's row: counter 0, accrued charge "0.00", and as period
    start the date whose year and month are those of the current date and
    whose day is 1, at midnight.  It touches nothing else, and returns the
    reset view (used 0, overage charge 0).  When the stored period start lies
    in the current calendar month, [getUsage] leaves the whole store as it is
    and returns the view of the stored row.  So a second call in the same
    calendar month, whether or not the first one has reset, changes nothing:
    the stored period start is the same after both. *)
Theorem C4_getUsage_resets_stale_period :
  forall (w : World) (now : JS.Date) (tenantId : string) (tenant : Tenant),
    database_available w = true ->
    find_tenant tenantId w = Some tenant ->
    valid_month now ->
    let w1 := Run.after (EmailLimits.getUsage now tenantId) w in
    (stale now tenant ->
       Run.result (EmailLimits.getUsage now tenantId) w = inr (EmailLimits.reset_view tenant)
       /\ EmailLimits.view_used (EmailLimits.reset_view tenant) = 0
       /\ EmailLimits.view_overageCharge (EmailLimits.reset_view tenant) = 0%float
       /\ w1 = Db.set_tenants w
                 (Db.update_where (fun t => String.eqb (tenant_id t) tenantId)
                                  (EmailLimits.reset_month now) (tenants w))
       /\ exists stored start,
            find_tenant tenantId w1 = Some stored
            /\ emailsSentThisMonth stored = Some 0
            /\ emailOverageCharge stored = Some 0
            /\ currentMonthStart stored = Some start
            /\ JS.getFullYear start = JS.getFullYear now
            /\ JS.getMonth start = JS.getMonth now
            /\ JS.getDate start = 1
            /\ JS.timeOfDay start = 0)
    /\ (forall start : JS.Date,
          currentMonthStart tenant = Some start ->
          same_month start now ->
          Run.run (EmailLimits.getUsage now tenantId) w
          = (inr (EmailLimits.usage_view tenant), w))
    /\ (forall now' : JS.Date,
          same_month now' now ->
          (exists stored,
              find_tenant tenantId w1 = Some stored
              /\ Run.run (EmailLimits.getUsage now' tenantId) w1
                 = (inr (EmailLimits.usage_view stored), w1))
          /\ Run.after (EmailLimits.getUsage now' tenantId) w1 = w1
          /\ option_map currentMonthStart
               (find_tenant tenantId (Run.after (EmailLimits.getUsage now' tenantId) w1))
             = option_map currentMonthStart (find_tenant tenantId w1)).
Proof.
  intros w now tenantId tenant Hdb Hfind Hnow w1.
  assert (Hid : forall t, tenant_id (EmailLimits.reset_month now t) = tenant_id t)
    by reflexivity.
  pose proof (run_getUsage now tenantId w tenant Hdb Hfind) as Hrun.
  split; [| split].
  - intro Hstale. rewrite (stale_needsReset now tenant Hnow Hstale) in Hrun.
    subst w1. unfold Run.result, Run.after. rewrite Hrun. simpl fst. simpl snd.
    repeat split.
    exists (EmailLimits.reset_month now tenant), (JS.Date_firstOfMonth now).
    split; [| repeat split].
    rewrite find_tenant_after_update by exact Hid. rewrite Hfind. reflexivity.
  - intros start Hstart Hsame.
    rewrite Hrun, (needsReset_current_month now tenant start Hstart Hsame).
    reflexivity.
  - intros now' Hsame.
    assert (Hagain : exists stored,
               find_tenant tenantId w1 = Some stored
               /\ Run.run (EmailLimits.getUsage now' tenantId) w1
                  = (inr (EmailLimits.usage_view stored), w1)).
    { subst w1. unfold Run.after. rewrite Hrun.
      destruct (EmailLimits.needsReset now tenant) eqn:Hreset; cbn [snd].
      - exists (EmailLimits.reset_month now tenant).
        assert (Hfind1 : find_tenant tenantId
                           (Db.set_tenants w
                              (Db.update_where
                                 (fun t => String.eqb (tenant_id t) tenantId)
                                 (EmailLimits.reset_month now) (tenants w)))
                         = Some (EmailLimits.reset_month now tenant)).
        { rewrite find_tenant_after_update by exact Hid. rewrite Hfind. reflexivity. }
        split; [exact Hfind1 |].
        rewrite (run_getUsage now' tenantId _ (EmailLimits.reset_month now tenant))
          by (exact Hdb || exact Hfind1).
        rewrite (needsReset_after_reset now now' tenant Hsame). reflexivity.
      - exists tenant. split; [exact Hfind |].
        rewrite (run_getUsage now' tenantId w tenant Hdb Hfind).
        rewrite (needsReset_same_month now now' tenant Hsame), Hreset. reflexivity. }
    destruct Hagain as (stored & Hstored & Hrun').
    assert (Hkeep : Run.after (EmailLimits.getUsage now' tenantId) w1 = w1).
    { unfold Run.after. rewrite Hrun'. reflexivity. }
    split; [exists stored; split; [exact Hstored | exact Hrun'] |].
    split; [exact Hkeep | rewrite Hkeep; reflexivity].
Qed.

Lemma C4_getUsage_resets_stale_period_witness :
  Run.result (EmailLimits.getUsage Sample.mid_march "7f3c2a10-salon-nord") Sample.world
  = inr (EmailLimits.reset_view Sample.salon)
  /\ Run.after (EmailLimits.getUsage Sample.late_march "7f3c2a10-salon-nord")
       (Run.after (EmailLimits.getUsage Sample.mid_march "7f3c2a10-salon-nord") Sample.world)
     = Run.after (EmailLimits.getUsage Sample.mid_march "7f3c2a10-salon-nord") Sample.world.
Proof.
  assert (Hnow : valid_month Sample.mid_march) by (unfold valid_month; simpl; lia).
  assert (Hstale : stale Sample.mid_march Sample.salon).
  { unfold stale, valid_month, month_before; simpl; lia. }
  assert (Hsame : same_month Sample.late_march Sample.mid_march)
    by (split; reflexivity).
  pose proof (C4_getUsage_resets_stale_period Sample.world Sample.mid_march
                "7f3c2a10-salon-nord" Sample.salon eq_refl eq_refl Hnow)
    as (Hreset & _ & Htwice).
  split.
  - exact (proj1 (Hreset Hstale)).
  - exact (proj1 (proj2 (Htwice Sample.late_march Hsame))).
Defined.

(** ** Invoice generation *)

Lemma find_In_true {R : Type} (p : R -> bool) (rows : list R) (r : R) :
  In r rows -> p r = true -> exists r', find p rows = Some r'.
Proof.
  intros Hin Hp. destruct (find p rows) as [r' |] eqn:E; [eauto |].
  rewrite (find_none p rows E r Hin) in Hp. discriminate.
Qed.

Lemma find_app_none {R : Type} (p : R -> bool) (rows more : list R) :
  find p rows = None -> find p (rows ++ more) = find p more.
Proof.
  induction rows as [| r rows IH]; simpl; [reflexivity |].
  destruct (p r); [discriminate | exact IH].
Qed.

Section InvoiceGeneration.

Variable Date_parse : string -> JS.Date.
Variable Date_plusDays : JS.Date -> Z -> JS.Date.
Variable Date_toISODate : JS.Date -> option string.
Variable toUpperCase : string -> string.

Local Abbreviation generateMonthlyInvoice :=
  (EmailOverageBilling.generateMonthlyInvoice
     Date_parse Date_plusDays Date_toISODate toUpperCase).
Local Abbreviation new_invoice :=
  (EmailOverageBilling.new_invoice Date_parse toUpperCase).

Lemma run_generateMonthlyInvoice (input : EmailOverageBilling.GenerateInput) (w : World) :
  database_available w = true ->
  Run.run (generateMonthlyInvoice input) w =
  match find_tenant (EmailOverageBilling.in_tenantId input) w with
  | None => (inl (TRPCError NOT_FOUND "Tenant not found"), w)
  | Some tenant =>
      match find (EmailOverageBilling.same_period input) (emailOverageInvoices w) with
      | Some _ => (inl conflict, w)
      | None =>
          if EmailOverageBilling.emailsOverLimit_of tenant =? 0
          then (inl (TRPCError BAD_REQUEST "No overage to bill"), w)
          else
            match Date_toISODate
                    (Date_plusDays
                       (Date_parse (EmailOverageBilling.in_billingPeriodEnd input)) 30) with
            | None => (inl (JsError "RangeError: Invalid time value"), w)
            | Some dueDate =>
                let id := emailOverageInvoices_nextId w in
                (inr (EmailOverageBilling.mkGenerateResult true id
                        (EmailOverageBilling.generateInvoiceNumber toUpperCase
                           (EmailOverageBilling.in_tenantId input)
                           (Date_parse (EmailOverageBilling.in_billingPeriodEnd input)))
                        (JS.toFixed2 (EmailOverageBilling.totalAmount_of tenant))),
                 Db.set_emailOverageInvoices w
                   (emailOverageInvoices w ++ [new_invoice input tenant dueDate id])
                   (id + 1))
            end
      end
  end.
Proof.
  intro Hdb. unfold EmailOverageBilling.generateMonthlyInvoice, find_tenant.
  rewrite run_bind, run_getDb, Hdb. simpl negb. cbv iota.
  rewrite run_bind, run_tenants_findFirst.
  destruct (find _ (tenants w)) as [tenant |]; [| reflexivity].
  rewrite run_bind, run_invoices_findFirst.
  destruct (find _ (emailOverageInvoices w)); [reflexivity |].
  destruct (EmailOverageBilling.emailsOverLimit_of tenant =? 0); [reflexivity |].
  destruct (Date_toISODate _); reflexivity.
Qed.

Lemma same_period_new_invoice (input : EmailOverageBilling.GenerateInput)
      (tenant : Tenant) (dueDate : string) (id : Z) :
  EmailOverageBilling.same_period input (new_invoice input tenant dueDate id) = true.
Proof.
  unfold EmailOverageBilling.same_period, EmailOverageBilling.new_invoice. simpl.
  rewrite !String.eqb_refl. reflexivity.
Qed.

(** C5.  When an invoice of the same tenant, period start and period end is
    already stored, [generateMonthlyInvoice] throws CONFLICT and leaves the
    whole store as it was; and after a call that has created an invoice (one
    row appended), the same call again throws CONFLICT and inserts nothing. *)
Theorem C5_generateMonthlyInvoice_conflict :
  forall (w : World) (input : EmailOverageBilling.GenerateInput),
    database_available w = true ->
    (forall tenant : Tenant,
        find_tenant (EmailOverageBilling.in_tenantId input) w = Some tenant ->
        (exists i : Invoice,
            In i (emailOverageInvoices w)
            /\ invoice_tenantId i = EmailOverageBilling.in_tenantId input
            /\ billingPeriodStart i = EmailOverageBilling.in_billingPeriodStart input
            /\ billingPeriodEnd i = EmailOverageBilling.in_billingPeriodEnd input) ->
        Run.run (generateMonthlyInvoice input) w = (inl conflict, w))
    /\ (forall r : EmailOverageBilling.GenerateResult,
           Run.result (generateMonthlyInvoice input) w = inr r ->
           let w1 := Run.after (generateMonthlyInvoice input) w in
           (exists row : Invoice,
               emailOverageInvoices w1 = (emailOverageInvoices w ++ [row])%list)
           /\ Run.run (generateMonthlyInvoice input) w1 = (inl conflict, w1)).
Proof.
  intros w input Hdb. split.
  - intros tenant Hfind (i & Hin & Ht & Hs & He).
    rewrite run_generateMonthlyInvoice by exact Hdb. rewrite Hfind.
    assert (Hp : EmailOverageBilling.same_period input i = true).
    { unfold EmailOverageBilling.same_period. rewrite Ht, Hs, He.
      rewrite !String.eqb_refl. reflexivity. }
    destruct (find_In_true _ _ i Hin Hp) as [i' ->]. reflexivity.
  - intros r Hres w1. subst w1. unfold Run.result, Run.after in *.
    rewrite run_generateMonthlyInvoice in * by exact Hdb.
    destruct (find_tenant _ w) as [tenant |] eqn:Hfind; [| discriminate].
    destruct (find _ (emailOverageInvoices w)) eqn:Hnone; [discriminate |].
    destruct (EmailOverageBilling.emailsOverLimit_of tenant =? 0) eqn:Hover;
      [discriminate |].
    destruct (Date_toISODate _) as [dueDate |] eqn:Hdue; [| discriminate].
    cbn [snd]. split; [eexists; reflexivity |].
    rewrite run_generateMonthlyInvoice by exact Hdb.
    replace (find_tenant _ (Db.set_emailOverageInvoices w _ _)) with (Some tenant)
      by (symmetry; exact Hfind).
    cbn [emailOverageInvoices Db.set_emailOverageInvoices].
    rewrite (find_app_none _ _ _ Hnone). cbn [find]. rewrite same_period_new_invoice.
    reflexivity.
Qed.

End InvoiceGeneration.

Lemma C5_generateMonthlyInvoice_conflict_witness :
  Run.run Sample.generate_february Sample.world_invoiced
  = (inl conflict, Sample.world_invoiced).
Proof.
  pose proof (C5_generateMonthlyInvoice_conflict
                (fun _ => JS.mkDate 2024 1 29 0) (fun d _ => JS.mkDate 2024 2 30 0)
                (fun _ => Some "2024-03-30") Sample.upper
                Sample.world Sample.february_input eq_refl) as [_ Hsecond].
  exact (proj2 (Hsecond _ eq_refl)).
Defined.

(** ** The usage view *)

(** The counts of the view are those of the effective limit. *)
Lemma usage_view_counts (tenant : Tenant) :
  let v := EmailLimits.usage_view tenant in
  EmailLimits.view_remaining v
  = Z.max 0 (EmailLimits.view_limit v - EmailLimits.view_used v)
  /\ EmailLimits.view_overageCount v
     = Z.max 0 (EmailLimits.view_used v - EmailLimits.view_limit v)
  /\ EmailLimits.view_percentUsed v
     = EmailLimits.percent (EmailLimits.view_used v) (EmailLimits.view_limit v).
Proof. repeat split. Qed.

Example percentUsed_375_of_500 :
  EmailLimits.percent 375 500 = 75 /\ spec_percentUsed 375 500 = 75
  /\ EmailLimits.percent 375 0 = 0.
Proof. repeat split. Qed.

(** C6.  With a limit of 1000 and 145 emails sent, exactly 14.5 percent,
    [getUsage] returns remaining 855, overage count 0 and [percentUsed] 14:
    the double [145 / 1000] lies below 0.145, so [(used / limit) * 100] is
    14.499999999999998 and [Math.round] takes it down, where rounding
    [100 * used / limit] half up gives 15. *)
Theorem C6_percentUsed_tie_is_rounded_down :
  Run.result (EmailLimits.getUsage Sample.mid_march "a41d9e02-studio") Sample.world_studio
  = inr (EmailLimits.usage_view Sample.studio)
  /\ EmailLimits.view_limit (EmailLimits.usage_view Sample.studio) = 1000
  /\ EmailLimits.view_used (EmailLimits.usage_view Sample.studio) = 145
  /\ EmailLimits.view_remaining (EmailLimits.usage_view Sample.studio) = 855
  /\ EmailLimits.view_overageCount (EmailLimits.usage_view Sample.studio) = 0
  /\ (JS.Number_ofZ 145 / JS.Number_ofZ 1000 * 100)%float = 0x1.cffffffffffffp+3%float
  /\ EmailLimits.view_percentUsed (EmailLimits.usage_view Sample.studio) = 14
  /\ spec_percentUsed 145 1000 = 15.
Proof. repeat split. Qed.

(** ** Invoice amounts *)

Example invoice_amounts_620_of_500 :
  let tenant := Sample.salon in
  EmailOverageBilling.emailsOverLimit_of tenant = 120
  /\ JS.toFixed2 (EmailOverageBilling.subtotal_of tenant) = 1200
  /\ JS.toFixed2 (EmailOverageBilling.vatAmount_of tenant) = 300
  /\ JS.toFixed2 (EmailOverageBilling.totalAmount_of tenant) = 1500.
Proof. repeat split. Qed.

(** C7.  For a tenant 7 emails over its limit of 500, at 0.10 per email and
    25% VAT, [generateMonthlyInvoice] stores subtotal 0.70, VAT amount 0.17
    and total 0.88: the VAT amount is one cent below 0.70 * 25 / 100 = 0.175
    at two decimals (0.18), and the stored total is not the sum of the
    stored subtotal and the stored VAT amount. *)
Theorem C7_invoice_total_is_not_subtotal_plus_tax :
  Run.result Sample.generate_march Sample.world_barber
  = inr (EmailOverageBilling.mkGenerateResult true 1 "INV-202403-C0FFEE77" 88)
  /\ map (fun i => (emailsOverLimit i, overageRate i, subtotal i, vatRate i,
                    vatAmount i, totalAmount i))
         (emailOverageInvoices (Run.after Sample.generate_march Sample.world_barber))
     = [(7, 10, 70, 2500, 17, 88)]
  /\ spec_taxAmount 70 2500 = 18
  /\ 70 + 17 <> 88.
Proof. repeat split. discriminate. Qed.

(** ** Counting a send *)

Lemma run_trackEmailSend (z_email : string -> option string) (tenantId : string)
      (input : EmailLimits.TrackInput) (w : World) (tenant : Tenant) :
  EmailLimits.input_accepted z_email input = true ->
  database_available w = true ->
  find_tenant tenantId w = Some tenant ->
  Run.run (EmailLimits.trackEmailSend z_email tenantId input) w =
  (inr (EmailLimits.track_result tenant),
   Db.set_emailUsageLogs
     (Db.set_tenants w
        (Db.update_where (fun t => String.eqb (tenant_id t) tenantId)
                         (EmailLimits.track_set tenant) (tenants w)))
     (emailUsageLogs w ++ [EmailLimits.track_log tenantId input tenant])).
Proof.
  intros Hok Hdb Hfind. unfold find_tenant in Hfind.
  unfold EmailLimits.trackEmailSend. unfold EmailLimits.input_accepted in Hok.
  destruct (EmailLimits.input_issue z_email input); [discriminate Hok |].
  rewrite run_bind, run_getDb, Hdb. simpl negb. cbv iota.
  rewrite run_bind, run_tenants_findFirst, Hfind.
  rewrite run_bind, run_tenants_update. reflexivity.
Qed.

(** An input that the schema rejects is answered before any statement. *)
Lemma run_trackEmailSend_rejected (z_email : string -> option string) (tenantId : string)
      (input : EmailLimits.TrackInput) (w : World) :
  EmailLimits.input_accepted z_email input = false ->
  exists message,
    EmailLimits.input_issue z_email input = Some message
    /\ Run.run (EmailLimits.trackEmailSend z_email tenantId input) w
       = (inl (TRPCError BAD_REQUEST message), w).
Proof.
  unfold EmailLimits.trackEmailSend, EmailLimits.input_accepted.
  destruct (EmailLimits.input_issue z_email input) as [message |];
    [| discriminate].
  intros _. exists message. split; reflexivity.
Qed.

Lemma map_update_where_frame {R B : Type} (f : R -> B) (c : R -> bool) (set : R -> R)
      (rows : list R) :
  (forall r, f (set r) = f r) ->
  map f (Db.update_where c set rows) = map f rows.
Proof.
  intro H. unfold Db.update_where. rewrite map_map. apply map_ext.
  intro r. destruct (c r); [apply H | reflexivity].
Qed.

(** C10.  [trackEmailSend] consults no clock.  It leaves the stored period
    start of every row as it is, whatever its input.  For an input that its
    schema accepts it writes into the tenant's row the stored counter plus
    one and the stored charge plus the cost of the send; this also when the
    stored period start lies in an earlier month than the current one, and
    then the row is still due for a reset afterwards.  (An input that the
    schema rejects is answered with BAD_REQUEST and nothing is written.) *)
Theorem C10_trackEmailSend_keeps_period_start :
  forall (z_email : string -> option string) (w : World) (tenantId : string)
         (input : EmailLimits.TrackInput) (tenant : Tenant),
    database_available w = true ->
    find_tenant tenantId w = Some tenant ->
    let w1 := Run.after (EmailLimits.trackEmailSend z_email tenantId input) w in
    map currentMonthStart (tenants w1) = map currentMonthStart (tenants w)
    /\ (forall message : string,
          EmailLimits.input_issue z_email input = Some message ->
          Run.run (EmailLimits.trackEmailSend z_email tenantId input) w
          = (inl (TRPCError BAD_REQUEST message), w))
    /\ (EmailLimits.input_accepted z_email input = true ->
          exists stored,
            find_tenant tenantId w1 = Some stored
            /\ currentMonthStart stored = currentMonthStart tenant
            /\ emailsSentThisMonth stored
               = Some (JS.or_int (emailsSentThisMonth tenant) 0 + 1)
            /\ emailOverageCharge stored
               = Some (JS.toFixed2
                         (JS.parseFloat2 (JS.or_decimal (emailOverageCharge tenant) 0)
                          + EmailLimits.track_overageCost_of tenant)%float)
            /\ forall now : JS.Date,
                 valid_month now -> stale now tenant ->
                 EmailLimits.needsReset now stored = true).
Proof.
  intros z_email w tenantId input tenant Hdb Hfind w1. subst w1. unfold Run.after.
  destruct (EmailLimits.input_accepted z_email input) eqn:Hok.
  - rewrite (run_trackEmailSend z_email tenantId input w tenant Hok Hdb Hfind).
    cbn [snd]. split; [| split].
    + cbn [tenants Db.set_emailUsageLogs Db.set_tenants].
      apply map_update_where_frame. reflexivity.
    + intros message Hissue. unfold EmailLimits.input_accepted in Hok.
      rewrite Hissue in Hok. discriminate Hok.
    + intros _. exists (EmailLimits.track_set tenant tenant). split; [| repeat split].
      * change (find_tenant tenantId (Db.set_emailUsageLogs ?x ?l))
          with (find_tenant tenantId x).
        rewrite find_tenant_after_update by reflexivity. rewrite Hfind. reflexivity.
      * intros now Hnow Hstale. exact (stale_needsReset now tenant Hnow Hstale).
  - destruct (run_trackEmailSend_rejected z_email tenantId input w Hok)
      as (message & Hissue & Hrun).
    rewrite Hrun. split; [reflexivity |]. split; [| discriminate].
    intros message' Hissue'. congruence.
Qed.

Lemma C10_trackEmailSend_keeps_period_start_witness :
  exists stored : Tenant,
    find_tenant "7f3c2a10-salon-nord"
      (Run.after (EmailLimits.trackEmailSend Sample.is_email "7f3c2a10-salon-nord"
                    Sample.welcome)
                 Sample.world)
    = Some stored
    /\ currentMonthStart stored = Some Sample.first_of_february
    /\ emailsSentThisMonth stored = Some 621
    /\ emailOverageCharge stored = Some 1210
    /\ EmailLimits.needsReset Sample.mid_march stored = true.
Proof.
  destruct (C10_trackEmailSend_keeps_period_start Sample.is_email Sample.world
              "7f3c2a10-salon-nord" Sample.welcome Sample.salon eq_refl eq_refl)
    as (_ & _ & Haccepted).
  destruct (Haccepted eq_refl) as [stored (Hstored & Hstart & Hsent & Hcharge & Hreset)].
  exists stored. repeat split; try assumption.
  apply Hreset.
  - unfold valid_month; simpl; lia.
  - unfold stale, valid_month, month_before; simpl; lia.
Defined.

(** ** Defaults of the limit and of the rate *)

Lemma find_map {R : Type} (p : R -> bool) (f : R -> R) (rows : list R) :
  (forall r, p (f r) = p r) ->
  find p (map f rows) = option_map f (find p rows).
Proof.
  intro H. induction rows as [| r rows IH]; simpl; [reflexivity |].
  rewrite H. destruct (p r); [reflexivity | exact IH].
Qed.

Lemma update_where_map {R : Type} (c : R -> bool) (set f : R -> R) (rows : list R) :
  (forall r, c (f r) = c r) ->
  (forall r, f (set r) = set (f r)) ->
  Db.update_where c set (map f rows) = map f (Db.update_where c set rows).
Proof.
  intros Hc Hf. unfold Db.update_where. rewrite !map_map. apply map_ext.
  intro r. rewrite Hc. destruct (c r); [symmetry; apply Hf | reflexivity].
Qed.

Lemma or_int_limit_default (limit : option Z) :
  JS.or_int (Some (JS.or_int limit 500)) 500 = JS.or_int limit 500.
Proof.
  unfold JS.or_int. destruct limit as [n |]; [| reflexivity].
  destruct (n =? 0) eqn:E; [reflexivity | rewrite E; reflexivity].
Qed.

Lemma find_tenant_explicit_defaults (id : string) (w : World) :
  find_tenant id (explicit_defaults w) = option_map with_defaults (find_tenant id w).
Proof. unfold find_tenant. simpl. apply find_map. reflexivity. Qed.

Lemma usage_view_with_defaults (t : Tenant) :
  EmailLimits.usage_view (with_defaults t) = EmailLimits.usage_view t.
Proof.
  unfold EmailLimits.usage_view. cbn [with_defaults emailMonthlyLimit emailOverageRate
    emailsSentThisMonth emailOverageCharge subscriptionPlan JS.or_decimal].
  rewrite or_int_limit_default. reflexivity.
Qed.

Lemma reset_view_with_defaults (t : Tenant) :
  EmailLimits.reset_view (with_defaults t) = EmailLimits.reset_view t.
Proof.
  unfold EmailLimits.reset_view. cbn [with_defaults emailMonthlyLimit emailOverageRate
    subscriptionPlan JS.or_decimal].
  rewrite or_int_limit_default. reflexivity.
Qed.

Lemma track_limit_with_defaults (t : Tenant) :
  EmailLimits.track_limit (with_defaults t) = EmailLimits.track_limit t.
Proof.
  unfold EmailLimits.track_limit. cbn [with_defaults emailMonthlyLimit].
  apply or_int_limit_default.
Qed.

Lemma track_isOverage_with_defaults (t : Tenant) :
  EmailLimits.track_isOverage_of (with_defaults t) = EmailLimits.track_isOverage_of t.
Proof.
  unfold EmailLimits.track_isOverage_of. rewrite track_limit_with_defaults. reflexivity.
Qed.

Lemma track_overageCost_with_defaults (t : Tenant) :
  EmailLimits.track_overageCost_of (with_defaults t) = EmailLimits.track_overageCost_of t.
Proof.
  unfold EmailLimits.track_overageCost_of. rewrite track_isOverage_with_defaults.
  reflexivity.
Qed.

Lemma track_totalOverageCharge_with_defaults (t : Tenant) :
  EmailLimits.track_totalOverageCharge (with_defaults t)
  = EmailLimits.track_totalOverageCharge t.
Proof.
  unfold EmailLimits.track_totalOverageCharge. rewrite track_overageCost_with_defaults.
  reflexivity.
Qed.

Lemma track_set_with_defaults (t r : Tenant) :
  EmailLimits.track_set (with_defaults t) r = EmailLimits.track_set t r.
Proof.
  unfold EmailLimits.track_set. rewrite track_totalOverageCharge_with_defaults.
  reflexivity.
Qed.

Lemma track_log_with_defaults (id : string) (input : EmailLimits.TrackInput) (t : Tenant) :
  EmailLimits.track_log id input (with_defaults t) = EmailLimits.track_log id input t.
Proof.
  unfold EmailLimits.track_log.
  rewrite track_isOverage_with_defaults, track_overageCost_with_defaults. reflexivity.
Qed.

Lemma track_result_with_defaults (t : Tenant) :
  EmailLimits.track_result (with_defaults t) = EmailLimits.track_result t.
Proof.
  unfold EmailLimits.track_result.
  rewrite track_isOverage_with_defaults, track_overageCost_with_defaults,
    track_limit_with_defaults. reflexivity.
Qed.

Lemma getUsage_commutes (now : JS.Date) (tenantId : string) :
  commutes_with_defaults (EmailLimits.getUsage now tenantId).
Proof.
  intro w. unfold Run.result, Run.after, EmailLimits.getUsage.
  rewrite !run_bind, !run_getDb.
  change (database_available (explicit_defaults w)) with (database_available w).
  destruct (database_available w); [| split; reflexivity]. simpl negb. cbv iota.
  rewrite !run_bind, !run_tenants_findFirst.
  pose proof (find_tenant_explicit_defaults tenantId w) as Hfind.
  unfold find_tenant in Hfind. rewrite Hfind.
  destruct (find _ (tenants w)) as [tenant |]; [| split; reflexivity].
  cbn [option_map].
  change (EmailLimits.needsReset now (with_defaults tenant))
    with (EmailLimits.needsReset now tenant).
  destruct (EmailLimits.needsReset now tenant).
  - rewrite !run_bind, !run_tenants_update. cbn [Run.run fst snd].
    rewrite reset_view_with_defaults. split; [reflexivity |].
    unfold explicit_defaults, Db.set_tenants. cbn [tenants database_available
      emailOverageInvoices emailOverageInvoices_nextId smsOverageInvoices
      emailUsageLogs console].
    rewrite update_where_map by reflexivity. reflexivity.
  - cbn [Run.run fst snd]. rewrite usage_view_with_defaults. split; reflexivity.
Qed.

Lemma trackEmailSend_commutes (z_email : string -> option string) (tenantId : string)
      (input : EmailLimits.TrackInput) :
  commutes_with_defaults (EmailLimits.trackEmailSend z_email tenantId input).
Proof.
  intro w. unfold Run.result, Run.after, EmailLimits.trackEmailSend.
  destruct (EmailLimits.input_issue z_email input); [split; reflexivity |].
  rewrite !run_bind, !run_getDb.
  change (database_available (explicit_defaults w)) with (database_available w).
  destruct (database_available w); [| split; reflexivity]. simpl negb. cbv iota.
  rewrite !run_bind, !run_tenants_findFirst.
  pose proof (find_tenant_explicit_defaults tenantId w) as Hfind.
  unfold find_tenant in Hfind. rewrite Hfind.
  destruct (find _ (tenants w)) as [tenant |]; [| split; reflexivity].
  cbn [option_map]. rewrite !run_bind, !run_tenants_update. cbn [Run.run bind fst snd
    Db.emailUsageLogs_insert await].
  rewrite track_result_with_defaults, track_log_with_defaults. split; [reflexivity |].
  unfold explicit_defaults, Db.set_tenants, Db.set_emailUsageLogs. cbn [tenants
    database_available emailOverageInvoices emailOverageInvoices_nextId
    smsOverageInvoices emailUsageLogs console].
  rewrite (update_where_map _ (EmailLimits.track_set (with_defaults tenant)))
    by reflexivity.
  f_equal. f_equal. unfold Db.update_where. apply map_ext. intro r.
  rewrite track_set_with_defaults. reflexivity.
Qed.

Lemma commutes_indistinguishable {A : Type} (p : Proc A) (w w' : World) :
  commutes_with_defaults p ->
  same_up_to_defaults w w' ->
  Run.result p w = Run.result p w'
  /\ same_up_to_defaults (Run.after p w) (Run.after p w').
Proof.
  unfold same_up_to_defaults. intros Hp Hw.
  destruct (Hp w) as [Hr Ha]. destruct (Hp w') as [Hr' Ha'].
  split.
  - rewrite <- Hr, <- Hr', Hw. reflexivity.
  - rewrite <- Ha, <- Ha', Hw. reflexivity.
Qed.

Section Defaults.

Variable Date_parse : string -> JS.Date.
Variable Date_plusDays : JS.Date -> Z -> JS.Date.
Variable Date_toISODate : JS.Date -> option string.
Variable toUpperCase : string -> string.

Local Abbreviation generateMonthlyInvoice :=
  (EmailOverageBilling.generateMonthlyInvoice
     Date_parse Date_plusDays Date_toISODate toUpperCase).
Local Abbreviation new_invoice :=
  (EmailOverageBilling.new_invoice Date_parse toUpperCase).

Lemma emailsOverLimit_with_defaults (t : Tenant) :
  EmailOverageBilling.emailsOverLimit_of (with_defaults t)
  = EmailOverageBilling.emailsOverLimit_of t.
Proof.
  unfold EmailOverageBilling.emailsOverLimit_of.
  cbn [with_defaults emailMonthlyLimit emailsSentThisMonth].
  rewrite or_int_limit_default. reflexivity.
Qed.

Lemma subtotal_with_defaults (t : Tenant) :
  EmailOverageBilling.subtotal_of (with_defaults t) = EmailOverageBilling.subtotal_of t.
Proof.
  unfold EmailOverageBilling.subtotal_of. rewrite emailsOverLimit_with_defaults.
  reflexivity.
Qed.

Lemma totalAmount_with_defaults (t : Tenant) :
  EmailOverageBilling.totalAmount_of (with_defaults t)
  = EmailOverageBilling.totalAmount_of t.
Proof.
  unfold EmailOverageBilling.totalAmount_of, EmailOverageBilling.vatAmount_of.
  rewrite subtotal_with_defaults. reflexivity.
Qed.

Lemma new_invoice_with_defaults (input : EmailOverageBilling.GenerateInput)
      (t : Tenant) (dueDate : string) (id : Z) :
  new_invoice input (with_defaults t) dueDate id = new_invoice input t dueDate id.
Proof.
  unfold EmailOverageBilling.new_invoice.
  rewrite totalAmount_with_defaults. unfold EmailOverageBilling.vatAmount_of.
  rewrite subtotal_with_defaults, emailsOverLimit_with_defaults. reflexivity.
Qed.

Lemma generateMonthlyInvoice_commutes (input : EmailOverageBilling.GenerateInput) :
  commutes_with_defaults (generateMonthlyInvoice input).
Proof.
  intro w. unfold Run.result, Run.after.
  destruct (database_available w) eqn:Hdb.
  - rewrite !run_generateMonthlyInvoice by assumption.
    rewrite find_tenant_explicit_defaults.
    destruct (find_tenant _ w) as [tenant |]; [| split; reflexivity].
    cbn [option_map]. change (emailOverageInvoices (explicit_defaults w))
      with (emailOverageInvoices w).
    destruct (find _ (emailOverageInvoices w)); [split; reflexivity |].
    rewrite emailsOverLimit_with_defaults.
    destruct (EmailOverageBilling.emailsOverLimit_of tenant =? 0);
      [split; reflexivity |].
    destruct (Date_toISODate _) as [dueDate |]; [| split; reflexivity].
    cbn [fst snd]. rewrite totalAmount_with_defaults.
    split; [reflexivity |].
    change (emailOverageInvoices_nextId (explicit_defaults w))
      with (emailOverageInvoices_nextId w).
    rewrite new_invoice_with_defaults. reflexivity.
  - unfold EmailOverageBilling.generateMonthlyInvoice.
    rewrite !run_bind, !run_getDb.
    change (database_available (explicit_defaults w)) with (database_available w).
    rewrite Hdb. split; reflexivity.
Qed.

Lemma limit_default (tenant : Tenant) :
  emailMonthlyLimit tenant = None \/ emailMonthlyLimit tenant = Some 0 ->
  JS.or_int (emailMonthlyLimit tenant) 500 = 500.
Proof. intros [-> | ->]; reflexivity. Qed.

Lemma rate_default (tenant : Tenant) :
  emailOverageRate tenant = None ->
  JS.parseFloat2 (JS.or_decimal (emailOverageRate tenant) 10) = JS.parseFloat2 10.
Proof. intros ->. reflexivity. Qed.

Lemma find_tenant_after_track (tenantId : string) (input : EmailLimits.TrackInput)
      (tenant : Tenant) (w : World) :
  find_tenant tenantId w = Some tenant ->
  find_tenant tenantId
    (Db.set_emailUsageLogs
       (Db.set_tenants w
          (Db.update_where (fun t => String.eqb (tenant_id t) tenantId)
                           (EmailLimits.track_set tenant) (tenants w)))
       (emailUsageLogs w ++ [EmailLimits.track_log tenantId input tenant]))
  = Some (EmailLimits.track_set tenant tenant).
Proof.
  intro Hfind.
  change (find_tenant tenantId (Db.set_emailUsageLogs ?x ?l))
    with (find_tenant tenantId x).
  rewrite find_tenant_after_update by reflexivity. rewrite Hfind. reflexivity.
Qed.

(** C9 (amended).  A limit that is null or 0 is read as 500, and a rate that
    is null as 0.10, by [getUsage], [trackEmailSend] and
    [generateMonthlyInvoice].

    For a tenant whose limit is null or 0: the view of [getUsage] has limit
    500, remaining [max(0, 500 - used)], overage count [max(0, used - 500)]
    and the percentage of [used] in 500; [trackEmailSend] counts a send as
    overage, and charges the rate for it, when the new count exceeds 500, and
    returns remaining [max(0, 500 - count)]; [generateMonthlyInvoice] refuses
    to bill a count of at most 500 and bills [used - 500] emails above it, at
    the rate each.

    For a tenant whose rate is null: the view has rate 0.10, the double
    nearest to one tenth, which is what [parseFloat("0.10")] gives; a send
    over the limit costs 0.10, which is added to the stored charge; the
    invoice has rate "0.10" and the subtotal of its emails at 0.10 each.

    These three see only the effective values: each returns what it returns
    on the store in which the defaults are written out, and leaves that
    store with the defaults written out.  So on two stores that differ at
    most in whether a limit of 500 is configured as 500, as 0 or as null (and
    a rate of 0.10 as "0.10" or as null) they return the same result (view,
    counts, charges, invoice, or error), and the stores they leave differ
    again at most in that. *)
Theorem C9_defaults_of_limit_and_rate :
  JS.parseFloat2 10 = (1 / 10)%float
  /\ (forall (z_email : string -> option string) (w : World) (tenantId : string)
             (tenant : Tenant),
         database_available w = true ->
         find_tenant tenantId w = Some tenant ->
         emailMonthlyLimit tenant = None \/ emailMonthlyLimit tenant = Some 0 ->
         let used := sent_of tenant in
         (forall now : JS.Date,
             exists v,
               Run.result (EmailLimits.getUsage now tenantId) w = inr v
               /\ EmailLimits.view_limit v = 500
               /\ (EmailLimits.needsReset now tenant = true ->
                     EmailLimits.view_used v = 0
                     /\ EmailLimits.view_remaining v = 500
                     /\ EmailLimits.view_overageCount v = 0
                     /\ EmailLimits.view_percentUsed v = 0)
               /\ (EmailLimits.needsReset now tenant = false ->
                     EmailLimits.view_used v = used
                     /\ EmailLimits.view_remaining v = Z.max 0 (500 - used)
                     /\ EmailLimits.view_overageCount v = Z.max 0 (used - 500)
                     /\ EmailLimits.view_percentUsed v = EmailLimits.percent used 500))
         /\ (forall input : EmailLimits.TrackInput,
                EmailLimits.input_accepted z_email input = true ->
                exists r stored,
                  Run.result (EmailLimits.trackEmailSend z_email tenantId input) w = inr r
                  /\ EmailLimits.track_totalUsed r = used + 1
                  /\ EmailLimits.track_isOverage r = (500 <? used + 1)
                  /\ EmailLimits.track_remaining r = Z.max 0 (500 - (used + 1))
                  /\ EmailLimits.track_overageCost r
                     = (if 500 <? used + 1
                        then JS.parseFloat2 (JS.or_decimal (emailOverageRate tenant) 10)
                        else 0%float)
                  /\ find_tenant tenantId
                       (Run.after (EmailLimits.trackEmailSend z_email tenantId input) w)
                     = Some stored
                  /\ emailsSentThisMonth stored = Some (used + 1)
                  /\ emailOverageCharge stored
                     = Some (JS.toFixed2
                               (JS.parseFloat2
                                  (JS.or_decimal (emailOverageCharge tenant) 0)
                                + EmailLimits.track_overageCost r)%float))
         /\ (forall input : EmailOverageBilling.GenerateInput,
                EmailOverageBilling.in_tenantId input = tenantId ->
                find (EmailOverageBilling.same_period input) (emailOverageInvoices w)
                = None ->
                (used <= 500 ->
                   Run.run (generateMonthlyInvoice input) w
                   = (inl (TRPCError BAD_REQUEST "No overage to bill"), w))
                /\ (500 < used ->
                      forall dueDate : string,
                        Date_toISODate
                          (Date_plusDays
                             (Date_parse (EmailOverageBilling.in_billingPeriodEnd input))
                             30) = Some dueDate ->
                        exists r row,
                          Run.result (generateMonthlyInvoice input) w = inr r
                          /\ emailOverageInvoices
                               (Run.after (generateMonthlyInvoice input) w)
                             = (emailOverageInvoices w ++ [row])%list
                          /\ emailsOverLimit row = used - 500
                          /\ subtotal row
                             = JS.toFixed2
                                 (JS.Number_ofZ (used - 500)
                                  * JS.parseFloat2
                                      (JS.or_decimal (emailOverageRate tenant) 10))%float)))
  /\ (forall (z_email : string -> option string) (w : World) (tenantId : string)
             (tenant : Tenant),
         database_available w = true ->
         find_tenant tenantId w = Some tenant ->
         emailOverageRate tenant = None ->
         (forall now : JS.Date,
             exists v,
               Run.result (EmailLimits.getUsage now tenantId) w = inr v
               /\ EmailLimits.view_overageRate v = JS.parseFloat2 10)
         /\ (forall input : EmailLimits.TrackInput,
                EmailLimits.input_accepted z_email input = true ->
                exists r stored,
                  Run.result (EmailLimits.trackEmailSend z_email tenantId input) w = inr r
                  /\ EmailLimits.track_overageCost r
                     = (if EmailLimits.track_isOverage r then JS.parseFloat2 10
                        else 0%float)
                  /\ find_tenant tenantId
                       (Run.after (EmailLimits.trackEmailSend z_email tenantId input) w)
                     = Some stored
                  /\ emailOverageCharge stored
                     = Some (JS.toFixed2
                               (JS.parseFloat2
                                  (JS.or_decimal (emailOverageCharge tenant) 0)
                                + EmailLimits.track_overageCost r)%float))
         /\ (forall (input : EmailOverageBilling.GenerateInput)
                    (r : EmailOverageBilling.GenerateResult),
                EmailOverageBilling.in_tenantId input = tenantId ->
                Run.result (generateMonthlyInvoice input) w = inr r ->
                exists row,
                  emailOverageInvoices (Run.after (generateMonthlyInvoice input) w)
                  = (emailOverageInvoices w ++ [row])%list
                  /\ overageRate row = 10
                  /\ subtotal row
                     = JS.toFixed2
                         (JS.Number_ofZ (emailsOverLimit row) * JS.parseFloat2 10)%float))
  /\ (forall (now : JS.Date) (tenantId : string),
         commutes_with_defaults (EmailLimits.getUsage now tenantId))
  /\ (forall (z_email : string -> option string) (tenantId : string)
             (input : EmailLimits.TrackInput),
         commutes_with_defaults (EmailLimits.trackEmailSend z_email tenantId input))
  /\ (forall input : EmailOverageBilling.GenerateInput,
         commutes_with_defaults (generateMonthlyInvoice input))
  /\ forall w w' : World,
       same_up_to_defaults w w' ->
       (forall (now : JS.Date) (tenantId : string),
           Run.result (EmailLimits.getUsage now tenantId) w
           = Run.result (EmailLimits.getUsage now tenantId) w'
           /\ same_up_to_defaults (Run.after (EmailLimits.getUsage now tenantId) w)
                                  (Run.after (EmailLimits.getUsage now tenantId) w'))
       /\ (forall (z_email : string -> option string) (tenantId : string)
                  (input : EmailLimits.TrackInput),
              Run.result (EmailLimits.trackEmailSend z_email tenantId input) w
              = Run.result (EmailLimits.trackEmailSend z_email tenantId input) w'
              /\ same_up_to_defaults
                   (Run.after (EmailLimits.trackEmailSend z_email tenantId input) w)
                   (Run.after (EmailLimits.trackEmailSend z_email tenantId input) w'))
       /\ (forall input : EmailOverageBilling.GenerateInput,
              Run.result (generateMonthlyInvoice input) w
              = Run.result (generateMonthlyInvoice input) w'
              /\ same_up_to_defaults (Run.after (generateMonthlyInvoice input) w)
                                     (Run.after (generateMonthlyInvoice input) w')).
Proof.
  split; [reflexivity |].
  split; [| split].
  - (* the limit *)
    intros z_email w tenantId tenant Hdb Hfind Hlimit used.
    pose proof (limit_default tenant Hlimit) as H500.
    split; [| split].
    + intro now. unfold Run.result.
      rewrite (run_getUsage now tenantId w tenant Hdb Hfind).
      destruct (EmailLimits.needsReset now tenant).
      * eexists. split; [reflexivity |]. cbn [fst].
        unfold EmailLimits.reset_view.
        cbn [EmailLimits.view_limit EmailLimits.view_used EmailLimits.view_remaining
             EmailLimits.view_overageCount EmailLimits.view_percentUsed].
        rewrite H500. split; [reflexivity |].
        split; [intros _; repeat split | discriminate].
      * eexists. split; [reflexivity |]. cbn [fst].
        unfold EmailLimits.usage_view.
        cbn [EmailLimits.view_limit EmailLimits.view_used EmailLimits.view_remaining
             EmailLimits.view_overageCount EmailLimits.view_percentUsed].
        rewrite H500. split; [reflexivity |].
        split; [discriminate | intros _; repeat split].
    + intros input Hok. unfold Run.result, Run.after.
      rewrite (run_trackEmailSend z_email tenantId input w tenant Hok Hdb Hfind).
      cbn [fst snd]. eexists. eexists. split; [reflexivity |].
      rewrite (find_tenant_after_track tenantId input tenant w Hfind).
      unfold EmailLimits.track_result, EmailLimits.track_set,
        EmailLimits.track_totalOverageCharge, EmailLimits.track_overageCost_of,
        EmailLimits.track_isOverage_of, EmailLimits.track_limit, EmailLimits.track_used.
      cbn [EmailLimits.track_totalUsed EmailLimits.track_isOverage
           EmailLimits.track_remaining EmailLimits.track_overageCost
           emailsSentThisMonth emailOverageCharge].
      rewrite H500. repeat split.
    + intros input Hid Hnone.
      assert (Hover : EmailOverageBilling.emailsOverLimit_of tenant
                      = Z.max 0 (used - 500)).
      { unfold EmailOverageBilling.emailsOverLimit_of, JS.Math_max.
        rewrite H500. reflexivity. }
      split.
      * intro Hle. rewrite run_generateMonthlyInvoice by exact Hdb.
        rewrite Hid, Hfind, Hnone, Hover.
        replace (Z.max 0 (used - 500)) with 0 by lia. reflexivity.
      * intros Hlt dueDate Hdue. unfold Run.result, Run.after.
        rewrite run_generateMonthlyInvoice by exact Hdb.
        rewrite Hid, Hfind, Hnone, Hover.
        destruct (Z.max 0 (used - 500) =? 0) eqn:E; [apply Z.eqb_eq in E; lia |].
        rewrite Hdue. cbn [fst snd]. eexists. eexists.
        split; [reflexivity |]. split; [reflexivity |].
        cbn [emailsOverLimit subtotal EmailOverageBilling.new_invoice].
        unfold EmailOverageBilling.subtotal_of, EmailOverageBilling.overageRate_of.
        rewrite Hover. replace (Z.max 0 (used - 500)) with (used - 500) by lia.
        split; reflexivity.
  - (* the rate *)
    intros z_email w tenantId tenant Hdb Hfind Hrate.
    pose proof (rate_default tenant Hrate) as H010.
    split; [| split].
    + intro now. unfold Run.result.
      rewrite (run_getUsage now tenantId w tenant Hdb Hfind).
      destruct (EmailLimits.needsReset now tenant);
        (eexists; split; [reflexivity |]); cbn [fst];
        [unfold EmailLimits.reset_view | unfold EmailLimits.usage_view];
        cbn [EmailLimits.view_overageRate]; rewrite H010; reflexivity.
    + intros input Hok. unfold Run.result, Run.after.
      rewrite (run_trackEmailSend z_email tenantId input w tenant Hok Hdb Hfind).
      cbn [fst snd]. eexists. eexists.
      split; [reflexivity |].
      split; [| split; [apply find_tenant_after_track; exact Hfind |]].
      * unfold EmailLimits.track_result.
        cbn [EmailLimits.track_overageCost EmailLimits.track_isOverage].
        unfold EmailLimits.track_overageCost_of. rewrite H010. reflexivity.
      * reflexivity.
    + intros input r Hid Hres. unfold Run.result, Run.after in *.
      rewrite run_generateMonthlyInvoice in * by exact Hdb.
      rewrite Hid, Hfind in *.
      destruct (find _ (emailOverageInvoices w)); [discriminate |].
      destruct (EmailOverageBilling.emailsOverLimit_of tenant =? 0); [discriminate |].
      destruct (Date_toISODate _) as [dueDate |]; [| discriminate].
      cbn [snd]. eexists. split; [reflexivity |].
      cbn [overageRate subtotal emailsOverLimit EmailOverageBilling.new_invoice].
      unfold EmailOverageBilling.subtotal_of, EmailOverageBilling.overageRate_of.
      rewrite H010. split; reflexivity.
  - split; [exact getUsage_commutes |].
    split; [exact trackEmailSend_commutes |].
    split; [exact generateMonthlyInvoice_commutes |].
    intros w w' Hw. repeat split.
    + apply commutes_indistinguishable; [apply getUsage_commutes | exact Hw].
    + apply commutes_indistinguishable; [apply getUsage_commutes | exact Hw].
    + apply commutes_indistinguishable; [apply trackEmailSend_commutes | exact Hw].
    + apply commutes_indistinguishable; [apply trackEmailSend_commutes | exact Hw].
    + apply commutes_indistinguishable; [apply generateMonthlyInvoice_commutes | exact Hw].
    + apply commutes_indistinguishable; [apply generateMonthlyInvoice_commutes | exact Hw].
Qed.

End Defaults.

Lemma C9_defaults_of_limit_and_rate_witness :
  (exists v,
      Run.result (EmailLimits.getUsage Sample.first_of_february "7f3c2a10-salon-nord")
                 Sample.world_unconfigured = inr v
      /\ EmailLimits.view_limit v = 500
      /\ EmailLimits.view_remaining v = 0
      /\ EmailLimits.view_overageCount v = 120)
  /\ Run.result (EmailLimits.getUsage Sample.first_of_february "7f3c2a10-salon-nord")
                Sample.world_unconfigured
     = Run.result (EmailLimits.getUsage Sample.first_of_february "7f3c2a10-salon-nord")
                  Sample.world
  /\ Run.result (EmailLimits.trackEmailSend Sample.is_email "7f3c2a10-salon-nord"
                   Sample.welcome)
                Sample.world_unconfigured
     = Run.result (EmailLimits.trackEmailSend Sample.is_email "7f3c2a10-salon-nord"
                     Sample.welcome)
                  Sample.world.
Proof.
  destruct (C9_defaults_of_limit_and_rate
              (fun _ => JS.mkDate 2024 1 29 0) (fun d _ => JS.mkDate 2024 2 30 0)
              (fun _ => Some "2024-03-30") Sample.upper)
    as (_ & Hlimit & _ & _ & _ & _ & H).
  destruct (Hlimit Sample.is_email Sample.world_unconfigured "7f3c2a10-salon-nord"
              Sample.salon_unconfigured eq_refl eq_refl (or_intror eq_refl))
    as (Hview & _ & _).
  destruct (Hview Sample.first_of_february) as (v & Hv & Hl & _ & Hcurrent).
  destruct (Hcurrent eq_refl) as (_ & Hremaining & Hcount & _).
  destruct (H Sample.world_unconfigured Sample.world eq_refl) as (Hget & Htrack & _).
  split; [| split].
  - exists v. split; [exact Hv |]. split; [exact Hl |].
    split; [exact Hremaining | exact Hcount].
  - exact (proj1 (Hget Sample.first_of_february "7f3c2a10-salon-nord")).
  - exact (proj1 (Htrack Sample.is_email "7f3c2a10-salon-nord" Sample.welcome)).
Defined.

(** C9, as stated, fails at the public interface: the admin listing
    [getAllTenantsUsage] returns the configured limit as stored and takes
    [percentUsed] to be 0 for a limit of 0.  Of two salons that differ only in
    a limit of 0 and a limit of 500, with 620 emails sent, [getUsage] returns
    the same view, while the listing shows limit 0 and 0 percent for the one,
    limit 500 and 124 percent for the other. *)
Lemma C9_admin_listing_tells_0_from_500 :
  same_up_to_defaults Sample.world_limit_0 Sample.world
  /\ Run.result (EmailLimits.getUsage Sample.first_of_february "7f3c2a10-salon-nord")
                Sample.world_limit_0
     = Run.result (EmailLimits.getUsage Sample.first_of_february "7f3c2a10-salon-nord")
                  Sample.world
  /\ (exists rows,
        Run.result EmailLimits.getAllTenantsUsage Sample.world_limit_0 = inr rows
        /\ map EmailLimits.row_emailMonthlyLimit rows = [Some 0]
        /\ map EmailLimits.row_percentUsed rows = [0])
  /\ (exists rows,
        Run.result EmailLimits.getAllTenantsUsage Sample.world = inr rows
        /\ map EmailLimits.row_emailMonthlyLimit rows = [Some 500]
        /\ map EmailLimits.row_percentUsed rows = [124])
  /\ Run.result EmailLimits.getAllTenantsUsage Sample.world_limit_0
     <> Run.result EmailLimits.getAllTenantsUsage Sample.world.
Proof.
  split; [reflexivity |]. split; [reflexivity |].
  split; [eexists; repeat split |]. split; [eexists; repeat split |].
  intro H. apply (f_equal (fun r => match r with
                                    | inr rows => map EmailLimits.row_percentUsed rows
                                    | inl _ => []
                                    end)) in H.
  discriminate H.
Qed.

(** ** Payment-status events *)

Lemma run_try_catch {A : Type} (p : Proc A) (handler : Error -> Proc A) (w : World) :
  Run.run (try_catch p handler) w =
  match Run.run p w with
  | (inr a, w') => (inr a, w')
  | (inl e, w') => Run.run (handler e) w'
  end.
Proof.
  revert w. induction p as [a | e | X stmt k IH]; intro w; simpl; try reflexivity.
  destruct (stmt w) as [x w']. apply IH.
Qed.

Lemma find_invoice_after_update (remoteId : string) (id : Z) (set : Invoice -> Invoice)
      (w : World) (next : Z) :
  (forall i, stripeInvoiceId (set i) = stripeInvoiceId i) ->
  find_invoice remoteId
    (Db.set_emailOverageInvoices w
       (Db.update_where (fun i => invoice_id i =? id) set (emailOverageInvoices w)) next)
  = option_map (fun i => if invoice_id i =? id then set i else i)
               (find_invoice remoteId w).
Proof.
  intro H. unfold find_invoice. cbn [emailOverageInvoices Db.set_emailOverageInvoices].
  apply find_update_where. intro r. rewrite H. reflexivity.
Qed.

Section Webhooks.

Variable Date_parse : string -> JS.Date.
Variable Date_ofEpochMs : Z -> JS.Date.

Local Abbreviation procedure := (EmailOverageBilling.handleStripeWebhook Date_parse).
Local Abbreviation set_status := (EmailOverageBilling.set_status Date_parse).
Local Abbreviation succeeded :=
  (StripeWebhook.handleInvoicePaymentSucceeded Date_ofEpochMs).
Local Abbreviation webhook := (StripeWebhook.handleStripeWebhook Date_ofEpochMs).

Lemma run_procedure (input : EmailOverageBilling.WebhookInput) (w : World) :
  database_available w = true ->
  Run.run (procedure input) w =
  match find_invoice (EmailOverageBilling.in_stripeInvoiceId input) w with
  | None => (inl invoice_not_found, w)
  | Some invoice => (inr true, procedure_effect Date_parse input invoice w)
  end.
Proof.
  intro Hdb. unfold EmailOverageBilling.handleStripeWebhook, find_invoice.
  rewrite run_bind, run_getDb, Hdb. simpl negb. cbv iota.
  rewrite run_bind, run_invoices_findFirst.
  destruct (find _ (emailOverageInvoices w)) as [invoice |]; [| reflexivity].
  rewrite run_bind, run_invoices_update. unfold procedure_effect.
  destruct (EmailOverageBilling.in_status input); reflexivity.
Qed.

Lemma procedure_effect_twice (input : EmailOverageBilling.WebhookInput)
      (invoice : Invoice) (w : World) :
  procedure_effect Date_parse input (set_status input invoice) (procedure_effect Date_parse input invoice w)
  = procedure_effect Date_parse input invoice w.
Proof.
  unfold procedure_effect.
  change (invoice_id (set_status input invoice)) with (invoice_id invoice).
  change (invoice_tenantId (set_status input invoice)) with (invoice_tenantId invoice).
  destruct (EmailOverageBilling.in_status input);
    cbn [Db.set_tenants Db.set_emailOverageInvoices tenants emailOverageInvoices
         emailOverageInvoices_nextId database_available smsOverageInvoices
         emailUsageLogs console];
    rewrite ?update_where_idem by reflexivity; reflexivity.
Qed.

Lemma find_invoice_procedure_effect (input : EmailOverageBilling.WebhookInput)
      (invoice : Invoice) (w : World) :
  find_invoice (EmailOverageBilling.in_stripeInvoiceId input) w = Some invoice ->
  find_invoice (EmailOverageBilling.in_stripeInvoiceId input)
               (procedure_effect Date_parse input invoice w)
  = Some (set_status input invoice).
Proof.
  intro Hfind. unfold procedure_effect.
  assert (H : find_invoice (EmailOverageBilling.in_stripeInvoiceId input)
                (Db.set_emailOverageInvoices w
                   (Db.update_where (fun i => invoice_id i =? invoice_id invoice)
                      (set_status input) (emailOverageInvoices w))
                   (emailOverageInvoices_nextId w))
              = Some (set_status input invoice)).
  { rewrite find_invoice_after_update by reflexivity. rewrite Hfind.
    cbn [option_map]. rewrite Z.eqb_refl. reflexivity. }
  destruct (EmailOverageBilling.in_status input); exact H.
Qed.

End Webhooks.

Section StripeHandlers.

Variable Date_ofEpochMs : Z -> JS.Date.

Local Abbreviation succeeded :=
  (StripeWebhook.handleInvoicePaymentSucceeded Date_ofEpochMs).
Local Abbreviation webhook := (StripeWebhook.handleStripeWebhook Date_ofEpochMs).
Local Abbreviation paidAt_of := (StripeWebhook.paidAt_of Date_ofEpochMs).

Lemma run_succeeded (invoice : StripeWebhook.StripeInvoice) (w : World) :
  database_available w = true ->
  Run.run (succeeded invoice) w =
  match StripeWebhook.status_transition invoice with
  | None => (inl StripeWebhook.TypeError_paid_at, w)
  | Some transition =>
      match find_invoice (StripeWebhook.stripe_id invoice) w with
      | Some emailInvoice =>
          (inr (Some (StripeWebhook.handled_invoice "email" (invoiceNumber emailInvoice))),
           email_marked (StripeWebhook.set_email_paid invoice (paidAt_of transition))
             ("✅ Email overage invoice " ++ invoiceNumber emailInvoice
              ++ " marked as paid")
             emailInvoice w)
      | None =>
          match find_sms_invoice (StripeWebhook.stripe_id invoice) w with
          | Some smsInvoice =>
              (inr (Some (StripeWebhook.handled_invoice "sms"
                            (sms_invoiceNumber smsInvoice))),
               sms_marked (StripeWebhook.set_sms_paid (paidAt_of transition))
                 ("✅ SMS overage invoice " ++ sms_invoiceNumber smsInvoice
                  ++ " marked as paid")
                 smsInvoice w)
          | None => (inr None, none_found (StripeWebhook.stripe_id invoice) w)
          end
      end
  end.
Proof.
  intro Hdb. unfold StripeWebhook.handleInvoicePaymentSucceeded, find_invoice,
    find_sms_invoice.
  rewrite run_bind, run_getDb, Hdb. simpl negb. cbv iota. cbv zeta.
  destruct (StripeWebhook.status_transition invoice) as [transition |];
    [| reflexivity].
  rewrite run_bind, run_invoices_findFirst.
  destruct (find _ (emailOverageInvoices w)) as [emailInvoice |]; [reflexivity |].
  rewrite run_bind. cbn [Run.run Db.smsOverageInvoices_findFirst await].
  destruct (find _ (smsOverageInvoices w)) as [smsInvoice |]; reflexivity.
Qed.

Lemma run_webhook_succeeded (invoice : StripeWebhook.StripeInvoice) (w : World) :
  Run.run (webhook (StripeWebhook.mkStripeEvent "invoice.payment_succeeded" invoice)) w =
  Run.run
    (try_catch (succeeded invoice)
       (fun error =>
          Db.console_write console_error
            "❌ Error handling webhook event invoice.payment_succeeded:" ;;;
          Throw error))
    (Db.set_console w
       (console w
        ++ [(console_log, "📨 Received Stripe webhook: invoice.payment_succeeded")])).
Proof. unfold StripeWebhook.handleStripeWebhook. rewrite run_bind. reflexivity. Qed.

Lemma run_webhook_failed (invoice : StripeWebhook.StripeInvoice) (w : World) :
  Run.run (webhook (StripeWebhook.mkStripeEvent "invoice.payment_failed" invoice)) w =
  Run.run
    (try_catch (StripeWebhook.handleInvoicePaymentFailed invoice)
       (fun error =>
          Db.console_write console_error
            "❌ Error handling webhook event invoice.payment_failed:" ;;;
          Throw error))
    (Db.set_console w
       (console w
        ++ [(console_log, "📨 Received Stripe webhook: invoice.payment_failed")])).
Proof. unfold StripeWebhook.handleStripeWebhook. rewrite run_bind. reflexivity. Qed.

(** X10.  Line 41 of [stripeWebhook.ts] reads [invoice.status_transition.paid_at]
    before any look-up.  On an invoice that has no [status_transition], as
    the invoices Stripe sends, [handleInvoicePaymentSucceeded] throws a
    TypeError whatever the tables hold; [handleStripeWebhook] reports it on
    the console and throws it again, and no table is touched. *)
Theorem handleInvoicePaymentSucceeded_without_status_transition
      (invoice : StripeWebhook.StripeInvoice) (w : World) :
  database_available w = true ->
  StripeWebhook.status_transition invoice = None ->
  Run.run (succeeded invoice) w = (inl StripeWebhook.TypeError_paid_at, w)
  /\ Run.result
       (webhook (StripeWebhook.mkStripeEvent "invoice.payment_succeeded" invoice)) w
     = inl StripeWebhook.TypeError_paid_at
  /\ tables (Run.after
               (webhook (StripeWebhook.mkStripeEvent "invoice.payment_succeeded"
                                                     invoice)) w)
     = tables w
  /\ console (Run.after
                (webhook (StripeWebhook.mkStripeEvent "invoice.payment_succeeded"
                                                      invoice)) w)
     = (console w
        ++ [(console_log, "📨 Received Stripe webhook: invoice.payment_succeeded");
            (console_error,
             "❌ Error handling webhook event invoice.payment_succeeded:")])%list.
Proof.
  intros Hdb Hnone.
  assert (H : forall w', database_available w' = true ->
              Run.run (succeeded invoice) w' = (inl StripeWebhook.TypeError_paid_at, w')).
  { intros w' Hdb'. rewrite run_succeeded by exact Hdb'. rewrite Hnone. reflexivity. }
  split; [apply H; exact Hdb |].
  unfold Run.result, Run.after. rewrite run_webhook_succeeded, run_try_catch.
  rewrite H by exact Hdb. cbn [Run.run bind Db.console_write await fst snd].
  split; [reflexivity |]. split; [reflexivity |].
  cbn [console Db.set_console]. rewrite <- app_assoc. reflexivity.
Qed.

Lemma run_failed (invoice : StripeWebhook.StripeInvoice) (w : World) :
  database_available w = true ->
  Run.run (StripeWebhook.handleInvoicePaymentFailed invoice) w =
  match find_invoice (StripeWebhook.stripe_id invoice) w with
  | Some emailInvoice =>
      (inr (Some (StripeWebhook.handled_invoice "email" (invoiceNumber emailInvoice))),
       email_marked StripeWebhook.set_email_failed
         ("❌ Email overage invoice " ++ invoiceNumber emailInvoice ++ " marked as failed")
         emailInvoice w)
  | None =>
      match find_sms_invoice (StripeWebhook.stripe_id invoice) w with
      | Some smsInvoice =>
          (inr (Some (StripeWebhook.handled_invoice "sms" (sms_invoiceNumber smsInvoice))),
           sms_marked StripeWebhook.set_sms_failed
             ("❌ SMS overage invoice " ++ sms_invoiceNumber smsInvoice ++ " marked as failed")
             smsInvoice w)
      | None => (inr None, none_found (StripeWebhook.stripe_id invoice) w)
      end
  end.
Proof.
  intro Hdb. unfold StripeWebhook.handleInvoicePaymentFailed, find_invoice,
    find_sms_invoice.
  rewrite run_bind, run_getDb, Hdb. simpl negb. cbv iota.
  rewrite run_bind, run_invoices_findFirst.
  destruct (find _ (emailOverageInvoices w)) as [emailInvoice |]; [reflexivity |].
  rewrite run_bind. cbn [Run.run Db.smsOverageInvoices_findFirst await].
  destruct (find _ (smsOverageInvoices w)) as [smsInvoice |]; reflexivity.
Qed.

Lemma find_invoice_email_marked (remoteId : string) (set : Invoice -> Invoice)
      (line : string) (invoice : Invoice) (w : World) :
  (forall i, stripeInvoiceId (set i) = stripeInvoiceId i) ->
  find_invoice remoteId w = Some invoice ->
  find_invoice remoteId (email_marked set line invoice w) = Some (set invoice).
Proof.
  intros Hset Hfind. unfold email_marked.
  change (find_invoice remoteId (Db.set_console ?x ?l)) with (find_invoice remoteId x).
  rewrite find_invoice_after_update by exact Hset. rewrite Hfind.
  cbn [option_map]. rewrite Z.eqb_refl. reflexivity.
Qed.

Lemma tables_email_marked_twice (set : Invoice -> Invoice) (line line' : string)
      (invoice : Invoice) (w : World) :
  (forall i, invoice_id (set i) = invoice_id i) ->
  (forall i, set (set i) = set i) ->
  tables (email_marked set line' (set invoice) (email_marked set line invoice w))
  = tables (email_marked set line invoice w).
Proof.
  intros Hid Hidem. unfold tables, email_marked.
  cbn [Db.set_console Db.set_emailOverageInvoices tenants emailOverageInvoices
       emailOverageInvoices_nextId database_available smsOverageInvoices
       emailUsageLogs console].
  rewrite Hid. rewrite update_where_idem; [reflexivity | | exact Hidem].
  intro r. rewrite Hid. reflexivity.
Qed.

End StripeHandlers.

Lemma charge_reset_where (id : string) (ts : list Tenant) (t : Tenant) :
  In t (Db.update_where (fun r => String.eqb (tenant_id r) id)
                        EmailOverageBilling.reset_overage_charge ts) ->
  tenant_id t = id ->
  emailOverageCharge t = Some 0.
Proof.
  unfold Db.update_where. intros Hin Hid. apply in_map_iff in Hin.
  destruct Hin as (r & Hr & _). destruct (String.eqb (tenant_id r) id) eqn:E.
  - subst t. reflexivity.
  - subst t. rewrite Hid in E. rewrite String.eqb_refl in E. discriminate.
Qed.

Section Reconciliation.

Variable Date_parse : string -> JS.Date.

Local Abbreviation procedure := (EmailOverageBilling.handleStripeWebhook Date_parse).

(** C1 (amended).  The billing router's [handleStripeWebhook] procedure does
    not look at the status of the invoice it finds.  A payment-success event
    whose remote id matches an invoice, pending or not, is accepted without
    error: the invoice is (re)written as paid, and the accrued overage charge
    of the invoice's tenant is (re)written as "0.00".  The same event
    delivered again right after returns the same result and leaves the store
    as the first delivery left it. *)
Theorem C1_paid_event_rewrites_on_every_delivery :
  forall (w : World) (remoteId : string) (paidAt : option string) (invoice : Invoice),
    database_available w = true ->
    find_invoice remoteId w = Some invoice ->
    let input := EmailOverageBilling.mkWebhookInput
                   remoteId EmailOverageBilling.status_paid paidAt in
    let w1 := Run.after (procedure input) w in
    Run.result (procedure input) w = inr true
    /\ (exists stored,
          find_invoice remoteId w1 = Some stored /\ status stored = paid)
    /\ (forall t : Tenant,
          In t (tenants w1) -> tenant_id t = invoice_tenantId invoice ->
          emailOverageCharge t = Some 0)
    /\ Run.run (procedure input) w1 = (inr true, w1).
Proof.
  intros w remoteId paidAt invoice Hdb Hfind input w1.
  assert (Hrun : Run.run (procedure input) w
                 = (inr true, procedure_effect Date_parse input invoice w)).
  { rewrite run_procedure by exact Hdb.
    change (EmailOverageBilling.in_stripeInvoiceId input) with remoteId.
    rewrite Hfind. reflexivity. }
  assert (Hw1 : w1 = procedure_effect Date_parse input invoice w).
  { subst w1. unfold Run.after. rewrite Hrun. reflexivity. }
  assert (Hfind1 : find_invoice remoteId w1
                   = Some (EmailOverageBilling.set_status Date_parse input invoice)).
  { rewrite Hw1. exact (find_invoice_procedure_effect Date_parse input invoice w Hfind). }
  split; [unfold Run.result; rewrite Hrun; reflexivity |].
  split; [eexists; split; [exact Hfind1 | reflexivity] |].
  split.
  { intros t Hin Hid. rewrite Hw1 in Hin. unfold procedure_effect in Hin.
    cbn [EmailOverageBilling.in_status input tenants Db.set_tenants
         Db.set_emailOverageInvoices] in Hin.
    exact (charge_reset_where _ _ t Hin Hid). }
  rewrite run_procedure by (rewrite Hw1; exact Hdb).
  change (EmailOverageBilling.in_stripeInvoiceId input) with remoteId.
  rewrite Hfind1, Hw1. rewrite procedure_effect_twice. reflexivity.
Qed.

End Reconciliation.

Lemma C1_paid_event_rewrites_on_every_delivery_witness :
  Run.result (EmailOverageBilling.handleStripeWebhook Sample.date_of_string
                Sample.paid_event) Sample.world_billed = inr true
  /\ Run.run (EmailOverageBilling.handleStripeWebhook Sample.date_of_string
                Sample.paid_event) Sample.world_paid
     = (inr true, Sample.world_paid).
Proof.
  pose proof (C1_paid_event_rewrites_on_every_delivery
                Sample.date_of_string Sample.world_billed
                "in_1OqSalonNord" (Some "2024-03-04T09:00:00Z")
                Sample.february_invoice eq_refl eq_refl) as H.
  cbv zeta in H. destruct H as (Hfirst & _ & _ & Hsecond).
  split; [exact Hfirst | exact Hsecond].
Defined.

(** C1, as stated, fails.  The salon's invoice is paid (first delivery: the
    charge of 12.00 is reset); the salon sends one more email over its limit
    and accrues 0.10; the same event arrives again for the invoice, which is
    not pending any more: the accrued charge is reset a second time.  And a
    payment-success event for an invoice in the failed state moves it to
    paid. *)
Lemma C1_second_delivery_is_not_a_noop :
  option_map status (find_invoice "in_1OqSalonNord" Sample.world_paid_then_sent)
  = Some paid
  /\ option_map emailOverageCharge
       (find_tenant "7f3c2a10-salon-nord" Sample.world_billed) = Some (Some 1200)
  /\ option_map emailOverageCharge
       (find_tenant "7f3c2a10-salon-nord" Sample.world_paid) = Some (Some 0)
  /\ option_map emailOverageCharge
       (find_tenant "7f3c2a10-salon-nord" Sample.world_paid_then_sent) = Some (Some 10)
  /\ option_map emailOverageCharge
       (find_tenant "7f3c2a10-salon-nord" Sample.world_paid_again) = Some (Some 0)
  /\ Sample.world_paid_again <> Sample.world_paid_then_sent
  /\ option_map status (find_invoice "in_1OqSalonNord" Sample.world_failed)
     = Some failed
  /\ option_map status
       (find_invoice "in_1OqSalonNord"
          (Run.after (EmailOverageBilling.handleStripeWebhook Sample.date_of_string
                        Sample.paid_event) Sample.world_failed))
     = Some paid.
Proof.
  repeat split.
  intro H. apply (f_equal (find_tenant "7f3c2a10-salon-nord")) in H.
  apply (f_equal (option_map emailOverageCharge)) in H. discriminate H.
Qed.

(** ** Sequences of payment-status events *)

Lemma status_step_refl (r : Invoice) : status_step r r.
Proof. unfold status_step. auto. Qed.

Lemma status_step_trans (a b c : Invoice) :
  status_step a b -> status_step b c -> status_step a c.
Proof.
  unfold status_step. intros (Hi & Hs & Hst) (Hi' & Hs' & Hst').
  repeat split; try congruence.
  destruct Hst' as [H | [H | H]]; auto. rewrite H. exact Hst.
Qed.

Lemma status_step_update (c : Invoice -> bool) (set : Invoice -> Invoice) :
  (forall r, status_step r (set r)) ->
  forall r, status_step r (if c r then set r else r).
Proof. intros H r. destruct (c r); [apply H | apply status_step_refl]. Qed.

Section EventSequences.

Variable Date_parse : string -> JS.Date.
Variable Date_ofEpochMs : Z -> JS.Date.

Local Abbreviation procedure := (EmailOverageBilling.handleStripeWebhook Date_parse).
Local Abbreviation succeeded :=
  (StripeWebhook.handleInvoicePaymentSucceeded Date_ofEpochMs).
Local Abbreviation webhook := (StripeWebhook.handleStripeWebhook Date_ofEpochMs).
Local Abbreviation delivery := (deliver Date_parse Date_ofEpochMs).
Local Abbreviation deliveries := (deliver_all Date_parse Date_ofEpochMs).

Lemma steps_invoices_same (w w' : World) :
  emailOverageInvoices w' = emailOverageInvoices w -> steps_invoices w w'.
Proof.
  intro H. exists (fun r => r). rewrite map_id. split; [exact H |].
  apply status_step_refl.
Qed.

Lemma steps_invoices_trans (w w' w'' : World) :
  steps_invoices w w' -> steps_invoices w' w'' -> steps_invoices w w''.
Proof.
  intros (f & Hf & Hsf) (g & Hg & Hsg). exists (fun r => g (f r)). split.
  - rewrite Hg, Hf, map_map. reflexivity.
  - intro r. exact (status_step_trans _ _ _ (Hsf r) (Hsg (f r))).
Qed.

Lemma steps_invoices_procedure (input : EmailOverageBilling.WebhookInput) (w : World) :
  steps_invoices w (Run.after (procedure input) w).
Proof.
  unfold Run.after. destruct (database_available w) eqn:Hdb.
  - rewrite run_procedure by exact Hdb.
    destruct (find_invoice _ w) as [invoice |];
      [| apply steps_invoices_same; reflexivity].
    cbn [snd]. eexists. split.
    + unfold procedure_effect.
      destruct (EmailOverageBilling.in_status input); reflexivity.
    + apply status_step_update. intro r. unfold status_step. repeat split.
      cbn [status EmailOverageBilling.set_status].
      destruct (EmailOverageBilling.in_status input); auto.
  - unfold EmailOverageBilling.handleStripeWebhook.
    rewrite run_bind, run_getDb, Hdb. apply steps_invoices_same. reflexivity.
Qed.

Lemma steps_invoices_succeeded (event : StripeWebhook.StripeInvoice) (w : World) :
  steps_invoices w (Run.after (succeeded event) w).
Proof.
  unfold Run.after. destruct (database_available w) eqn:Hdb.
  - rewrite run_succeeded by exact Hdb.
    destruct (StripeWebhook.status_transition event) as [transition |];
      [| apply steps_invoices_same; reflexivity].
    destruct (find_invoice _ w) as [invoice |].
    + cbn [snd]. eexists. split; [reflexivity |].
      apply status_step_update. intro r. unfold status_step. repeat split.
      cbn [status StripeWebhook.set_email_paid]. auto.
    + destruct (find_sms_invoice _ w); apply steps_invoices_same; reflexivity.
  - unfold StripeWebhook.handleInvoicePaymentSucceeded.
    rewrite run_bind, run_getDb, Hdb. apply steps_invoices_same. reflexivity.
Qed.

Lemma steps_invoices_failed (event : StripeWebhook.StripeInvoice) (w : World) :
  steps_invoices w (Run.after (StripeWebhook.handleInvoicePaymentFailed event) w).
Proof.
  unfold Run.after. destruct (database_available w) eqn:Hdb.
  - rewrite run_failed by exact Hdb.
    destruct (find_invoice _ w) as [invoice |].
    + cbn [snd]. eexists. split; [reflexivity |].
      apply status_step_update. intro r. unfold status_step. repeat split.
      cbn [status StripeWebhook.set_email_failed]. auto.
    + destruct (find_sms_invoice _ w); apply steps_invoices_same; reflexivity.
  - unfold StripeWebhook.handleInvoicePaymentFailed.
    rewrite run_bind, run_getDb, Hdb. apply steps_invoices_same. reflexivity.
Qed.

(** A handler that throws is caught, reported on the console and rethrown:
    the invoice table is as the handler left it. *)
Lemma steps_invoices_try_catch {A : Type} (p : Proc A) (line : string) (w0 w : World) :
  steps_invoices w0 (Run.after p w) ->
  steps_invoices w0
    (Run.after
       (try_catch p (fun error => Db.console_write console_error line ;;; Throw error))
       w).
Proof.
  unfold Run.after. rewrite run_try_catch.
  destruct (Run.run p w) as [[e | a] w']; cbn [snd]; intro H; [| exact H].
  destruct H as (f & Hf & Hs). exists f. split; [exact Hf | exact Hs].
Qed.

Lemma steps_invoices_webhook (event : StripeWebhook.StripeEvent) (w : World) :
  steps_invoices w (Run.after (webhook event) w).
Proof.
  unfold StripeWebhook.handleStripeWebhook.
  set (w0 := Db.set_console w
               (console w ++ [(console_log,
                               "📨 Received Stripe webhook: "
                               ++ StripeWebhook.event_type event)])).
  assert (Hstart : forall (p : Proc (option StripeWebhook.Handled)),
             steps_invoices w0 (Run.after p w0) ->
             steps_invoices w
               (Run.after (Db.console_write console_log
                             ("📨 Received Stripe webhook: "
                              ++ StripeWebhook.event_type event) ;;; p) w)).
  { intros p H. unfold Run.after. rewrite run_bind. exact H. }
  apply Hstart. apply steps_invoices_try_catch.
  destruct (String.eqb (StripeWebhook.event_type event) "invoice.payment_succeeded");
    [apply steps_invoices_succeeded |].
  destruct (String.eqb (StripeWebhook.event_type event) "invoice.payment_failed");
    [apply steps_invoices_failed |].
  destruct (_ || _)%bool; apply steps_invoices_same; reflexivity.
Qed.

Lemma steps_invoices_deliver_all (ds : list Delivery) (w : World) :
  steps_invoices w (deliveries ds w).
Proof.
  revert w. induction ds as [| d ds IH]; intro w.
  - apply steps_invoices_same. reflexivity.
  - cbn [deliver_all]. apply (steps_invoices_trans w (delivery d w)); [| apply IH].
    destruct d as [input | event];
      [apply steps_invoices_procedure | apply steps_invoices_webhook].
Qed.

(** C2 (amended).  The billing router's [handleStripeWebhook] procedure
    overwrites the status of the invoice that matches the event's remote id
    with the status of the event, and [handleInvoicePaymentFailed], called
    directly or through [handleStripeWebhook] of [stripeWebhook.ts], sets it
    to failed, whatever the status was: paid becomes failed, and through the
    procedure failed becomes paid, as readily as pending becomes either.
    Through any sequence of events, by any handler, an invoice row keeps its
    key and its remote id, and its status is the one it had or is paid or
    failed: no event sets a status to pending or to cancelled. *)
Theorem C2_status_follows_the_last_event :
  (forall (w : World) (input : EmailOverageBilling.WebhookInput) (invoice : Invoice),
      database_available w = true ->
      find_invoice (EmailOverageBilling.in_stripeInvoiceId input) w = Some invoice ->
      exists stored,
        find_invoice (EmailOverageBilling.in_stripeInvoiceId input)
                     (Run.after (procedure input) w) = Some stored
        /\ status stored
           = EmailOverageBilling.to_status (EmailOverageBilling.in_status input))
  /\ (forall (w : World) (event : StripeWebhook.StripeInvoice) (invoice : Invoice),
         database_available w = true ->
         find_invoice (StripeWebhook.stripe_id event) w = Some invoice ->
         (exists stored,
            find_invoice (StripeWebhook.stripe_id event)
              (Run.after (StripeWebhook.handleInvoicePaymentFailed event) w)
            = Some stored
            /\ status stored = failed)
         /\ (exists stored,
               find_invoice (StripeWebhook.stripe_id event)
                 (Run.after
                    (webhook (StripeWebhook.mkStripeEvent "invoice.payment_failed"
                                                          event)) w)
               = Some stored
               /\ status stored = failed))
  /\ (forall (ds : list Delivery) (w : World) (n : nat) (invoice : Invoice),
         nth_error (emailOverageInvoices w) n = Some invoice ->
         exists stored,
           nth_error (emailOverageInvoices (deliveries ds w)) n = Some stored
           /\ status_step invoice stored).
Proof.
  split; [| split].
  - intros w input invoice Hdb Hfind. unfold Run.after.
    rewrite run_procedure by exact Hdb. rewrite Hfind. cbn [snd].
    eexists. split; [apply find_invoice_procedure_effect; exact Hfind | reflexivity].
  - intros w event invoice Hdb Hfind.
    assert (H : forall w', database_available w' = true ->
                find_invoice (StripeWebhook.stripe_id event) w' = Some invoice ->
                exists stored,
                  find_invoice (StripeWebhook.stripe_id event)
                    (snd (Run.run (StripeWebhook.handleInvoicePaymentFailed event) w'))
                  = Some stored
                  /\ status stored = failed).
    { intros w' Hdb' Hfind'. rewrite run_failed by exact Hdb'. rewrite Hfind'.
      cbn [snd]. eexists.
      split; [apply find_invoice_email_marked; [reflexivity | exact Hfind'] |].
      reflexivity. }
    split; [exact (H w Hdb Hfind) |].
    unfold Run.after. rewrite run_webhook_failed, run_try_catch.
    match goal with
    | |- context [Run.run (StripeWebhook.handleInvoicePaymentFailed event) ?w0] =>
        specialize (H w0 Hdb Hfind);
        destruct (Run.run (StripeWebhook.handleInvoicePaymentFailed event) w0)
          as [[e | a] w'] eqn:Hrun
    end.
    + rewrite run_failed in Hrun by exact Hdb.
      change (find_invoice (StripeWebhook.stripe_id event) (Db.set_console w ?l))
        with (find_invoice (StripeWebhook.stripe_id event) w) in Hrun.
      rewrite Hfind in Hrun. discriminate Hrun.
    + exact H.
  - intros ds w n invoice Hnth.
    destruct (steps_invoices_deliver_all ds w) as (f & Hf & Hs).
    exists (f invoice). split; [| apply Hs].
    rewrite Hf. rewrite nth_error_map, Hnth. reflexivity.
Qed.

End EventSequences.

Lemma C2_status_follows_the_last_event_witness :
  exists stored,
    find_invoice "in_1OqSalonNord"
      (Run.after (EmailOverageBilling.handleStripeWebhook Sample.date_of_string
                    Sample.failed_event) Sample.world_paid)
    = Some stored
    /\ status stored = failed.
Proof.
  exact (proj1 (C2_status_follows_the_last_event Sample.date_of_string Sample.date_of_ms)
               Sample.world_paid Sample.failed_event
               (EmailOverageBilling.set_status Sample.date_of_string Sample.paid_event
                  Sample.february_invoice)
               eq_refl eq_refl).
Defined.

(** C2, as stated, fails: the salon's invoice is paid, and a payment-failure
    event for its remote id then sets it to failed, through the billing
    router's procedure (which also clears [paidAt]) and through the Stripe
    webhook handler alike. *)
Lemma C2_paid_invoice_becomes_failed :
  option_map status (find_invoice "in_1OqSalonNord" Sample.world_paid) = Some paid
  /\ option_map status
       (find_invoice "in_1OqSalonNord"
          (Run.after (EmailOverageBilling.handleStripeWebhook Sample.date_of_string
                        Sample.failed_event) Sample.world_paid))
     = Some failed
  /\ option_map paidAt
       (find_invoice "in_1OqSalonNord"
          (Run.after (EmailOverageBilling.handleStripeWebhook Sample.date_of_string
                        Sample.failed_event) Sample.world_paid))
     = Some None
  /\ option_map status
       (find_invoice "in_1OqSalonNord"
          (Run.after (StripeWebhook.handleStripeWebhook Sample.date_of_ms
                        (StripeWebhook.mkStripeEvent "invoice.payment_failed"
                                                     Sample.stripe_invoice))
                     Sample.world_paid))
     = Some failed.
Proof. repeat split. Qed.

(** ** Events that match no invoice *)

Section Unmatched.

Variable Date_parse : string -> JS.Date.
Variable Date_ofEpochMs : Z -> JS.Date.

Local Abbreviation procedure := (EmailOverageBilling.handleStripeWebhook Date_parse).
Local Abbreviation webhook := (StripeWebhook.handleStripeWebhook Date_ofEpochMs).

(** C8 (amended).  For a payment-failure event whose remote id matches no
    invoice, [handleInvoicePaymentFailed], called directly or through
    [handleStripeWebhook] of [stripeWebhook.ts], writes a warning on the
    console and returns null without an error, and no table is modified; the
    billing router's [handleStripeWebhook] procedure, for an event of either
    status, modifies nothing either, but it rejects the event with the error
    NOT_FOUND. *)
Theorem C8_unmatched_event :
  forall (w : World) (remoteId : string),
    database_available w = true ->
    find_invoice remoteId w = None ->
    find_sms_invoice remoteId w = None ->
    (forall event : StripeWebhook.StripeInvoice,
        StripeWebhook.stripe_id event = remoteId ->
        Run.run (StripeWebhook.handleInvoicePaymentFailed event) w
        = (inr None, none_found remoteId w)
        /\ Run.result
             (webhook (StripeWebhook.mkStripeEvent "invoice.payment_failed" event)) w
           = inr None
        /\ tables (Run.after
                     (webhook (StripeWebhook.mkStripeEvent "invoice.payment_failed"
                                                           event)) w)
           = tables w
        /\ console (Run.after
                      (webhook (StripeWebhook.mkStripeEvent "invoice.payment_failed"
                                                            event)) w)
           = (console w
              ++ [(console_log, "📨 Received Stripe webhook: invoice.payment_failed");
                  (console_warn,
                   ("⚠️ No invoice found for Stripe invoice " ++ remoteId)%string)])%list)
    /\ tables (none_found remoteId w) = tables w
    /\ console (none_found remoteId w)
       = (console w
          ++ [(console_warn,
               ("⚠️ No invoice found for Stripe invoice " ++ remoteId)%string)])%list
    /\ (forall (status : EmailOverageBilling.WebhookStatus) (paidAt : option string),
           Run.run (procedure (EmailOverageBilling.mkWebhookInput remoteId status paidAt)) w
           = (inl invoice_not_found, w)).
Proof.
  intros w remoteId Hdb Hemail Hsms. split; [| split; [| split]].
  - intros event Hid.
    assert (Hf : forall w', tables w' = tables w ->
                 Run.run (StripeWebhook.handleInvoicePaymentFailed event) w'
                 = (inr None, none_found remoteId w')).
    { intros w' Ht. unfold tables in Ht. injection Ht as Hd Hten Hinv Hnext Hsm Hlogs.
      rewrite run_failed by congruence. rewrite Hid.
      unfold find_invoice, find_sms_invoice in *. rewrite Hinv, Hsm, Hemail, Hsms.
      reflexivity. }
    split; [apply Hf; reflexivity |].
    unfold Run.result, Run.after.
    rewrite run_webhook_failed, !run_try_catch.
    rewrite Hf by reflexivity.
    split; [reflexivity |]. split; [reflexivity |].
    unfold none_found. cbn [snd console Db.set_console].
    rewrite <- app_assoc. reflexivity.
  - reflexivity.
  - reflexivity.
  - intros status paidAt. rewrite run_procedure by exact Hdb.
    cbn [EmailOverageBilling.in_stripeInvoiceId]. rewrite Hemail. reflexivity.
Qed.

End Unmatched.

Lemma C8_unmatched_event_witness :
  Run.run (StripeWebhook.handleInvoicePaymentFailed Sample.stripe_unknown)
          Sample.world_billed
  = (inr None, none_found "in_unrelated" Sample.world_billed)
  /\ Run.run (EmailOverageBilling.handleStripeWebhook Sample.date_of_string
                Sample.unknown_event) Sample.world_billed
     = (inl invoice_not_found, Sample.world_billed).
Proof.
  destruct (C8_unmatched_event Sample.date_of_string Sample.date_of_ms
              Sample.world_billed "in_unrelated" eq_refl eq_refl eq_refl)
    as (Hwebhook & _ & _ & Hprocedure).
  split.
  - exact (proj1 (Hwebhook Sample.stripe_unknown eq_refl)).
  - exact (Hprocedure EmailOverageBilling.status_paid None).
Defined.

(** C8, as stated, fails for the billing router's procedure: an event whose
    remote id matches no invoice is answered with the error NOT_FOUND. *)
Lemma C8_procedure_throws_not_found :
  find_invoice "in_unrelated" Sample.world_billed = None
  /\ Run.result (EmailOverageBilling.handleStripeWebhook Sample.date_of_string
                   Sample.unknown_event) Sample.world_billed
     = inl (TRPCError NOT_FOUND "Invoice not found").
Proof. split; reflexivity. Qed.

(** ** Sends served together *)

Lemma sent_of_track_set (snapshot t : Tenant) :
  sent_of (EmailLimits.track_set snapshot t) = sent_of snapshot + 1.
Proof.
  unfold sent_of, EmailLimits.track_set, EmailLimits.track_used, JS.or_int.
  cbn [emailsSentThisMonth].
  destruct (emailsSentThisMonth snapshot) as [n |].
  - destruct (n =? 0) eqn:E.
    + apply Z.eqb_eq in E. subst n. reflexivity.
    + destruct (n + 1 =? 0) eqn:E'; [apply Z.eqb_eq in E'; lia | reflexivity].
  - reflexivity.
Qed.

Section Interleaving.

Variable z_email : string -> option string.
Variable tenantId : string.

Local Abbreviation request_at := (proc_at z_email tenantId).
Local Abbreviation pstep := (phase_step z_email tenantId).
Local Abbreviation pstep_at := (phase_step_at z_email tenantId).
Local Abbreviation pexec := (phase_exec z_email tenantId).
Local Abbreviation ok := (phase_ok z_email).
Local Abbreviation inv := (pool_inv z_email tenantId).
Local Abbreviation send := (EmailLimits.trackEmailSend z_email tenantId).

(** The phases follow the statements of the request. *)
Lemma step1_proc_at (r : EmailLimits.TrackInput * Phase) (w : World) :
  Pool.step1 (request_at r) w = (request_at (fst (pstep r w)), snd (pstep r w)).
Proof.
  destruct r as [input ph]. destruct ph; cbn.
  - unfold EmailLimits.trackEmailSend.
    destruct (EmailLimits.input_issue z_email input); [reflexivity |]. cbn.
    destruct (database_available w); reflexivity.
  - unfold find_tenant. destruct (find _ (tenants w)); reflexivity.
  - reflexivity.
  - reflexivity.
  - reflexivity.
  - reflexivity.
Qed.

Lemma step_at_proc_at (i : nat) (rs : list (EmailLimits.TrackInput * Phase)) (w : World) :
  Pool.step_at i (map request_at rs) w
  = (map request_at (fst (pstep_at i rs w)), snd (pstep_at i rs w)).
Proof.
  revert i. induction rs as [| r rs IH]; intro i; [destruct i; reflexivity |].
  destruct i as [| i]; cbn [map Pool.step_at phase_step_at].
  - rewrite step1_proc_at. destruct (pstep r w). reflexivity.
  - rewrite IH. destruct (pstep_at i rs w). reflexivity.
Qed.

Lemma exec_proc_at (schedule : list nat) (rs : list (EmailLimits.TrackInput * Phase))
      (w : World) :
  Pool.exec schedule (map request_at rs) w
  = (map request_at (fst (pexec schedule rs w)), snd (pexec schedule rs w)).
Proof.
  revert rs w. induction schedule as [| i schedule IH]; intros rs w; [reflexivity |].
  cbn [Pool.exec phase_exec]. rewrite step_at_proc_at.
  destruct (pstep_at i rs w) as [rs' w']. apply IH.
Qed.

Lemma phase_step_at_split (i : nat) (rs : list (EmailLimits.TrackInput * Phase))
      (w : World) :
  pstep_at i rs w = (rs, w)
  \/ exists pre r suf,
       rs = (pre ++ r :: suf)%list
       /\ pstep_at i rs w = ((pre ++ fst (pstep r w) :: suf)%list, snd (pstep r w)).
Proof.
  revert i. induction rs as [| r rs IH]; intro i; [left; destruct i; reflexivity |].
  destruct i as [| i]; cbn [phase_step_at].
  - right. exists [], r, rs. split; [reflexivity |].
    destruct (pstep r w). reflexivity.
  - destruct (IH i) as [Hsame | (pre & r' & suf & Hrs & Hstep)].
    + left. rewrite Hsame. reflexivity.
    + right. exists (r :: pre), r', suf. split; [rewrite Hrs; reflexivity |].
      rewrite Hstep. reflexivity.
Qed.

Lemma writes_app (pre suf : list (EmailLimits.TrackInput * Phase)) :
  writes (pre ++ suf) = writes pre + writes suf.
Proof. induction pre as [| r pre IH]; cbn [writes app]; lia. Qed.

Lemma writes_bounds (rs : list (EmailLimits.TrackInput * Phase)) :
  0 <= writes rs <= Z.of_nat (List.length rs).
Proof.
  induction rs as [| r rs IH]; cbn [writes List.length]; [lia |].
  destruct r as [input ph]. destruct ph; cbn [snd has_written]; lia.
Qed.

Lemma phase_ok_mono (prior n n' : Z) (r : EmailLimits.TrackInput * Phase) :
  n <= n' -> ok prior n r -> ok prior n' r.
Proof.
  unfold phase_ok. intro Hle. destruct (snd r); try (intro; assumption).
  intros [Hok Hb]. split; [exact Hok | lia].
Qed.

Lemma Forall_phase_ok_mono (prior n n' : Z) (rs : list (EmailLimits.TrackInput * Phase)) :
  n <= n' -> Forall (ok prior n) rs -> Forall (ok prior n') rs.
Proof.
  intros Hle H. eapply Forall_impl; [| exact H].
  intros r. apply phase_ok_mono. exact Hle.
Qed.

(** The step of one request keeps the invariant of the pool. *)
Lemma pool_inv_phase_step (prior : Z) (pre suf : list (EmailLimits.TrackInput * Phase))
      (r : EmailLimits.TrackInput * Phase) (w : World) :
  inv prior (pre ++ r :: suf) w ->
  inv prior (pre ++ fst (pstep r w) :: suf) (snd (pstep r w)).
Proof.
  unfold pool_inv. rewrite !writes_app. cbn [writes].
  intros (Hdb & (t & Hfind & Hbound & Hlow) & Hall).
  apply Forall_app in Hall. destruct Hall as [Hpre Hrest].
  inversion Hrest as [| r0 suf0 Hr Hsuf]; subst r0 suf0.
  destruct r as [input ph]. destruct ph as [| | snapshot | snapshot | snapshot | e];
    cbn [phase_step fst snd has_written] in *.
  - destruct (EmailLimits.input_issue z_email input) as [message |] eqn:Hissue.
    + cbn [fst snd has_written].
      split; [exact Hdb |]. split; [exists t; auto |].
      apply Forall_app. split; [exact Hpre |]. constructor; [| exact Hsuf].
      unfold phase_ok, EmailLimits.input_accepted. cbn [fst snd].
      rewrite Hissue. reflexivity.
    + rewrite Hdb. cbn [fst snd has_written].
      split; [exact Hdb |]. split; [exists t; auto |].
      apply Forall_app. split; [exact Hpre |]. constructor; [| exact Hsuf].
      unfold phase_ok, EmailLimits.input_accepted. cbn [fst snd].
      rewrite Hissue. reflexivity.
  - rewrite Hfind. cbn [fst snd has_written].
    split; [exact Hdb |]. split; [exists t; auto |].
    apply Forall_app. split; [exact Hpre |]. constructor; [| exact Hsuf].
    unfold phase_ok. cbn [fst snd]. split; [exact Hr | exact Hbound].
  - unfold phase_ok in Hr. cbn [fst snd] in Hr. destruct Hr as [Hok Hr].
    pose proof (writes_bounds pre) as Bpre. pose proof (writes_bounds suf) as Bsuf.
    split; [exact Hdb |]. split.
    + exists (EmailLimits.track_set snapshot t). split.
      * rewrite find_tenant_after_update by reflexivity. rewrite Hfind. reflexivity.
      * rewrite sent_of_track_set. lia.
    + apply Forall_app. split.
      * eapply Forall_phase_ok_mono; [| exact Hpre]. lia.
      * constructor; [exact Hok |]. eapply Forall_phase_ok_mono; [| exact Hsuf]. lia.
  - split; [exact Hdb |]. split; [exists t; auto |].
    apply Forall_app. split; [exact Hpre |]. constructor; [exact Hr | exact Hsuf].
  - split; [exact Hdb |]. split; [exists t; auto |].
    apply Forall_app. split; [exact Hpre |]. constructor; [exact Hr | exact Hsuf].
  - split; [exact Hdb |]. split; [exists t; auto |].
    apply Forall_app. split; [exact Hpre |]. constructor; [exact Hr | exact Hsuf].
Qed.

Lemma pool_inv_step_at (prior : Z) (i : nat)
      (rs : list (EmailLimits.TrackInput * Phase)) (w : World) :
  inv prior rs w ->
  inv prior (fst (pstep_at i rs w)) (snd (pstep_at i rs w)).
Proof.
  intro Hinv. destruct (phase_step_at_split i rs w)
    as [Hsame | (pre & r & suf & Hrs & Hstep)].
  - rewrite Hsame. exact Hinv.
  - rewrite Hstep. cbn [fst snd]. apply pool_inv_phase_step. rewrite <- Hrs. exact Hinv.
Qed.

Lemma pool_inv_exec (prior : Z) (schedule : list nat)
      (rs : list (EmailLimits.TrackInput * Phase)) (w : World) :
  inv prior rs w ->
  inv prior (fst (pexec schedule rs w)) (snd (pexec schedule rs w)).
Proof.
  revert rs w. induction schedule as [| i schedule IH]; intros rs w Hinv; [exact Hinv |].
  cbn [phase_exec]. pose proof (pool_inv_step_at prior i rs w Hinv) as Hstep.
  destruct (pstep_at i rs w) as [rs' w']. apply IH. exact Hstep.
Qed.

(** A step moves the phase of a request, never its input. *)
Lemma inputs_phase_step (r : EmailLimits.TrackInput * Phase) (w : World) :
  fst (fst (pstep r w)) = fst r.
Proof.
  destruct r as [input ph]. destruct ph; cbn [phase_step fst snd]; try reflexivity.
  - destruct (EmailLimits.input_issue z_email input); [reflexivity |].
    destruct (database_available w); reflexivity.
  - destruct (find_tenant tenantId w); reflexivity.
Qed.

Lemma inputs_phase_step_at (i : nat) (rs : list (EmailLimits.TrackInput * Phase))
      (w : World) :
  map fst (fst (pstep_at i rs w)) = map fst rs.
Proof.
  destruct (phase_step_at_split i rs w) as [Hsame | (pre & r & suf & Hrs & Hstep)].
  - rewrite Hsame. reflexivity.
  - rewrite Hstep, Hrs. cbn [fst]. rewrite !map_app. cbn [map].
    rewrite inputs_phase_step. reflexivity.
Qed.

Lemma inputs_phase_exec (schedule : list nat)
      (rs : list (EmailLimits.TrackInput * Phase)) (w : World) :
  map fst (fst (pexec schedule rs w)) = map fst rs.
Proof.
  revert rs w. induction schedule as [| i schedule IH]; intros rs w; [reflexivity |].
  cbn [phase_exec]. pose proof (inputs_phase_step_at i rs w) as Hin.
  destruct (pstep_at i rs w) as [rs' w']. rewrite IH. exact Hin.
Qed.

(** When every request has returned or thrown, those whose input the schema
    accepts have written, and only those. *)
Lemma writes_all_finished (prior n : Z) (rs : list (EmailLimits.TrackInput * Phase)) :
  Forall (ok prior n) rs ->
  Pool.all_finished (map request_at rs) = true ->
  writes rs = accepted z_email (map fst rs).
Proof.
  unfold Pool.all_finished, accepted.
  induction rs as [| r rs IH]; intros Hall Hfin; [reflexivity |].
  inversion Hall as [| r0 rs0 Hr Hrs]; subst r0 rs0.
  cbn [map forallb] in Hfin. apply andb_prop in Hfin. destruct Hfin as [Hf Hfs].
  cbn [writes map filter]. rewrite (IH Hrs Hfs).
  destruct r as [input ph]. unfold phase_ok in Hr.
  destruct ph; cbn [fst snd has_written proc_at Pool.finished] in *.
  - unfold EmailLimits.trackEmailSend in Hf. unfold EmailLimits.input_accepted.
    destruct (EmailLimits.input_issue z_email input); [reflexivity | discriminate Hf].
  - discriminate Hf.
  - discriminate Hf.
  - discriminate Hf.
  - rewrite Hr. cbn [List.length]. lia.
  - rewrite Hr. reflexivity.
Qed.

Lemma pool_inv_start (inputs : list EmailLimits.TrackInput) (w : World) (t0 : Tenant) :
  database_available w = true ->
  find_tenant tenantId w = Some t0 ->
  inv (sent_of t0) (map (fun input => (input, ph_start)) inputs) w.
Proof.
  intros Hdb Hfind.
  assert (Hw : writes (map (fun input => (input, ph_start)) inputs) = 0).
  { induction inputs as [| input inputs IH]; cbn [map writes snd has_written]; lia. }
  unfold pool_inv. rewrite Hw. split; [exact Hdb |]. split.
  - exists t0. split; [exact Hfind |]. lia.
  - apply Forall_forall. intros r Hin. apply in_map_iff in Hin.
    destruct Hin as (input & <- & _). exact I.
Qed.

Lemma serve_in_turn_cons {A : Type} (p : Proc A) (ps : list (Proc A)) (w : World) :
  serve_in_turn (p :: ps) w = serve_in_turn ps (Run.after p w).
Proof. reflexivity. Qed.

Lemma serve_in_turn_counts (inputs : list EmailLimits.TrackInput) (w : World)
      (t0 : Tenant) :
  database_available w = true ->
  find_tenant tenantId w = Some t0 ->
  exists t,
    find_tenant tenantId (serve_in_turn (map send inputs) w) = Some t
    /\ sent_of t = sent_of t0 + accepted z_email inputs.
Proof.
  unfold accepted.
  revert w t0. induction inputs as [| input inputs IH]; intros w t0 Hdb Hfind.
  - exists t0. split; [exact Hfind | cbn [filter List.length]; lia].
  - cbn [map filter]. rewrite serve_in_turn_cons. unfold Run.after at 1.
    destruct (EmailLimits.input_accepted z_email input) eqn:Hok.
    + rewrite (run_trackEmailSend z_email tenantId input w t0 Hok Hdb Hfind). cbn [snd].
      destruct (IH (Db.set_emailUsageLogs
                      (Db.set_tenants w
                         (Db.update_where (fun t => String.eqb (tenant_id t) tenantId)
                            (EmailLimits.track_set t0) (tenants w)))
                      (emailUsageLogs w ++ [EmailLimits.track_log tenantId input t0]))
                   (EmailLimits.track_set t0 t0)) as (t & Ht & Hsent).
      * exact Hdb.
      * apply find_tenant_after_track. exact Hfind.
      * exists t. split; [exact Ht |]. rewrite Hsent, sent_of_track_set.
        cbn [List.length]. lia.
    + destruct (run_trackEmailSend_rejected z_email tenantId input w Hok)
        as (message & _ & Hrun).
      rewrite Hrun. cbn [snd]. exact (IH w t0 Hdb Hfind).
Qed.

(** C3 (amended).  [trackEmailSend] reads the tenant row and writes the
    counter in two separate statements.  Of the calls for a tenant, those
    whose input the schema accepts count; the others are answered with
    BAD_REQUEST and write nothing.  N such calls served one after the other
    leave the counter at its prior value plus N.  N such calls served
    together, in whatever order their statements interleave, leave it, once
    all have returned, at most at the prior value plus N, and for N >= 1 at
    least at the prior value plus 1: increments can be lost. *)
Theorem C3_sends_served_together :
  forall (w : World) (inputs : list EmailLimits.TrackInput) (t0 : Tenant),
    database_available w = true ->
    find_tenant tenantId w = Some t0 ->
    let N := accepted z_email inputs in
    (exists t,
        find_tenant tenantId (serve_in_turn (map send inputs) w) = Some t
        /\ sent_of t = sent_of t0 + N)
    /\ forall schedule : list nat,
         Pool.all_finished (fst (Pool.exec schedule (map send inputs) w)) = true ->
         exists t,
           find_tenant tenantId (snd (Pool.exec schedule (map send inputs) w)) = Some t
           /\ sent_of t0 <= sent_of t <= sent_of t0 + N
           /\ (1 <= N -> sent_of t0 + 1 <= sent_of t).
Proof.
  intros w inputs t0 Hdb Hfind N.
  split; [exact (serve_in_turn_counts inputs w t0 Hdb Hfind) |].
  intros schedule Hfin.
  assert (Hmap : map send inputs
                 = map request_at (map (fun input => (input, ph_start)) inputs)).
  { rewrite map_map. reflexivity. }
  rewrite Hmap in *. rewrite exec_proc_at in *. cbn [fst snd] in *.
  pose proof (pool_inv_exec (sent_of t0) schedule _ w
                (pool_inv_start inputs w t0 Hdb Hfind)) as Hinv.
  pose proof (inputs_phase_exec schedule
                (map (fun input => (input, ph_start)) inputs) w) as Hin.
  rewrite map_map in Hin. cbn [fst] in Hin. rewrite map_id in Hin.
  destruct (pexec schedule (map (fun input => (input, ph_start)) inputs) w)
    as [rs w']. cbn [fst snd] in *.
  destruct Hinv as (_ & (t & Ht & Hbound & Hlow) & Hall).
  rewrite (writes_all_finished _ _ rs Hall Hfin), Hin in *.
  exists t. split; [exact Ht |]. split; [exact Hbound | exact Hlow].
Qed.

End Interleaving.

Lemma C3_sends_served_together_witness :
  exists t,
    find_tenant "7f3c2a10-salon-nord"
      (snd (Pool.exec Sample.both_read_first Sample.two_sends Sample.world)) = Some t
    /\ 620 + 1 <= sent_of t <= 620 + 2.
Proof.
  destruct (proj2 (C3_sends_served_together Sample.is_email "7f3c2a10-salon-nord"
                     Sample.world [Sample.welcome; Sample.reminder] Sample.salon
                     eq_refl eq_refl)
                  Sample.both_read_first eq_refl) as (t & Ht & Hbound & Hlow).
  exists t. split; [exact Ht |]. split; [apply Hlow; vm_compute; discriminate |].
  exact (proj2 Hbound).
Defined.

(** C3, as stated, fails.  Two sends for the salon, whose counter is at 620,
    are served together; both read the tenant row before either writes, both
    return, with [totalUsed] 621 each, and the counter is left at 621, not
    622: one increment is lost. *)
Lemma C3_lost_increment :
  Pool.all_finished
    (fst (Pool.exec Sample.both_read_first Sample.two_sends Sample.world)) = true
  /\ map (fun p => match p with
                   | Return r => Some (EmailLimits.track_totalUsed r)
                   | _ => None
                   end)
         (fst (Pool.exec Sample.both_read_first Sample.two_sends Sample.world))
     = [Some 621; Some 621]
  /\ option_map emailsSentThisMonth
       (find_tenant "7f3c2a10-salon-nord" Sample.world) = Some (Some 620)
  /\ option_map emailsSentThisMonth
       (find_tenant "7f3c2a10-salon-nord"
          (snd (Pool.exec Sample.both_read_first Sample.two_sends Sample.world)))
     = Some (Some 621)
  /\ List.length (emailUsageLogs
               (snd (Pool.exec Sample.both_read_first Sample.two_sends Sample.world)))
     = 2%nat
  /\ option_map emailsSentThisMonth
       (find_tenant "7f3c2a10-salon-nord"
          (serve_in_turn Sample.two_sends Sample.world))
     = Some (Some 622).
Proof. repeat split. Qed.

(* ------------------------------------------------------------------ *)
(** * Further properties *)

(** ** Refusals *)

Lemma run_getUsage_unavailable (now : JS.Date) (tenantId : string) (w : World) :
  database_available w = false ->
  Run.run (EmailLimits.getUsage now tenantId) w
  = (inl (TRPCError INTERNAL_SERVER_ERROR "Database not available"), w).
Proof.
  intro Hdb. unfold EmailLimits.getUsage. rewrite run_bind, run_getDb, Hdb. reflexivity.
Qed.

Lemma run_getUsage_missing (now : JS.Date) (tenantId : string) (w : World) :
  database_available w = true ->
  find_tenant tenantId w = None ->
  Run.run (EmailLimits.getUsage now tenantId) w
  = (inl (TRPCError NOT_FOUND "Tenant not found"), w).
Proof.
  intros Hdb Hfind. unfold find_tenant in Hfind. unfold EmailLimits.getUsage.
  rewrite run_bind, run_getDb, Hdb. simpl negb. cbv iota.
  rewrite run_bind, run_tenants_findFirst, Hfind. reflexivity.
Qed.

Lemma run_trackEmailSend_unavailable (z_email : string -> option string)
      (tenantId : string) (input : EmailLimits.TrackInput) (w : World) :
  EmailLimits.input_accepted z_email input = true ->
  database_available w = false ->
  Run.run (EmailLimits.trackEmailSend z_email tenantId input) w
  = (inl (TRPCError INTERNAL_SERVER_ERROR "Database not available"), w).
Proof.
  intros Hok Hdb. unfold EmailLimits.trackEmailSend.
  unfold EmailLimits.input_accepted in Hok.
  destruct (EmailLimits.input_issue z_email input); [discriminate Hok |].
  rewrite run_bind, run_getDb, Hdb. reflexivity.
Qed.

Lemma run_trackEmailSend_missing (z_email : string -> option string)
      (tenantId : string) (input : EmailLimits.TrackInput) (w : World) :
  EmailLimits.input_accepted z_email input = true ->
  database_available w = true ->
  find_tenant tenantId w = None ->
  Run.run (EmailLimits.trackEmailSend z_email tenantId input) w
  = (inl (TRPCError NOT_FOUND "Tenant not found"), w).
Proof.
  intros Hok Hdb Hfind. unfold find_tenant in Hfind. unfold EmailLimits.trackEmailSend.
  unfold EmailLimits.input_accepted in Hok.
  destruct (EmailLimits.input_issue z_email input); [discriminate Hok |].
  rewrite run_bind, run_getDb, Hdb. simpl negb. cbv iota.
  rewrite run_bind, run_tenants_findFirst, Hfind. reflexivity.
Qed.

(** X1.  A send for a tenant id that has no row is refused with NOT_FOUND: the
    counter of no tenant moves and nothing is written to the usage ledger;
    [getUsage] for such an id is refused alike and resets nothing. *)
Theorem send_for_unknown_tenant_writes_nothing :
  forall (z_email : string -> option string) (w : World) (now : JS.Date)
         (tenantId : string) (input : EmailLimits.TrackInput),
    EmailLimits.input_accepted z_email input = true ->
    database_available w = true ->
    (forall t, In t (tenants w) -> tenant_id t <> tenantId) ->
    Run.run (EmailLimits.trackEmailSend z_email tenantId input) w
    = (inl (TRPCError NOT_FOUND "Tenant not found"), w)
    /\ Run.run (EmailLimits.getUsage now tenantId) w
       = (inl (TRPCError NOT_FOUND "Tenant not found"), w).
Proof.
  intros z_email w now tenantId input Hok Hdb Hnone.
  assert (Hfind : find_tenant tenantId w = None).
  { unfold find_tenant. destruct (find _ (tenants w)) as [t |] eqn:E; [| reflexivity].
    apply find_some in E. destruct E as [Hin Heq]. apply String.eqb_eq in Heq.
    destruct (Hnone t Hin Heq). }
  split.
  - exact (run_trackEmailSend_missing z_email tenantId input w Hok Hdb Hfind).
  - exact (run_getUsage_missing now tenantId w Hdb Hfind).
Qed.

Lemma send_for_unknown_tenant_writes_nothing_witness :
  Run.run (EmailLimits.trackEmailSend Sample.is_email "a41d9e02-studio" Sample.welcome)
          Sample.world
  = (inl (TRPCError NOT_FOUND "Tenant not found"), Sample.world).
Proof.
  refine (proj1 (send_for_unknown_tenant_writes_nothing Sample.is_email Sample.world
                   Sample.mid_march "a41d9e02-studio" Sample.welcome
                   eq_refl eq_refl _)).
  intros t [<- | []]. discriminate.
Defined.

(** X2.  The schema comes first: an input with an address that zod rejects is
    answered with BAD_REQUEST and zod's message in every store, also when
    the database is not available or the tenant has no row, and nothing is
    written. *)
Theorem trackEmailSend_rejects_before_it_reads :
  forall (z_email : string -> option string) (w : World) (tenantId : string)
         (input : EmailLimits.TrackInput) (message : string),
    z_email (EmailLimits.recipientEmail input) = Some message ->
    Run.run (EmailLimits.trackEmailSend z_email tenantId input) w
    = (inl (TRPCError BAD_REQUEST message), w).
Proof.
  intros z_email w tenantId input message Hissue.
  unfold EmailLimits.trackEmailSend, EmailLimits.input_issue. rewrite Hissue.
  reflexivity.
Qed.

Lemma trackEmailSend_rejects_before_it_reads_witness :
  Run.run (EmailLimits.trackEmailSend Sample.is_email "7f3c2a10-salon-nord"
             (EmailLimits.mkTrackInput "welcome" "kari.example.no" None))
          Sample.world
  = (inl (TRPCError BAD_REQUEST "Invalid email"), Sample.world).
Proof.
  exact (trackEmailSend_rejects_before_it_reads Sample.is_email Sample.world
           "7f3c2a10-salon-nord"
           (EmailLimits.mkTrackInput "welcome" "kari.example.no" None)
           "Invalid email" eq_refl).
Defined.

(** ** The usage view and the send *)

Lemma limit_of_nonzero (t : Tenant) : limit_of t <> 0.
Proof.
  unfold limit_of, JS.or_int. destruct (emailMonthlyLimit t) as [n |]; [| discriminate].
  destruct (n =? 0) eqn:E; [discriminate | apply Z.eqb_neq; exact E].
Qed.

(** X3.  In the current period [getUsage] changes nothing, and its view
    balances: used + remaining = limit + overage count, with remaining and
    overage count non-negative and never both positive; the limit it reports
    is never 0. *)
Theorem getUsage_current_period_view_balances :
  forall (w : World) (now : JS.Date) (tenantId : string) (tenant : Tenant),
    database_available w = true ->
    find_tenant tenantId w = Some tenant ->
    EmailLimits.needsReset now tenant = false ->
    exists v,
      Run.run (EmailLimits.getUsage now tenantId) w = (inr v, w)
      /\ EmailLimits.view_used v = sent_of tenant
      /\ EmailLimits.view_limit v = limit_of tenant
      /\ EmailLimits.view_limit v <> 0
      /\ EmailLimits.view_used v + EmailLimits.view_remaining v
         = EmailLimits.view_limit v + EmailLimits.view_overageCount v
      /\ 0 <= EmailLimits.view_remaining v
      /\ 0 <= EmailLimits.view_overageCount v
      /\ (EmailLimits.view_remaining v = 0 \/ EmailLimits.view_overageCount v = 0).
Proof.
  intros w now tenantId tenant Hdb Hfind Hreset.
  exists (EmailLimits.usage_view tenant).
  rewrite (run_getUsage now tenantId w tenant Hdb Hfind), Hreset.
  split; [reflexivity |].
  pose proof (limit_of_nonzero tenant) as Hl.
  unfold EmailLimits.usage_view, JS.Math_max, sent_of, limit_of in *.
  cbn [EmailLimits.view_used EmailLimits.view_limit EmailLimits.view_remaining
       EmailLimits.view_overageCount].
  repeat split; try assumption; lia.
Qed.

Lemma getUsage_current_period_view_balances_witness :
  exists v,
    Run.run (EmailLimits.getUsage Sample.mid_march "a41d9e02-studio") Sample.world_studio
    = (inr v, Sample.world_studio)
    /\ EmailLimits.view_used v + EmailLimits.view_remaining v
       = EmailLimits.view_limit v + EmailLimits.view_overageCount v.
Proof.
  destruct (getUsage_current_period_view_balances Sample.world_studio Sample.mid_march
              "a41d9e02-studio" Sample.studio eq_refl eq_refl eq_refl)
    as (v & Hrun & _ & _ & _ & Hsum & _).
  exists v. split; assumption.
Defined.

Lemma track_isOverage_iff (tenant : Tenant) :
  EmailLimits.track_isOverage_of tenant = true <-> limit_of tenant <= sent_of tenant.
Proof.
  unfold EmailLimits.track_isOverage_of, EmailLimits.track_limit, EmailLimits.track_used,
    limit_of, sent_of.
  rewrite Z.ltb_lt. lia.
Qed.

(** X4.  [trackEmailSend] counts the send and treats it as overage exactly when
    the stored counter has already reached the limit: the first [limit]
    sends of a period are free.  It returns the new counter and what remains
    of the limit (0 on an overage), and appends to the usage ledger one row,
    for that tenant, with the same overage flag and, when the send is free,
    a cost of 0.00. *)
Theorem trackEmailSend_counts_overage_past_the_limit :
  forall (z_email : string -> option string) (w : World) (tenantId : string)
         (input : EmailLimits.TrackInput) (tenant : Tenant),
    EmailLimits.input_accepted z_email input = true ->
    database_available w = true ->
    find_tenant tenantId w = Some tenant ->
    exists r row,
      Run.result (EmailLimits.trackEmailSend z_email tenantId input) w = inr r
      /\ EmailLimits.track_totalUsed r = sent_of tenant + 1
      /\ (EmailLimits.track_isOverage r = true <-> limit_of tenant <= sent_of tenant)
      /\ EmailLimits.track_remaining r = Z.max 0 (limit_of tenant - sent_of tenant - 1)
      /\ (EmailLimits.track_isOverage r = true -> EmailLimits.track_remaining r = 0)
      /\ (EmailLimits.track_isOverage r = false ->
          EmailLimits.track_overageCost r = 0%float)
      /\ emailUsageLogs (Run.after (EmailLimits.trackEmailSend z_email tenantId input) w)
         = (emailUsageLogs w ++ [row])%list
      /\ log_tenantId row = tenantId
      /\ log_recipientEmail row = EmailLimits.recipientEmail input
      /\ log_isOverage row = EmailLimits.track_isOverage r
      /\ (EmailLimits.track_isOverage r = false -> log_overageCost row = 0).
Proof.
  intros z_email w tenantId input tenant Hok Hdb Hfind.
  exists (EmailLimits.track_result tenant), (EmailLimits.track_log tenantId input tenant).
  unfold Run.result, Run.after.
  rewrite (run_trackEmailSend z_email tenantId input w tenant Hok Hdb Hfind).
  cbn [fst snd].
  pose proof (track_isOverage_iff tenant) as Hiff.
  cbn [EmailLimits.track_result EmailLimits.track_totalUsed EmailLimits.track_isOverage
       EmailLimits.track_remaining EmailLimits.track_overageCost
       EmailLimits.track_log log_tenantId log_isOverage log_overageCost
       log_recipientEmail emailUsageLogs Db.set_emailUsageLogs].
  split; [reflexivity |]. split; [reflexivity |]. split; [exact Hiff |].
  split.
  { unfold JS.Math_max, EmailLimits.track_limit, EmailLimits.track_used, limit_of, sent_of.
    f_equal. lia. }
  split.
  { intro Hov. apply Hiff in Hov.
    unfold JS.Math_max, EmailLimits.track_limit, EmailLimits.track_used, limit_of, sent_of
      in *. lia. }
  split.
  { intro Hfree. unfold EmailLimits.track_overageCost_of. rewrite Hfree. reflexivity. }
  split; [reflexivity |]. split; [reflexivity |]. split; [reflexivity |].
  split; [reflexivity |].
  intro Hfree. unfold EmailLimits.track_overageCost_of. rewrite Hfree. reflexivity.
Qed.

Lemma trackEmailSend_counts_overage_past_the_limit_witness :
  exists r,
    Run.result (EmailLimits.trackEmailSend Sample.is_email "a41d9e02-studio"
                  Sample.welcome)
               Sample.world_studio = inr r
    /\ EmailLimits.track_totalUsed r = 146
    /\ EmailLimits.track_remaining r = 854.
Proof.
  destruct (trackEmailSend_counts_overage_past_the_limit Sample.is_email
              Sample.world_studio "a41d9e02-studio" Sample.welcome Sample.studio
              eq_refl eq_refl eq_refl)
    as (r & row & Hr & Hused & _ & Hrem & _).
  exists r. split; [exact Hr |]. split; [exact Hused | exact Hrem].
Defined.

Lemma needsReset_track_set (now : JS.Date) (snapshot t : Tenant) :
  EmailLimits.needsReset now (EmailLimits.track_set snapshot t)
  = EmailLimits.needsReset now t.
Proof. reflexivity. Qed.

Lemma limit_of_track_set (snapshot t : Tenant) :
  limit_of (EmailLimits.track_set snapshot t) = limit_of t.
Proof. reflexivity. Qed.

Lemma find_tenant_after_send (z_email : string -> option string) (tenantId : string)
      (input : EmailLimits.TrackInput) (w : World) (tenant : Tenant) :
  EmailLimits.input_accepted z_email input = true ->
  database_available w = true ->
  find_tenant tenantId w = Some tenant ->
  database_available (Run.after (EmailLimits.trackEmailSend z_email tenantId input) w)
  = true
  /\ find_tenant tenantId
       (Run.after (EmailLimits.trackEmailSend z_email tenantId input) w)
     = Some (EmailLimits.track_set tenant tenant).
Proof.
  intros Hok Hdb Hfind. unfold Run.after.
  rewrite (run_trackEmailSend z_email tenantId input w tenant Hok Hdb Hfind). cbn [snd].
  split; [exact Hdb |]. apply find_tenant_after_track. exact Hfind.
Qed.

(** X5.  What a send returns is what [getUsage] reports right after it, in the
    same period: the same counter and the same remainder, and an overage
    count that is positive exactly when the send was an overage. *)
Theorem getUsage_after_send_agrees_with_the_send :
  forall (z_email : string -> option string) (w : World) (now : JS.Date)
         (tenantId : string) (input : EmailLimits.TrackInput) (tenant : Tenant),
    EmailLimits.input_accepted z_email input = true ->
    database_available w = true ->
    find_tenant tenantId w = Some tenant ->
    EmailLimits.needsReset now tenant = false ->
    exists r v,
      Run.result (EmailLimits.trackEmailSend z_email tenantId input) w = inr r
      /\ Run.result (EmailLimits.getUsage now tenantId)
                    (Run.after (EmailLimits.trackEmailSend z_email tenantId input) w)
         = inr v
      /\ EmailLimits.view_used v = EmailLimits.track_totalUsed r
      /\ EmailLimits.view_remaining v = EmailLimits.track_remaining r
      /\ (0 < EmailLimits.view_overageCount v <-> EmailLimits.track_isOverage r = true).
Proof.
  intros z_email w now tenantId input tenant Hok Hdb Hfind Hreset.
  destruct (find_tenant_after_send z_email tenantId input w tenant Hok Hdb Hfind)
    as [Hdb1 Hfind1].
  exists (EmailLimits.track_result tenant),
         (EmailLimits.usage_view (EmailLimits.track_set tenant tenant)).
  split.
  { unfold Run.result.
    rewrite (run_trackEmailSend z_email tenantId input w tenant Hok Hdb Hfind).
    reflexivity. }
  split.
  { unfold Run.result. rewrite (run_getUsage now tenantId _ _ Hdb1 Hfind1).
    rewrite needsReset_track_set, Hreset. reflexivity. }
  pose proof (track_isOverage_iff tenant) as Hiff.
  pose proof (sent_of_track_set tenant tenant) as Hsent.
  unfold EmailLimits.usage_view, EmailLimits.track_result.
  cbn [EmailLimits.view_used EmailLimits.view_remaining EmailLimits.view_overageCount
       EmailLimits.track_totalUsed EmailLimits.track_remaining EmailLimits.track_isOverage].
  fold (sent_of (EmailLimits.track_set tenant tenant)).
  fold (limit_of (EmailLimits.track_set tenant tenant)).
  rewrite limit_of_track_set, Hsent.
  unfold JS.Math_max, EmailLimits.track_limit, EmailLimits.track_used.
  fold (sent_of tenant). fold (limit_of tenant).
  split; [reflexivity |]. split; [reflexivity |].
  rewrite Hiff. lia.
Qed.

Lemma getUsage_after_send_agrees_with_the_send_witness :
  exists r v,
    Run.result (EmailLimits.trackEmailSend Sample.is_email "a41d9e02-studio"
                  Sample.welcome)
               Sample.world_studio = inr r
    /\ Run.result (EmailLimits.getUsage Sample.mid_march "a41d9e02-studio")
                  (Run.after (EmailLimits.trackEmailSend Sample.is_email
                                "a41d9e02-studio" Sample.welcome)
                             Sample.world_studio) = inr v
    /\ EmailLimits.view_used v = EmailLimits.track_totalUsed r.
Proof.
  destruct (getUsage_after_send_agrees_with_the_send Sample.is_email Sample.world_studio
              Sample.mid_march "a41d9e02-studio" Sample.welcome Sample.studio
              eq_refl eq_refl eq_refl eq_refl)
    as (r & v & Hr & Hv & Hused & _).
  exists r, v. repeat split; assumption.
Defined.

(** ** The usage ledger and the counter *)

Lemma overage_rows_app (logs more : list EmailUsageLog) :
  overage_rows (logs ++ more) = overage_rows logs + overage_rows more.
Proof.
  unfold overage_rows. rewrite filter_app, length_app. lia.
Qed.

Lemma overage_of_track_set (tenant : Tenant) :
  overage_of (EmailLimits.track_set tenant tenant)
  = overage_of tenant + (if EmailLimits.track_isOverage_of tenant then 1 else 0).
Proof.
  pose proof (track_isOverage_iff tenant) as Hiff.
  unfold overage_of. rewrite limit_of_track_set, sent_of_track_set.
  destruct (EmailLimits.track_isOverage_of tenant).
  - assert (limit_of tenant <= sent_of tenant) by (apply Hiff; reflexivity). lia.
  - assert (~ limit_of tenant <= sent_of tenant) by (intro H; apply Hiff in H; discriminate).
    lia.
Qed.

Lemma logs_after_send (z_email : string -> option string) (tenantId : string)
      (input : EmailLimits.TrackInput) (w : World) (tenant : Tenant) :
  EmailLimits.input_accepted z_email input = true ->
  database_available w = true ->
  find_tenant tenantId w = Some tenant ->
  emailUsageLogs (Run.after (EmailLimits.trackEmailSend z_email tenantId input) w)
  = (emailUsageLogs w ++ [EmailLimits.track_log tenantId input tenant])%list.
Proof.
  intros Hok Hdb Hfind. unfold Run.after.
  rewrite (run_trackEmailSend z_email tenantId input w tenant Hok Hdb Hfind).
  reflexivity.
Qed.

(** X6.  Over any number of sends for a tenant, served one after the other, the
    usage ledger and the counter stay in step: every send that the schema
    accepts appends one row for that tenant, the others none, and the rows
    flagged as overage are as many as the overage (counter above limit) has
    grown. *)
Theorem ledger_overage_rows_match_the_counter :
  forall (z_email : string -> option string) (tenantId : string)
         (inputs : list EmailLimits.TrackInput) (w : World) (t0 : Tenant),
    database_available w = true ->
    find_tenant tenantId w = Some t0 ->
    exists t more,
      find_tenant tenantId
        (serve_in_turn (map (EmailLimits.trackEmailSend z_email tenantId) inputs) w)
      = Some t
      /\ emailUsageLogs
           (serve_in_turn (map (EmailLimits.trackEmailSend z_email tenantId) inputs) w)
         = (emailUsageLogs w ++ more)%list
      /\ Z.of_nat (List.length more) = accepted z_email inputs
      /\ Forall (fun row => log_tenantId row = tenantId) more
      /\ overage_rows more = overage_of t - overage_of t0.
Proof.
  intros z_email tenantId inputs. unfold accepted.
  induction inputs as [| input inputs IH]; intros w t0 Hdb Hfind.
  - exists t0, []. cbn [map]. unfold serve_in_turn. cbn [fold_left].
    rewrite app_nil_r. repeat split; [exact Hfind | constructor | ].
    unfold overage_rows. cbn. lia.
  - cbn [map filter]. rewrite serve_in_turn_cons.
    destruct (EmailLimits.input_accepted z_email input) eqn:Hok.
    + destruct (find_tenant_after_send z_email tenantId input w t0 Hok Hdb Hfind)
        as [Hdb1 Hfind1].
      destruct (IH _ _ Hdb1 Hfind1) as (t & more & Ht & Hlogs & Hlen & Hall & Hov).
      exists t, (EmailLimits.track_log tenantId input t0 :: more).
      split; [exact Ht |]. split.
      { rewrite Hlogs, (logs_after_send z_email tenantId input w t0 Hok Hdb Hfind).
        rewrite <- app_assoc. reflexivity. }
      split; [cbn [List.length]; lia |].
      split; [constructor; [reflexivity | exact Hall] |].
      change (EmailLimits.track_log tenantId input t0 :: more)
        with ([EmailLimits.track_log tenantId input t0] ++ more)%list.
      rewrite overage_rows_app, Hov, overage_of_track_set.
      unfold overage_rows. cbn [filter EmailLimits.track_log log_isOverage].
      destruct (EmailLimits.track_isOverage_of t0); cbn [List.length]; lia.
    + destruct (run_trackEmailSend_rejected z_email tenantId input w Hok)
        as (message & _ & Hrun).
      unfold Run.after. rewrite Hrun. cbn [snd].
      exact (IH w t0 Hdb Hfind).
Qed.

Lemma ledger_overage_rows_match_the_counter_witness :
  exists t more,
    find_tenant "7f3c2a10-salon-nord" (serve_in_turn Sample.two_sends Sample.world) = Some t
    /\ emailUsageLogs (serve_in_turn Sample.two_sends Sample.world)
       = (emailUsageLogs Sample.world ++ more)%list
    /\ overage_rows more = overage_of t - overage_of Sample.salon.
Proof.
  destruct (ledger_overage_rows_match_the_counter Sample.is_email "7f3c2a10-salon-nord"
              [Sample.welcome; Sample.reminder] Sample.world Sample.salon eq_refl eq_refl)
    as (t & more & Ht & Hlogs & _ & _ & Hov).
  exists t, more. repeat split; assumption.
Defined.

(** ** Invoice generation: what is written, and when *)

Section Invoicing.

Variable Date_parse : string -> JS.Date.
Variable Date_plusDays : JS.Date -> Z -> JS.Date.
Variable Date_toISODate : JS.Date -> option string.
Variable toUpperCase : string -> string.

Local Abbreviation generate :=
  (EmailOverageBilling.generateMonthlyInvoice
     Date_parse Date_plusDays Date_toISODate toUpperCase).

Lemma run_generate_unavailable (input : EmailOverageBilling.GenerateInput) (w : World) :
  database_available w = false ->
  Run.run (generate input) w
  = (inl (TRPCError INTERNAL_SERVER_ERROR "Database not available"), w).
Proof.
  intro Hdb. unfold EmailOverageBilling.generateMonthlyInvoice.
  rewrite run_bind, run_getDb, Hdb. reflexivity.
Qed.

(** X7.  [generateMonthlyInvoice] is all or nothing.  Either it throws and the
    store is as it was; or it returns the key and the total of one new row,
    appended to the invoice table under the next key of the table: a pending
    invoice of the tenant and period asked for, without remote id or payment
    date, for a positive number of emails over the limit.  Nothing else is
    written; in particular the tenant's counter and accrued charge stay as
    they are. *)
Theorem generateMonthlyInvoice_all_or_nothing :
  forall (w : World) (input : EmailOverageBilling.GenerateInput),
    (exists e, Run.run (generate input) w = (inl e, w))
    \/ (exists r row,
          Run.run (generate input) w
          = (inr r, Db.set_emailOverageInvoices w
                      (emailOverageInvoices w ++ [row])
                      (emailOverageInvoices_nextId w + 1))
          /\ invoice_id row = emailOverageInvoices_nextId w
          /\ EmailOverageBilling.gen_invoiceId r = invoice_id row
          /\ EmailOverageBilling.gen_invoiceNumber r = invoiceNumber row
          /\ EmailOverageBilling.gen_totalAmount r = totalAmount row
          /\ status row = pending
          /\ stripeInvoiceId row = None
          /\ paidAt row = None
          /\ invoice_tenantId row = EmailOverageBilling.in_tenantId input
          /\ billingPeriodStart row = EmailOverageBilling.in_billingPeriodStart input
          /\ billingPeriodEnd row = EmailOverageBilling.in_billingPeriodEnd input
          /\ 0 < emailsOverLimit row).
Proof.
  intros w input. destruct (database_available w) eqn:Hdb.
  - rewrite (run_generateMonthlyInvoice Date_parse Date_plusDays Date_toISODate
               toUpperCase input w Hdb).
    destruct (find_tenant _ w) as [tenant |]; [| left; eexists; reflexivity].
    destruct (find _ (emailOverageInvoices w)); [left; eexists; reflexivity |].
    destruct (EmailOverageBilling.emailsOverLimit_of tenant =? 0) eqn:Hover;
      [left; eexists; reflexivity |].
    destruct (Date_toISODate _) as [dueDate |]; [| left; eexists; reflexivity].
    right. eexists. eexists. split; [reflexivity |].
    cbn [EmailOverageBilling.new_invoice invoice_id EmailOverageBilling.gen_invoiceId
         EmailOverageBilling.gen_invoiceNumber EmailOverageBilling.gen_totalAmount
         invoiceNumber totalAmount status stripeInvoiceId paidAt invoice_tenantId
         billingPeriodStart billingPeriodEnd emailsOverLimit].
    repeat split.
    apply Z.eqb_neq in Hover. unfold EmailOverageBilling.emailsOverLimit_of, JS.Math_max in *.
    lia.
  - left. eexists. apply run_generate_unavailable. exact Hdb.
Qed.

(** X8.  A tenant whose counter is at or below its limit is never invoiced: the
    call throws and inserts nothing.  The error is CONFLICT when an invoice
    of the period exists, and BAD_REQUEST, no overage to bill, otherwise. *)
Theorem no_invoice_at_or_below_the_limit :
  forall (w : World) (input : EmailOverageBilling.GenerateInput) (tenant : Tenant),
    database_available w = true ->
    find_tenant (EmailOverageBilling.in_tenantId input) w = Some tenant ->
    sent_of tenant <= limit_of tenant ->
    Run.run (generate input) w
    = (inl (match find (EmailOverageBilling.same_period input) (emailOverageInvoices w) with
            | Some _ => conflict
            | None => TRPCError BAD_REQUEST "No overage to bill"
            end), w).
Proof.
  intros w input tenant Hdb Hfind Hle.
  rewrite (run_generateMonthlyInvoice Date_parse Date_plusDays Date_toISODate
             toUpperCase input w Hdb), Hfind.
  destruct (find _ (emailOverageInvoices w)); [reflexivity |].
  replace (EmailOverageBilling.emailsOverLimit_of tenant =? 0) with true; [reflexivity |].
  symmetry. apply Z.eqb_eq.
  unfold EmailOverageBilling.emailsOverLimit_of, JS.Math_max, sent_of, limit_of in *. lia.
Qed.

Lemma same_period_other (a b : EmailOverageBilling.GenerateInput) (tenant : Tenant)
      (dueDate : string) (id : Z) :
  (EmailOverageBilling.in_billingPeriodStart a <> EmailOverageBilling.in_billingPeriodStart b
   \/ EmailOverageBilling.in_billingPeriodEnd a <> EmailOverageBilling.in_billingPeriodEnd b) ->
  EmailOverageBilling.same_period b
    (EmailOverageBilling.new_invoice Date_parse toUpperCase a tenant dueDate id) = false.
Proof.
  intro Hdiff. unfold EmailOverageBilling.same_period.
  cbn [EmailOverageBilling.new_invoice invoice_tenantId billingPeriodStart billingPeriodEnd].
  destruct Hdiff as [H | H]; apply String.eqb_neq in H; rewrite H;
    rewrite ?andb_false_r; reflexivity.
Qed.

(** X9.  Invoicing does not settle the counter.  After an invoice has been
    created for one period, a call for another period of the same tenant,
    of which the table holds no invoice, creates a second invoice for the
    same emails over the limit and of the same total: the overage is read
    from the tenant's running counter, whatever period is named. *)
Theorem second_period_bills_the_same_overage :
  forall (w : World) (a b : EmailOverageBilling.GenerateInput)
         (ra : EmailOverageBilling.GenerateResult) (dueDate : string),
    database_available w = true ->
    Run.result (generate a) w = inr ra ->
    EmailOverageBilling.in_tenantId b = EmailOverageBilling.in_tenantId a ->
    (EmailOverageBilling.in_billingPeriodStart a <> EmailOverageBilling.in_billingPeriodStart b
     \/ EmailOverageBilling.in_billingPeriodEnd a <> EmailOverageBilling.in_billingPeriodEnd b) ->
    find (EmailOverageBilling.same_period b) (emailOverageInvoices w) = None ->
    Date_toISODate (Date_plusDays (Date_parse (EmailOverageBilling.in_billingPeriodEnd b)) 30)
    = Some dueDate ->
    exists rb rowa rowb,
      Run.result (generate b) (Run.after (generate a) w) = inr rb
      /\ emailOverageInvoices (Run.after (generate b) (Run.after (generate a) w))
         = (emailOverageInvoices w ++ [rowa; rowb])%list
      /\ emailsOverLimit rowb = emailsOverLimit rowa
      /\ subtotal rowb = subtotal rowa
      /\ totalAmount rowb = totalAmount rowa
      /\ EmailOverageBilling.gen_totalAmount rb = EmailOverageBilling.gen_totalAmount ra
      /\ invoice_id rowb = invoice_id rowa + 1.
Proof.
  intros w a b ra dueDate Hdb Hra Hid Hdiff Hnone Hdue.
  unfold Run.result, Run.after in *.
  rewrite (run_generateMonthlyInvoice Date_parse Date_plusDays Date_toISODate
             toUpperCase a w Hdb) in *.
  destruct (find_tenant (EmailOverageBilling.in_tenantId a) w) as [tenant |] eqn:Hfind;
    [| discriminate].
  destruct (find (EmailOverageBilling.same_period a) (emailOverageInvoices w));
    [discriminate |].
  destruct (EmailOverageBilling.emailsOverLimit_of tenant =? 0) eqn:Hover; [discriminate |].
  destruct (Date_toISODate (Date_plusDays (Date_parse
              (EmailOverageBilling.in_billingPeriodEnd a)) 30)) as [dueA |];
    [| discriminate].
  cbn [fst snd] in *. injection Hra as Hra. subst ra.
  rewrite run_generateMonthlyInvoice by exact Hdb.
  rewrite Hid.
  replace (find_tenant (EmailOverageBilling.in_tenantId a)
             (Db.set_emailOverageInvoices w _ _)) with (Some tenant)
    by (symmetry; exact Hfind).
  cbn [emailOverageInvoices Db.set_emailOverageInvoices emailOverageInvoices_nextId].
  rewrite (find_app_none _ _ _ Hnone). cbn [find].
  rewrite (same_period_other a b tenant dueA _ Hdiff), Hover, Hdue.
  cbn [fst snd emailOverageInvoices Db.set_emailOverageInvoices].
  eexists. eexists. eexists. split; [reflexivity |].
  split; [rewrite <- app_assoc; reflexivity |].
  repeat split.
Qed.

End Invoicing.

Lemma no_invoice_at_or_below_the_limit_witness :
  Run.run (EmailOverageBilling.generateMonthlyInvoice
             (fun _ => JS.mkDate 2024 2 31 0) (fun d _ => JS.mkDate 2024 3 30 0)
             (fun _ => Some "2024-04-30") Sample.upper
             (EmailOverageBilling.mkGenerateInput "a41d9e02-studio" "2024-03-01" "2024-03-31"))
          Sample.world_studio
  = (inl (TRPCError BAD_REQUEST "No overage to bill"), Sample.world_studio).
Proof.
  refine (no_invoice_at_or_below_the_limit
            (fun _ => JS.mkDate 2024 2 31 0) (fun d _ => JS.mkDate 2024 3 30 0)
            (fun _ => Some "2024-04-30") Sample.upper Sample.world_studio
            (EmailOverageBilling.mkGenerateInput "a41d9e02-studio" "2024-03-01" "2024-03-31")
            Sample.studio eq_refl eq_refl _).
  unfold sent_of, limit_of. simpl. lia.
Defined.

Lemma second_period_bills_the_same_overage_witness :
  exists rb rowa rowb,
    Run.result (EmailOverageBilling.generateMonthlyInvoice
                  (fun _ => JS.mkDate 2024 1 29 0) (fun d _ => JS.mkDate 2024 2 30 0)
                  (fun _ => Some "2024-03-30") Sample.upper
                  (EmailOverageBilling.mkGenerateInput
                     "7f3c2a10-salon-nord" "2024-01-01" "2024-01-31"))
               Sample.world_invoiced = inr rb
    /\ emailOverageInvoices
         (Run.after (EmailOverageBilling.generateMonthlyInvoice
                       (fun _ => JS.mkDate 2024 1 29 0) (fun d _ => JS.mkDate 2024 2 30 0)
                       (fun _ => Some "2024-03-30") Sample.upper
                       (EmailOverageBilling.mkGenerateInput
                          "7f3c2a10-salon-nord" "2024-01-01" "2024-01-31"))
                    Sample.world_invoiced)
       = (emailOverageInvoices Sample.world ++ [rowa; rowb])%list
    /\ totalAmount rowb = totalAmount rowa.
Proof.
  assert (Hdiff : "2024-02-01" <> "2024-01-01") by discriminate.
  destruct (second_period_bills_the_same_overage
              (fun _ => JS.mkDate 2024 1 29 0) (fun d _ => JS.mkDate 2024 2 30 0)
              (fun _ => Some "2024-03-30") Sample.upper Sample.world
              Sample.february_input
              (EmailOverageBilling.mkGenerateInput
                 "7f3c2a10-salon-nord" "2024-01-01" "2024-01-31")
              (EmailOverageBilling.mkGenerateResult true 1 "INV-202402-7F3C2A10" 1500)
              "2024-03-30" eq_refl eq_refl eq_refl (or_introl Hdiff) eq_refl eq_refl)
    as (rb & rowa & rowb & Hrb & Hrows & _ & _ & Htotal & _).
  exists rb, rowa, rowb. split; [exact Hrb |]. split; [exact Hrows | exact Htotal].
Defined.

(** ** Procedures for one tenant *)

Lemma filter_update_where_others {R : Type} (c : R -> bool) (set : R -> R)
      (rows : list R) :
  (forall r, c (set r) = c r) ->
  filter (fun r => negb (c r)) (Db.update_where c set rows)
  = filter (fun r => negb (c r)) rows.
Proof.
  intro Hc. unfold Db.update_where. induction rows as [| r rows IH]; [reflexivity |].
  cbn [map filter]. destruct (c r) eqn:E.
  - rewrite Hc, E. exact IH.
  - rewrite E. cbn [negb]. rewrite IH. reflexivity.
Qed.

Lemma only_tenant_touched_refl (tenantId : string) (w : World) :
  only_tenant_touched tenantId w w.
Proof. repeat split. Qed.

Lemma only_tenant_touched_update (tenantId : string) (set : Tenant -> Tenant)
      (w : World) :
  (forall t, tenant_id (set t) = tenant_id t) ->
  only_tenant_touched tenantId w
    (Db.set_tenants w
       (Db.update_where (fun t => String.eqb (tenant_id t) tenantId) set (tenants w))).
Proof.
  intro Hid. unfold only_tenant_touched, other_tenants.
  cbn [Db.set_tenants database_available tenants emailOverageInvoices
       emailOverageInvoices_nextId smsOverageInvoices console].
  split; [reflexivity |]. split.
  - apply (filter_update_where_others (fun t => String.eqb (tenant_id t) tenantId)).
    intro r. rewrite Hid. reflexivity.
  - split; [| repeat split]. apply map_update_where_frame. exact Hid.
Qed.

(** X14.  [getUsage] and [trackEmailSend] touch the row of their tenant only, in
    whatever store and with whatever input: the rows of the other tenants,
    the keys of all rows, the invoice tables and the console are as they
    were; and [getUsage] appends nothing to the usage ledger. *)
Theorem usage_procedures_touch_only_their_tenant :
  forall (z_email : string -> option string) (now : JS.Date) (tenantId : string)
         (input : EmailLimits.TrackInput) (w : World),
    only_tenant_touched tenantId w (Run.after (EmailLimits.getUsage now tenantId) w)
    /\ emailUsageLogs (Run.after (EmailLimits.getUsage now tenantId) w)
       = emailUsageLogs w
    /\ only_tenant_touched tenantId w
         (Run.after (EmailLimits.trackEmailSend z_email tenantId input) w).
Proof.
  intros z_email now tenantId input w.
  assert (Hget : only_tenant_touched tenantId w
                   (Run.after (EmailLimits.getUsage now tenantId) w)
                 /\ emailUsageLogs (Run.after (EmailLimits.getUsage now tenantId) w)
                    = emailUsageLogs w).
  { unfold Run.after. destruct (database_available w) eqn:Hdb.
    - destruct (find_tenant tenantId w) as [tenant |] eqn:Hfind.
      + rewrite (run_getUsage now tenantId w tenant Hdb Hfind).
        destruct (EmailLimits.needsReset now tenant); cbn [snd].
        * split; [apply only_tenant_touched_update; reflexivity | reflexivity].
        * split; [apply only_tenant_touched_refl | reflexivity].
      + rewrite (run_getUsage_missing now tenantId w Hdb Hfind).
        split; [apply only_tenant_touched_refl | reflexivity].
    - rewrite (run_getUsage_unavailable now tenantId w Hdb).
      split; [apply only_tenant_touched_refl | reflexivity]. }
  split; [exact (proj1 Hget) |]. split; [exact (proj2 Hget) |].
  unfold Run.after. destruct (EmailLimits.input_accepted z_email input) eqn:Hok.
  - destruct (database_available w) eqn:Hdb.
    + destruct (find_tenant tenantId w) as [tenant |] eqn:Hfind.
      * rewrite (run_trackEmailSend z_email tenantId input w tenant Hok Hdb Hfind).
        cbn [snd].
        exact (only_tenant_touched_update tenantId (EmailLimits.track_set tenant) w
                 (fun t => eq_refl)).
      * rewrite (run_trackEmailSend_missing z_email tenantId input w Hok Hdb Hfind).
        apply only_tenant_touched_refl.
    + rewrite (run_trackEmailSend_unavailable z_email tenantId input w Hok Hdb).
      apply only_tenant_touched_refl.
  - destruct (run_trackEmailSend_rejected z_email tenantId input w Hok)
      as (message & _ & Hrun).
    rewrite Hrun. apply only_tenant_touched_refl.
Qed.

(** ** The admin listing *)

(** X15.  [getAllTenantsUsage] changes nothing and lists every tenant once, in the
    order of the table, with the stored limit and counter.  For a positive
    limit its [percentUsed] is the one [getUsage] reports in the current
    period; for a limit that is null or 0 it is 0. *)
Theorem getAllTenantsUsage_lists_every_tenant :
  forall w : World,
    database_available w = true ->
    exists rows,
      Run.run EmailLimits.getAllTenantsUsage w = (inr rows, w)
      /\ map EmailLimits.row_id rows = map tenant_id (tenants w)
      /\ map EmailLimits.row_emailMonthlyLimit rows = map emailMonthlyLimit (tenants w)
      /\ map EmailLimits.row_emailsSentThisMonth rows
         = map emailsSentThisMonth (tenants w)
      /\ map EmailLimits.row_percentUsed rows
         = map (fun t => match emailMonthlyLimit t with
                         | None | Some 0 => 0
                         | Some limit =>
                             if 0 <? limit
                             then EmailLimits.view_percentUsed (EmailLimits.usage_view t)
                             else JS.Math_round
                                    (JS.Number_ofZ (sent_of t) / JS.Number_ofZ limit * 100)%float
                         end) (tenants w).
Proof.
  intros w Hdb. exists (map EmailLimits.tenant_usage_row (tenants w)).
  split.
  { unfold EmailLimits.getAllTenantsUsage. rewrite run_bind, run_getDb, Hdb.
    reflexivity. }
  rewrite !map_map. repeat split. apply map_ext. intro t.
  unfold EmailLimits.tenant_usage_row, EmailLimits.usage_view, EmailLimits.percent, sent_of.
  cbn [EmailLimits.row_percentUsed EmailLimits.view_percentUsed].
  destruct (emailMonthlyLimit t) as [limit |]; [| reflexivity].
  destruct limit as [| p | p]; [reflexivity | |]; cbn [Z.eqb JS.or_int Z.ltb Z.compare];
    reflexivity.
Qed.

Lemma getAllTenantsUsage_lists_every_tenant_witness :
  exists rows,
    Run.run EmailLimits.getAllTenantsUsage Sample.world_studio
    = (inr rows, Sample.world_studio)
    /\ map EmailLimits.row_percentUsed rows = [14].
Proof.
  destruct (getAllTenantsUsage_lists_every_tenant Sample.world_studio eq_refl)
    as (rows & Hrun & _ & _ & _ & Hpercent).
  exists rows. split; [exact Hrun | exact Hpercent].
Defined.

(** ** The Stripe webhook *)

Section StripeEvents.

Variable Date_parse : string -> JS.Date.
Variable Date_plusDays : JS.Date -> Z -> JS.Date.
Variable Date_toISODate : JS.Date -> option string.
Variable toUpperCase : string -> string.
Variable Date_ofEpochMs : Z -> JS.Date.

Local Abbreviation generate :=
  (EmailOverageBilling.generateMonthlyInvoice
     Date_parse Date_plusDays Date_toISODate toUpperCase).
Local Abbreviation procedure := (EmailOverageBilling.handleStripeWebhook Date_parse).
Local Abbreviation succeeded :=
  (StripeWebhook.handleInvoicePaymentSucceeded Date_ofEpochMs).
Local Abbreviation webhook := (StripeWebhook.handleStripeWebhook Date_ofEpochMs).

(** X11.  An event that is neither [invoice.payment_succeeded] nor
    [invoice.payment_failed] is only reported on the console: a subscription
    event is answered with its type, any other event with null, whether or
    not the database is available, and no table is read or written. *)
Theorem handleStripeWebhook_other_events :
  forall (w : World) (event : StripeWebhook.StripeEvent),
    StripeWebhook.event_type event <> "invoice.payment_succeeded" ->
    StripeWebhook.event_type event <> "invoice.payment_failed" ->
    let type := StripeWebhook.event_type event in
    let subscription :=
      (String.eqb type "customer.subscription.created"
       || String.eqb type "customer.subscription.updated"
       || String.eqb type "customer.subscription.deleted")%bool in
    Run.result (webhook event) w
    = inr (if subscription then Some (StripeWebhook.handled_subscription type) else None)
    /\ tables (Run.after (webhook event) w) = tables w
    /\ console (Run.after (webhook event) w)
       = (console w
          ++ [(console_log, ("📨 Received Stripe webhook: " ++ type)%string);
              (console_log,
               ((if subscription then "ℹ️ Subscription event received: "
                 else "ℹ️ Unhandled event type: ") ++ type)%string)])%list.
Proof.
  intros w event Hs Hf type subscription. subst type subscription.
  apply String.eqb_neq in Hs. apply String.eqb_neq in Hf.
  unfold Run.result, Run.after, StripeWebhook.handleStripeWebhook.
  rewrite run_bind. cbn [Run.run Db.console_write await]. rewrite run_try_catch.
  rewrite Hs, Hf.
  destruct (_ || _)%bool; cbn [Run.run bind Db.console_write await fst snd];
    (split; [reflexivity |]); (split; [reflexivity |]);
    cbn [console Db.set_console]; rewrite <- app_assoc; reflexivity.
Qed.

(** X12.  Without a database nothing is written.  Every procedure that is given
    no database handle throws at once, INTERNAL_SERVER_ERROR from the tRPC
    procedures and an [Error] from the Stripe handlers, and the store is as
    it was; [handleStripeWebhook] of [stripeWebhook.ts] reports the error on
    the console and throws it again. *)
Theorem nothing_is_written_without_a_database :
  forall (z_email : string -> option string) (w : World),
    database_available w = false ->
    let unavailable := TRPCError INTERNAL_SERVER_ERROR "Database not available" in
    (forall (now : JS.Date) (tenantId : string),
        Run.run (EmailLimits.getUsage now tenantId) w = (inl unavailable, w))
    /\ (forall (tenantId : string) (input : EmailLimits.TrackInput),
           EmailLimits.input_accepted z_email input = true ->
           Run.run (EmailLimits.trackEmailSend z_email tenantId input) w
           = (inl unavailable, w))
    /\ Run.run EmailLimits.getAllTenantsUsage w = (inl unavailable, w)
    /\ (forall input : EmailOverageBilling.GenerateInput,
           Run.run (generate input) w = (inl unavailable, w))
    /\ (forall input : EmailOverageBilling.WebhookInput,
           Run.run (procedure input) w = (inl unavailable, w))
    /\ (forall invoice : StripeWebhook.StripeInvoice,
           Run.run (succeeded invoice) w = (inl (JsError "Database not available"), w)
           /\ Run.run (StripeWebhook.handleInvoicePaymentFailed invoice) w
              = (inl (JsError "Database not available"), w)
           /\ Run.result
                (webhook (StripeWebhook.mkStripeEvent "invoice.payment_failed" invoice)) w
              = inl (JsError "Database not available")
           /\ tables (Run.after
                        (webhook (StripeWebhook.mkStripeEvent "invoice.payment_failed"
                                                              invoice)) w)
              = tables w
           /\ console (Run.after
                         (webhook (StripeWebhook.mkStripeEvent "invoice.payment_failed"
                                                               invoice)) w)
              = (console w
                 ++ [(console_log, "📨 Received Stripe webhook: invoice.payment_failed");
                     (console_error,
                      "❌ Error handling webhook event invoice.payment_failed:")])%list).
Proof.
  intros z_email w Hdb unavailable. subst unavailable.
  split; [intros now tenantId; exact (run_getUsage_unavailable now tenantId w Hdb) |].
  split; [intros tenantId input Hok;
          exact (run_trackEmailSend_unavailable z_email tenantId input w Hok Hdb) |].
  split.
  { unfold EmailLimits.getAllTenantsUsage. rewrite run_bind, run_getDb, Hdb.
    reflexivity. }
  split.
  { intro input. unfold EmailOverageBilling.generateMonthlyInvoice.
    rewrite run_bind, run_getDb, Hdb. reflexivity. }
  split.
  { intro input. unfold EmailOverageBilling.handleStripeWebhook.
    rewrite run_bind, run_getDb, Hdb. reflexivity. }
  intro invoice.
  assert (Hfailed : forall w', database_available w' = false ->
            Run.run (StripeWebhook.handleInvoicePaymentFailed invoice) w'
            = (inl (JsError "Database not available"), w')).
  { intros w' Hdb'. unfold StripeWebhook.handleInvoicePaymentFailed.
    rewrite run_bind, run_getDb, Hdb'. reflexivity. }
  split.
  { unfold StripeWebhook.handleInvoicePaymentSucceeded.
    rewrite run_bind, run_getDb, Hdb. reflexivity. }
  split; [apply Hfailed; exact Hdb |].
  unfold Run.result, Run.after. rewrite run_webhook_failed, run_try_catch.
  rewrite Hfailed by exact Hdb.
  cbn [Run.run bind Db.console_write await fst snd].
  split; [reflexivity |]. split; [reflexivity |].
  cbn [console Db.set_console]. rewrite <- app_assoc. reflexivity.
Qed.

Lemma find_sms_invoice_after_update (remoteId : string) (id : Z)
      (set : SmsInvoice -> SmsInvoice) (w : World) :
  (forall i, sms_stripeInvoiceId (set i) = sms_stripeInvoiceId i) ->
  find_sms_invoice remoteId
    (Db.set_smsOverageInvoices w
       (Db.update_where (fun i => sms_id i =? id) set (smsOverageInvoices w)))
  = option_map (fun i => if sms_id i =? id then set i else i)
               (find_sms_invoice remoteId w).
Proof.
  intro H. unfold find_sms_invoice. cbn [smsOverageInvoices Db.set_smsOverageInvoices].
  apply find_update_where. intro r. rewrite H. reflexivity.
Qed.

(** X13.  [handleInvoicePaymentFailed] looks among the email invoices first.  When
    one has the remote id, it is set to failed and the SMS invoices are left
    alone, also one with the same remote id.  When none has it and an SMS
    invoice has, that one is set to failed, keeping its payment date, and
    the email invoices are left alone.  The tenants are never touched: a
    failure resets no charge. *)
Theorem handleInvoicePaymentFailed_email_before_sms :
  forall (w : World) (event : StripeWebhook.StripeInvoice),
    database_available w = true ->
    let remoteId := StripeWebhook.stripe_id event in
    let w1 := Run.after (StripeWebhook.handleInvoicePaymentFailed event) w in
    tenants w1 = tenants w
    /\ emailUsageLogs w1 = emailUsageLogs w
    /\ (forall emailInvoice : Invoice,
           find_invoice remoteId w = Some emailInvoice ->
           Run.result (StripeWebhook.handleInvoicePaymentFailed event) w
           = inr (Some (StripeWebhook.handled_invoice "email"
                          (invoiceNumber emailInvoice)))
           /\ smsOverageInvoices w1 = smsOverageInvoices w)
    /\ (forall smsInvoice : SmsInvoice,
           find_invoice remoteId w = None ->
           find_sms_invoice remoteId w = Some smsInvoice ->
           Run.result (StripeWebhook.handleInvoicePaymentFailed event) w
           = inr (Some (StripeWebhook.handled_invoice "sms"
                          (sms_invoiceNumber smsInvoice)))
           /\ emailOverageInvoices w1 = emailOverageInvoices w
           /\ exists stored,
                find_sms_invoice remoteId w1 = Some stored
                /\ sms_status stored = failed
                /\ sms_paidAt stored = sms_paidAt smsInvoice).
Proof.
  intros w event Hdb remoteId w1. subst remoteId w1.
  unfold Run.result, Run.after. rewrite run_failed by exact Hdb.
  destruct (find_invoice (StripeWebhook.stripe_id event) w) as [emailInvoice |].
  - cbn [fst snd]. split; [reflexivity |]. split; [reflexivity |].
    split; [| intros smsInvoice Hnone; discriminate Hnone].
    intros emailInvoice' Heq. injection Heq as <-. split; reflexivity.
  - destruct (find_sms_invoice (StripeWebhook.stripe_id event) w) as [smsInvoice |] eqn:Hsms.
    + cbn [fst snd]. split; [reflexivity |]. split; [reflexivity |].
      split; [intros emailInvoice Heq; discriminate Heq |].
      intros smsInvoice' _ Heq. injection Heq as <-.
      split; [reflexivity |]. split; [reflexivity |].
      exists (StripeWebhook.set_sms_failed smsInvoice). unfold sms_marked.
      change (find_sms_invoice ?r (Db.set_console ?x ?l)) with (find_sms_invoice r x).
      rewrite find_sms_invoice_after_update by reflexivity. rewrite Hsms.
      cbn [option_map]. rewrite Z.eqb_refl. repeat split.
    + cbn [fst snd]. split; [reflexivity |]. split; [reflexivity |].
      split; [intros emailInvoice Heq; discriminate Heq |].
      intros smsInvoice _ Heq. discriminate Heq.
Qed.

End StripeEvents.

Lemma handleInvoicePaymentSucceeded_without_status_transition_witness :
  Run.run (StripeWebhook.handleInvoicePaymentSucceeded Sample.date_of_ms
             Sample.stripe_invoice) Sample.world_billed
  = (inl StripeWebhook.TypeError_paid_at, Sample.world_billed).
Proof.
  exact (proj1 (handleInvoicePaymentSucceeded_without_status_transition
                  Sample.date_of_ms Sample.stripe_invoice Sample.world_billed
                  eq_refl eq_refl)).
Defined.

Lemma handleStripeWebhook_other_events_witness :
  Run.result (StripeWebhook.handleStripeWebhook Sample.date_of_ms
                (StripeWebhook.mkStripeEvent "customer.subscription.updated"
                                             Sample.stripe_unknown))
             Sample.world_billed
  = inr (Some (StripeWebhook.handled_subscription "customer.subscription.updated")).
Proof.
  refine (proj1 (handleStripeWebhook_other_events Sample.date_of_ms Sample.world_billed
                   (StripeWebhook.mkStripeEvent "customer.subscription.updated"
                                                Sample.stripe_unknown) _ _));
    discriminate.
Defined.

Lemma nothing_is_written_without_a_database_witness :
  Run.run (EmailLimits.getUsage Sample.mid_march "7f3c2a10-salon-nord")
          (Db.set_tenants (mkWorld false [] [] 1 [] [] []) [Sample.salon])
  = (inl (TRPCError INTERNAL_SERVER_ERROR "Database not available"),
     Db.set_tenants (mkWorld false [] [] 1 [] [] []) [Sample.salon]).
Proof.
  exact (proj1 (nothing_is_written_without_a_database
                  Sample.date_of_string (fun d _ => d) (fun _ => None) Sample.upper
                  Sample.date_of_ms Sample.is_email
                  (Db.set_tenants (mkWorld false [] [] 1 [] [] []) [Sample.salon])
                  eq_refl)
               Sample.mid_march "7f3c2a10-salon-nord").
Defined.

Lemma handleInvoicePaymentFailed_email_before_sms_witness :
  Run.result (StripeWebhook.handleInvoicePaymentFailed Sample.stripe_invoice)
             Sample.world_billed
  = inr (Some (StripeWebhook.handled_invoice "email" "INV-202402-7F3C2A10"))
  /\ smsOverageInvoices
       (Run.after (StripeWebhook.handleInvoicePaymentFailed Sample.stripe_invoice)
                  Sample.world_billed)
     = smsOverageInvoices Sample.world_billed.
Proof.
  destruct (handleInvoicePaymentFailed_email_before_sms Sample.world_billed
              Sample.stripe_invoice eq_refl) as (_ & _ & Hemail & _).
  exact (Hemail Sample.february_invoice eq_refl).
Defined.
